(** * The timeline of the Frigate card: event coverage cache and
      view/timeline synchronisation

    A shallow embedding of [src/components/timeline.ts]: the class
    [TimelineEventManager] (the event coverage cache) and the element
    [FrigateCardTimelineCore] (thumbnail projection, window placement and the
    widget handlers), followed by the properties the specification states
    about them.

    Conventions of the embedding.
    - A JavaScript [Date] is its [getTime()] value, a [Z] of milliseconds
      since the epoch; event timestamps ([start_time], [end_time]) are [Z]
      seconds.  Every read of the wall clock ([new Date()]) inside one
      synchronous run is the parameter [now] of that run.
    - An optional or nullable property is an [option]; JavaScript truthiness
      is written out ([JS.truthy_number], [JS.truthy_string]).
    - Stateful code runs in the monad [M]: state passing, an exception
      channel (a rejected promise, a [throw]) and the ordered list of
      outbound effects it performed.
    - An [async] function is a pair: its synchronous prefix, run by the
      caller up to the first pending [await], and its resumption, run when
      the awaited promises have settled. *)

From Stdlib Require Import ZArith List String Bool Lia Permutation.
From Stdlib Require Import RelationClasses Sorted.
Import ListNotations.
Local Open Scope Z_scope.

Set Implicit Arguments.

(** ** JavaScript helpers *)

Module JS.

(** [!!n] for a number: every number but zero (NaN is not modelled). *)
Definition truthy_number (n : Z) : bool := negb (n =? 0).

(** [!!n] for an optional number: [undefined] and [null] are falsy. *)
Definition truthy_opt_number (n : option Z) : bool :=
  match n with
  | Some z => truthy_number z
  | None => false
  end.

(** [!!s] for a string: every string but the empty one. *)
Definition truthy_string (s : string) : bool := negb (String.eqb s EmptyString).

(** [!!x] for an optional object. *)
Definition truthy_opt {A : Type} (x : option A) : bool :=
  match x with
  | Some _ => true
  | None => false
  end.

(** [l.includes(x)] on an array of strings. *)
Definition includes (l : list string) (x : string) : bool :=
  existsb (String.eqb x) l.

(** [l.findIndex(p)]: the first index satisfying [p], or [-1]. *)
Fixpoint findIndex {A : Type} (p : A -> bool) (l : list A) : Z :=
  match l with
  | [] => -1
  | x :: rest =>
      if p x then 0
      else let i := findIndex p rest in
           if i <? 0 then -1 else i + 1
  end.

(** [a === b] between a string and an optional string
    ([undefined] equals no string). *)
Definition strict_eq_opt (a : string) (b : option string) : bool :=
  match b with
  | Some s => String.eqb a s
  | None => false
  end.

End JS.

(** ** Data model *)

(** [FrigateEvent] (declared in [types.ts]): the fields the timeline reads. *)
Module FrigateEvent.

Record t : Type := mk {
  id : string;
  label : string;
  start_time : Z;
  end_time : option Z;
}.

(** Equality of two events is decidable. *)
Definition event_eq_dec : forall a b : t, {a = b} + {a <> b}.
Proof.
  decide equality; try apply string_dec; try apply Z.eq_dec.
  decide equality; apply Z.eq_dec.
Defined.

End FrigateEvent.

(** [FrigateBrowseMediaSource]: a node of the media tree; [frigate] is the
    event of [source.frigate?.event]. *)
Module Source.

#[warnings="-register-all"] Inductive t : Type := mk {
  title : string;
  media_class : string;
  media_content_type : string;
  media_content_id : string;
  can_play : bool;
  can_expand : bool;
  children_media_class : option string;
  thumbnail : option string;
  children : option (list t);
  frigate : option FrigateEvent.t;
}.

(** Equality of two media sources, children included, is decidable. *)
Definition source_eq_dec : forall a b : t, {a = b} + {a <> b}.
Proof.
  fix IH 1. intros a b. decide equality;
    try apply string_dec; try apply bool_dec;
    try (decide equality; apply string_dec).
  - decide equality. apply FrigateEvent.event_eq_dec.
  - decide equality. apply list_eq_dec. exact IH.
Defined.

(** [source.frigate?.event?.id]. *)
Definition event_id (s : t) : option string :=
  option_map FrigateEvent.id (frigate s).

End Source.

(** lodash's [isEqual] on media sources: deep structural equality. *)
Definition isEqual_source (a b : Source.t) : bool :=
  if Source.source_eq_dec a b then true else false.

(** The [type] of a vis-timeline item. *)
Inductive ItemType : Type := point | range.

(** [FrigateCardTimelineItem]: a vis-timeline item carrying its event and
    the media found for it.  [end_], [type], [clip] and [snapshot] are the
    keys an item object may lack. *)
Module Item.

Record t : Type := mk {
  id : string;
  group : string;
  content : string;
  title : string;
  start : Z;
  end_ : option Z;
  type : option ItemType;
  event : FrigateEvent.t;
  clip : option Source.t;
  snapshot : option Source.t;
}.

Definition set_end (e : Z) (i : t) : t :=
  mk (id i) (group i) (content i) (title i) (start i) (Some e) (type i)
     (event i) (clip i) (snapshot i).

Definition set_type (ty : ItemType) (i : t) : t :=
  mk (id i) (group i) (content i) (title i) (start i) (end_ i) (Some ty)
     (event i) (clip i) (snapshot i).

Definition set_clip (c : Source.t) (i : t) : t :=
  mk (id i) (group i) (content i) (title i) (start i) (end_ i) (type i)
     (event i) (Some c) (snapshot i).

Definition set_snapshot (s : Source.t) (i : t) : t :=
  mk (id i) (group i) (content i) (title i) (start i) (end_ i) (type i)
     (event i) (clip i) (Some s).

End Item.

(** The id of an item is the identifier of its event. *)
Definition item_of_its_event (i : Item.t) : Prop :=
  Item.id i = FrigateEvent.id (Item.event i).

(** ** The vis-data [DataSet]

    The contract of the library the manager relies on: a map from item id
    to item that keeps insertion order (a JavaScript [Map]), here the list
    of its items in insertion order. *)
Module DataSet.

Definition t : Type := list Item.t.

Definition empty : t := [].

(** [dataset.length]. *)
Definition length (ds : t) : nat := List.length ds.

Definition ids (ds : t) : list string := map Item.id ds.

(** The event identifiers of the items, in insertion order. *)
Definition event_ids (ds : t) : list string :=
  map (fun i => FrigateEvent.id (Item.event i)) ds.

(** [dataset.get(id)]: a copy of the item, or [null]. *)
Fixpoint get (ds : t) (id : string) : option Item.t :=
  match ds with
  | [] => None
  | i :: rest => if String.eqb (Item.id i) id then Some i else get rest id
  end.

Definition has (ds : t) (id : string) : bool := JS.truthy_opt (get ds id).

Definition or_else {A : Type} (new old : option A) : option A :=
  match new with
  | Some _ => new
  | None => old
  end.

(** [{ ...old, ...upd }]: the keys of [upd] win, the keys it lacks stay. *)
Definition spread (old upd : Item.t) : Item.t :=
  Item.mk (Item.id upd) (Item.group upd) (Item.content upd) (Item.title upd)
          (Item.start upd)
          (or_else (Item.end_ upd) (Item.end_ old))
          (or_else (Item.type upd) (Item.type old))
          (Item.event upd)
          (or_else (Item.clip upd) (Item.clip old))
          (or_else (Item.snapshot upd) (Item.snapshot old)).

(** [_updateItem]: the stored item becomes [{ ...item, ...update }],
    in place. *)
Fixpoint _updateItem (ds : t) (upd : Item.t) : t :=
  match ds with
  | [] => []
  | i :: rest =>
      if String.eqb (Item.id i) (Item.id upd)
      then spread i upd :: rest
      else i :: _updateItem rest upd
  end.

(** [_addItem]: a new entry, last in insertion order. *)
Definition _addItem (ds : t) (item : Item.t) : t := ds ++ [item].

Definition addOrUpdate (ds : t) (item : Item.t) : t :=
  if has ds (Item.id item) then _updateItem ds item else _addItem ds item.

(** [dataset.update(items)]: every item in turn is merged into the entry
    of its id, or added when the id is new. *)
Definition update (items : list Item.t) (ds : t) : t :=
  fold_left addOrUpdate items ds.

(** [dataset.updateOnly(item)] for an item that exists. *)
Definition updateOnly (item : Item.t) (ds : t) : t := _updateItem ds item.

(** [dataset.clear()]. *)
Definition clear (ds : t) : t := [].

(** Insertion into a list sorted by [start], before the first item that
    does not start earlier. *)
Fixpoint insert_by_start (x : Item.t) (l : list Item.t) : list Item.t :=
  match l with
  | [] => [x]
  | y :: rest =>
      if Item.start x <=? Item.start y then x :: y :: rest
      else y :: insert_by_start x rest
  end.

(** [dataset.get({ order: 'start' })]: all items by ascending [start];
    the sort is stable, so equal starts keep insertion order. *)
Fixpoint get_order_start (ds : t) : list Item.t :=
  match ds with
  | [] => []
  | x :: rest => insert_by_start x (get_order_start rest)
  end.

End DataSet.

(** ** Types shared by the manager and the element *)

(** [TimelineMediaType]. *)
Inductive TimelineMediaType : Type := all | clips | snapshots.

Definition TimelineMediaType_eqb (a b : TimelineMediaType) : bool :=
  match a, b with
  | all, all | clips, clips | snapshots, snapshots => true
  | _, _ => false
  end.

(** [TimelineWindow] of vis-timeline: two dates. *)
Module TimelineWindow.

Record t : Type := mk { start : Z; end_ : Z }.

(** lodash's [isEqual] on two windows: both dates equal. *)
Definition isEqual (a b : t) : bool :=
  (start a =? start b) && (end_ a =? end_ b).

End TimelineWindow.

(** [TimelineViewContext]: the bag persisted in the view; [window] may be
    missing from it. *)
Record TimelineViewContext : Type := {
  window : option TimelineWindow.t;
}.

(** [View] (declared in [view.ts]): what the timeline reads of it. *)
Module View.

Record t : Type := mk {
  target : option Source.t;
  media : option Source.t;
  context : option TimelineViewContext;
}.

(** [view.context?.window]. *)
Definition context_window (v : t) : option TimelineWindow.t :=
  match context v with
  | Some ctx => window ctx
  | None => None
  end.

(** [view?.media?.frigate?.event]. *)
Definition media_event (v : option t) : option FrigateEvent.t :=
  match v with
  | Some w =>
      match media w with
      | Some s => Source.frigate s
      | None => None
      end
  | None => None
  end.

(** [view?.target?.frigate?.event]. *)
Definition target_event (v : option t) : option FrigateEvent.t :=
  match v with
  | Some w =>
      match target w with
      | Some s => Source.frigate s
      | None => None
      end
  | None => None
  end.

End View.

(** The argument of [view.evolve]: the keys given, the others absent.
    [childIndex] is a number or [null]. *)
Record ViewEvolveParameters : Type := {
  evolve_target : option Source.t;
  evolve_childIndex : option (option Z);
  evolve_context : option TimelineViewContext;
}.

(** [TimelineConfig]: the media filter, the clustering threshold and the
    thumbnail size as the tooltip template prints it. *)
Record TimelineConfig : Type := {
  media : TimelineMediaType;
  clustering_threshold : option Z;
  controls_thumbnails_size : string;
}.

(** What [timeline.ts] imports from the rest of the card and does not
    define: types and helpers of [types.ts] and [browse-media-util.ts]. *)
Class Collaborators : Type := {
  CameraConfig : Type;
  BrowseMediaQueryParametersBase : Type;
  getBrowseMediaQueryParametersBase :
    CameraConfig -> option BrowseMediaQueryParametersBase;
  isTrueMedia : Source.t -> bool;
  MEDIA_CLASS_PLAYLIST : string;
  MEDIA_TYPE_PLAYLIST : string;
  JSON_stringify : FrigateEvent.t -> string;
}.

(** ** Effects and the monad of stateful code *)

Section Effects.
Context `{Collaborators}.

(** The argument of [BrowseMediaUtil.browseMediaQuery].  [before] and
    [after] are sent in seconds, [getTime() / 1000]; the record keeps the
    milliseconds they are computed from. *)
Record BrowseMediaQueryParameters : Type := {
  query_base : BrowseMediaQueryParametersBase;
  before_ms : Z;
  after_ms : Z;
  unlimited : bool;
  mediaType : TimelineMediaType;
}.

(** The [console.info] lines of the file. *)
Inductive LogLine : Type :=
| log_range_changed (start end_ : Z) (length : nat)
| log_window_from_context (w : TimelineWindow.t)
| log_window_from_event (start end_ : Z)
| log_window_from_live (start end_ : Z).

(** What the code does to the outside world. *)
Inductive Effect : Type :=
| console_info (line : LogLine)
| browseMediaQuery (camera : string) (params : BrowseMediaQueryParameters)
| dispatchErrorMessageEvent (message : string)
| dispatchFrigateCardEvent (name : string)
| dispatchChangeEvent (view : View.t) (changes : ViewEvolveParameters)
| timeline_setWindow (start end_ : Z)
| timeline_setSelection (ids : list string)
| timeline_destroy
| timeline_new (start end_ : Z) (clustering : bool)
| timeline_on (event : string).

(** How a promise settles. *)
Inductive Settled (A : Type) : Type :=
| resolved (value : A)
| rejected (message : string).

(** How a run ends: a value, or an exception carrying [e.message]. *)
Inductive Outcome (A : Type) : Type :=
| Return (value : A)
| Throw (message : string).

(** The monad of stateful code over a state [S]. *)
Definition M (S A : Type) : Type := S -> Outcome A * S * list Effect.

Definition ret {S A : Type} (a : A) : M S A :=
  fun s => (Return a, s, []).

Definition bind {S A B : Type} (c : M S A) (k : A -> M S B) : M S B :=
  fun s =>
    match c s with
    | (Return a, s1, t1) =>
        match k a s1 with
        | (o, s2, t2) => (o, s2, t1 ++ t2)
        end
    | (Throw _ e, s1, t1) => (Throw B e, s1, t1)
    end.

Definition get {S : Type} : M S S := fun s => (Return s, s, []).

Definition modify {S : Type} (f : S -> S) : M S unit :=
  fun s => (Return tt, f s, []).

Definition emit {S : Type} (e : Effect) : M S unit :=
  fun s => (Return tt, s, [e]).

Definition throw {S A : Type} (message : string) : M S A :=
  fun s => (Throw A message, s, []).

(** [try { c } catch (e) { handler(e.message) }]. *)
Definition try_catch {S A : Type} (c : M S A) (handler : string -> M S A)
  : M S A :=
  fun s =>
    match c s with
    | (Return a, s1, t1) => (Return a, s1, t1)
    | (Throw _ e, s1, t1) =>
        match handler e s1 with
        | (o, s2, t2) => (o, s2, t1 ++ t2)
        end
    end.

(** [await p] for a promise that has settled. *)
Definition await {S A : Type} (p : Settled A) : M S A :=
  match p with
  | resolved v => ret v
  | rejected _ e => throw e
  end.

(** A body run to its end as a promise: its outcome is kept for whoever
    awaits it, and does not stop the caller. *)
Definition as_promise {S A : Type} (c : M S A) : M S (Outcome A) :=
  fun s =>
    match c s with
    | (o, s1, t1) => (Return o, s1, t1)
    end.

(** Run code of a part [P] of the state [S]. *)
Definition zoom {S P A : Type} (proj : S -> P) (inj : P -> S -> S)
  (c : M P A) : M S A :=
  fun s =>
    match c (proj s) with
    | (o, p1, t1) => (o, inj p1 s, t1)
    end.

(** Code that takes every state to a state related to it by [R]. *)
Definition preserves {S A : Type} (R : S -> S -> Prop) (c : M S A) : Prop :=
  forall s, R s (snd (fst (c s))).

(** The three parts of a run. *)
Definition outcome_of {S A : Type} (r : Outcome A * S * list Effect)
  : Outcome A := fst (fst r).

Definition state_of {S A : Type} (r : Outcome A * S * list Effect) : S :=
  snd (fst r).

Definition effects_of {S A : Type} (r : Outcome A * S * list Effect)
  : list Effect := snd r.

End Effects.

Declare Scope monad_scope.
Delimit Scope monad_scope with monad.
Notation "x <- c ;; k" := (bind c (fun x => k))
  (at level 61, c at next level, right associativity) : monad_scope.
Notation "c ;; k" := (bind c (fun _ => k))
  (at level 61, right associativity) : monad_scope.
Local Open Scope monad_scope.

(** ** [class TimelineEventManager] *)

Definition TIMELINE_EVENT_MANAGER_MAX_AGE_SECONDS : Z := 10.

Module TimelineEventManager.
Section Manager.
Context `{Collaborators}.

(** The fields of the manager.  The two callbacks given to the
    constructor are closures of the caller; they are the parameters
    [contentCallback] and [tooltipCallback] of the code that calls them. *)
Record t : Type := mk {
  _dataset : DataSet.t;
  _dateStart : option Z;
  _dateEnd : option Z;
  _dateFetch : option Z;
  _maxAgeSeconds : Z;
}.

(** The manager as [new TimelineEventManager(...)] leaves it. *)
Definition new : t :=
  mk DataSet.empty None None None TIMELINE_EVENT_MANAGER_MAX_AGE_SECONDS.

Definition set_dataset (ds : DataSet.t) (m : t) : t :=
  mk ds (_dateStart m) (_dateEnd m) (_dateFetch m) (_maxAgeSeconds m).

Definition set_dateStart (d : option Z) (m : t) : t :=
  mk (_dataset m) d (_dateEnd m) (_dateFetch m) (_maxAgeSeconds m).

Definition set_dateEnd (d : option Z) (m : t) : t :=
  mk (_dataset m) (_dateStart m) d (_dateFetch m) (_maxAgeSeconds m).

Definition set_dateFetch (d : option Z) (m : t) : t :=
  mk (_dataset m) (_dateStart m) (_dateEnd m) d (_maxAgeSeconds m).

(** [get dataset()]. *)
Definition dataset (m : t) : DataSet.t := _dataset m.

(** [isEmpty()]. *)
Definition isEmpty (m : t) : bool := (DataSet.length (_dataset m) =? 0)%nat.

(** [clear()]: [this._dataset.clear()] and nothing else. *)
Definition clear (m : t) : t := set_dataset (DataSet.clear (_dataset m)) m.

(** [this._dataset.updateOnly(item)], as the element calls it on the
    dataset it shares with the manager. *)
Definition updateOnly (item : Item.t) (m : t) : t :=
  set_dataset (DataSet.updateOnly item (_dataset m)) m.

(** [callback?.(child) ?? '']. *)
Definition call_or_empty (cb : option (Source.t -> string))
  (child : Source.t) : string :=
  match cb with
  | Some f => f child
  | None => EmptyString
  end.

(** The body of the [forEach] of [_addMediaSource]: the item pushed for
    [child], if any.  [ds] is the dataset as it is during the loop (the
    loop does not change it). *)
Definition item_of_child
  (contentCallback tooltipCallback : option (Source.t -> string))
  (ds : DataSet.t) (camera : string) (child : Source.t) : option Item.t :=
  match Source.frigate child with
  | None => None
  | Some event =>
      if JS.includes ["video"; "image"]%string (Source.media_content_type child)
      then
        let item :=
          match DataSet.get ds (FrigateEvent.id event) with
          | Some existing => existing
          | None =>
              Item.mk (FrigateEvent.id event) camera
                (call_or_empty contentCallback child)
                (call_or_empty tooltipCallback child)
                (FrigateEvent.start_time event * 1000)
                None None event None None
          end in
        let item :=
          match FrigateEvent.end_time event with
          | Some e =>
              if JS.truthy_number e
              then Item.set_type range (Item.set_end (e * 1000) item)
              else Item.set_type point item
          | None => Item.set_type point item
          end in
        let item :=
          if String.eqb (Source.media_content_type child) "video"
          then Item.set_clip child item
          else if String.eqb (Source.media_content_type child) "image"
          then Item.set_snapshot child item
          else item in
        Some item
      else None
  end.

(** The id of the item the loop pushes for [child], if it pushes one: the
    identifier of the child's event. *)
Definition pushed_id (child : Source.t) : option string :=
  match Source.frigate child with
  | Some event =>
      if JS.includes ["video"; "image"]%string (Source.media_content_type child)
      then Some (FrigateEvent.id event)
      else None
  | None => None
  end.

(** The array [items] at the end of the loop. *)
Fixpoint items_of_children
  (contentCallback tooltipCallback : option (Source.t -> string))
  (ds : DataSet.t) (camera : string) (children : list Source.t)
  : list Item.t :=
  match children with
  | [] => []
  | child :: rest =>
      match item_of_child contentCallback tooltipCallback ds camera child with
      | Some item =>
          item :: items_of_children contentCallback tooltipCallback ds camera rest
      | None => items_of_children contentCallback tooltipCallback ds camera rest
      end
  end.

(** [_addMediaSource(camera, target)]. *)
Definition _addMediaSource
  (contentCallback tooltipCallback : option (Source.t -> string))
  (camera : string) (target : Source.t) (m : t) : t :=
  let items :=
    match Source.children target with
    | Some children =>
        items_of_children contentCallback tooltipCallback (_dataset m) camera
          children
    | None => []
    end in
  set_dataset (DataSet.update items (_dataset m)) m.

(** [hasCoverage(start, end?)]; [now] is [new Date().getTime()]. *)
Definition hasCoverage (m : t) (now : Z) (start : Z) (end_ : option Z)
  : bool :=
  match _dateFetch m, _dateStart m, _dateEnd m with
  | Some dateFetch, Some dateStart, Some dateEnd =>
      if JS.truthy_number (_maxAgeSeconds m)
         && (now - dateFetch >? _maxAgeSeconds m * 1000)
      then false
      else if start <? dateStart then false
      else
        match end_ with
        | None => true
        | Some e =>
            if e <? dateEnd then true
            else if negb (JS.truthy_number (_maxAgeSeconds m)) then false
            else if now - e >? _maxAgeSeconds m * 1000 then false
            else e - _maxAgeSeconds m * 1000 <=? dateEnd
        end
  | _, _, _ => false
  end.

(** The [cameras] map, a JavaScript [Map] in insertion order. *)
Definition CameraMap : Type := list (string * CameraConfig).

(** [cameras.get(camera)]. *)
Fixpoint Map_get (cameras : CameraMap) (camera : string)
  : option CameraConfig :=
  match cameras with
  | [] => None
  | (k, v) :: rest => if String.eqb k camera then Some v else Map_get rest camera
  end.

(** [Array.from(cameras.keys())]. *)
Definition Map_keys (cameras : CameraMap) : list string := map fst cameras.

(** A query in flight: the camera it was issued for and its parameters. *)
Definition Pending : Type := (string * BrowseMediaQueryParameters)%type.

(** [fetchCameraEvents(camera, mediaType)] up to its [await]: the guards
    and the call of [browseMediaQuery], whose promise is left pending. *)
Definition fetchCameraEvents_sync (cameras : CameraMap) (camera : string)
  (mediaType : TimelineMediaType) : M t (option Pending) :=
  m <- get ;;
  match Map_get cameras camera, _dateStart m, _dateEnd m with
  | Some cameraConfig, Some dateStart, Some dateEnd =>
      match getBrowseMediaQueryParametersBase cameraConfig with
      | None => ret None
      | Some base =>
          let params :=
            Build_BrowseMediaQueryParameters base dateEnd dateStart true
              mediaType in
          emit (browseMediaQuery camera params) ;;
          ret (Some (camera, params))
      end
  | _, _, _ => ret None
  end.

(** The rest of [fetchCameraEvents] once its query has settled: the
    [try] block merges the answer, the [catch] block reports the failure. *)
Definition fetchCameraEvents_resume
  (contentCallback tooltipCallback : option (Source.t -> string))
  (p : Pending) (answer : Settled Source.t) : M t unit :=
  try_catch
    (source <- await answer ;;
     modify (_addMediaSource contentCallback tooltipCallback (fst p) source))
    (fun message => emit (dispatchErrorMessageEvent message)).

(** The promises of [fetchCameraEvents] run to their ends in the order
    their queries settle. *)
Fixpoint settle_all
  (contentCallback tooltipCallback : option (Source.t -> string))
  (arrivals : list (Pending * Settled Source.t))
  : M t (list (Outcome unit)) :=
  match arrivals with
  | [] => ret []
  | (p, answer) :: rest =>
      o <- as_promise
             (fetchCameraEvents_resume contentCallback tooltipCallback p answer) ;;
      os <- settle_all contentCallback tooltipCallback rest ;;
      ret (o :: os)
  end.

(** The first rejection among settled promises. *)
Fixpoint first_rejection (os : list (Outcome unit)) : option string :=
  match os with
  | [] => None
  | Return _ :: rest => first_rejection rest
  | Throw _ e :: _ => Some e
  end.

(** [await Promise.all(promises)]: every promise runs to its end; the
    [await] throws when one of them rejected. *)
Definition await_Promise_all
  (contentCallback tooltipCallback : option (Source.t -> string))
  (arrivals : list (Pending * Settled Source.t)) : M t unit :=
  os <- settle_all contentCallback tooltipCallback arrivals ;;
  match first_rejection os with
  | Some e => throw e
  | None => ret tt
  end.

(** The pairs the fan-out of [_fetchEvents] walks: for each media type,
    each camera. *)
Definition requests (cameras : CameraMap) (media : TimelineMediaType)
  : list (string * TimelineMediaType) :=
  flat_map
    (fun mediaType => map (fun camera => (camera, mediaType)) (Map_keys cameras))
    (match media with
     | all => [clips; snapshots]
     | _ => [media]
     end).

(** The calls of [fetchCameraEvents] made while building [promises]. *)
Fixpoint issue_all (cameras : CameraMap)
  (rs : list (string * TimelineMediaType)) : M t (list Pending) :=
  match rs with
  | [] => ret []
  | (camera, mediaType) :: rest =>
      p <- fetchCameraEvents_sync cameras camera mediaType ;;
      ps <- issue_all cameras rest ;;
      ret (match p with
           | Some q => q :: ps
           | None => ps
           end)
  end.

(** [_fetchEvents] up to [await Promise.all(promises)]: the window is
    widened, the fetch is stamped and every query is issued.  The result
    is the list of queries in flight. *)
Definition _fetchEvents_sync (now : Z) (cameras : CameraMap)
  (media : TimelineMediaType) (start end_ : option Z) : M t (list Pending) :=
  m <- get ;;
  (if negb (JS.truthy_opt (_dateStart m))
      || match start, _dateStart m with
         | Some s, Some d => s <? d
         | _, _ => false
         end
   then modify (set_dateStart start)
   else ret tt) ;;
  m <- get ;;
  (if negb (JS.truthy_opt (_dateEnd m))
      || match end_, _dateEnd m with
         | Some e, Some d => e >? d
         | _, _ => false
         end
   then modify (set_dateEnd end_)
   else ret tt) ;;
  m <- get ;;
  if negb (JS.truthy_opt (_dateStart m)) || negb (JS.truthy_opt (_dateEnd m))
  then ret []
  else
    modify (set_dateFetch (Some now)) ;;
    issue_all cameras (requests cameras media).

(** The queries the fan-out leaves in flight over the window from
    [dateStart] to [dateEnd]: one for each request whose camera has a
    configuration with base parameters. *)
Fixpoint queries_for (cameras : CameraMap) (dateStart dateEnd : Z)
  (rs : list (string * TimelineMediaType)) : list Pending :=
  match rs with
  | [] => []
  | (camera, mediaType) :: rest =>
      match Map_get cameras camera with
      | Some cameraConfig =>
          match getBrowseMediaQueryParametersBase cameraConfig with
          | Some base =>
              (camera,
               Build_BrowseMediaQueryParameters base dateEnd dateStart true
                 mediaType)
              :: queries_for cameras dateStart dateEnd rest
          | None => queries_for cameras dateStart dateEnd rest
          end
      | None => queries_for cameras dateStart dateEnd rest
      end
  end.

(** The earliest date after a fetch from [start] is requested. *)
Definition widened_start (m : t) (start : Z) : Z :=
  match _dateStart m with
  | Some d => if start <? d then start else d
  | None => start
  end.

(** The latest date after a fetch up to [end_] is requested. *)
Definition widened_end (m : t) (end_ : Z) : Z :=
  match _dateEnd m with
  | Some d => if end_ >? d then end_ else d
  | None => end_
  end.

(** [fetchEventsIfNecessary] up to its [await]: [None] when there is
    coverage (the call resolves to [false]), else the queries in flight. *)
Definition fetchEventsIfNecessary_sync (now : Z) (cameras : CameraMap)
  (media : TimelineMediaType) (start end_ : Z)
  : M t (option (list Pending)) :=
  m <- get ;;
  if hasCoverage m now start (Some end_)
  then ret None
  else
    ps <- _fetchEvents_sync now cameras media (Some start) (Some end_) ;;
    ret (Some ps).

(** The rest of [fetchEventsIfNecessary] once the queries in flight have
    settled as [arrivals]: the value the call resolves to. *)
Definition fetchEventsIfNecessary_resume
  (contentCallback tooltipCallback : option (Source.t -> string))
  (pending : option (list Pending))
  (arrivals : list (Pending * Settled Source.t)) : M t bool :=
  match pending with
  | None => ret false
  | Some _ =>
      await_Promise_all contentCallback tooltipCallback arrivals ;;
      ret true
  end.

(** The answers [arrivals] settle exactly the queries [pending], in any
    order. *)
Definition settles (pending : list Pending)
  (arrivals : list (Pending * Settled Source.t)) : Prop :=
  Permutation (map fst arrivals) pending.

(** *** The decision procedure of the specification

    The eight steps of section 4.1, each the test its sentence states on
    the Coverage Window; the first step that applies decides. *)

(** Step 1: no window ever fetched. *)
Definition never_fetched (m : t) : bool :=
  negb (JS.truthy_opt (_dateFetch m) && JS.truthy_opt (_dateStart m)
        && JS.truthy_opt (_dateEnd m)).

(** Whether a staleness threshold is configured. *)
Definition has_threshold (m : t) : bool := JS.truthy_number (_maxAgeSeconds m).

Definition threshold_ms (m : t) : Z := _maxAgeSeconds m * 1000.

(** Step 2: the most recent fetch is older than the threshold. *)
Definition fetch_is_stale (m : t) (now : Z) : bool :=
  match _dateFetch m with
  | Some dateFetch => has_threshold m && (dateFetch <? now - threshold_ms m)
  | None => false
  end.

(** Step 3: [start] earlier than the stored earliest date. *)
Definition starts_before_earliest (m : t) (start : Z) : bool :=
  match _dateStart m with
  | Some dateStart => start <? dateStart
  | None => false
  end.

(** Step 5: [end] earlier than the stored latest date. *)
Definition ends_before_latest (m : t) (e : Z) : bool :=
  match _dateEnd m with
  | Some dateEnd => e <? dateEnd
  | None => false
  end.

(** Step 7: [end] older than now minus the threshold. *)
Definition end_is_old (m : t) (now e : Z) : bool := e <? now - threshold_ms m.

(** Step 8: [end − threshold ≤ storedLatestDate]. *)
Definition end_within_threshold_of_latest (m : t) (e : Z) : bool :=
  match _dateEnd m with
  | Some dateEnd => e - threshold_ms m <=? dateEnd
  | None => false
  end.

(** A decision list: the verdict of the first rule whose test holds. *)
Fixpoint first_match (rules : list (bool * bool)) (otherwise : bool) : bool :=
  match rules with
  | [] => otherwise
  | (test, verdict) :: rest => if test then verdict else first_match rest otherwise
  end.

(** The procedure as the specification lists it. *)
Definition hasCoverage_spec (m : t) (now : Z) (start : Z) (end_ : option Z)
  : bool :=
  first_match
    [ (never_fetched m, false);
      (fetch_is_stale m now, false);
      (starts_before_earliest m start, false);
      (negb (JS.truthy_opt end_), true);
      (match end_ with Some e => ends_before_latest m e | None => false end, true);
      (negb (has_threshold m), false);
      (match end_ with Some e => end_is_old m now e | None => false end, false) ]
    (match end_ with
     | Some e => end_within_threshold_of_latest m e
     | None => false
     end).

(** *** Relations between two states of the manager *)

(** The Coverage Window keeps what it has: a date that is set stays set
    and the threshold is unchanged. *)
Definition window_kept (m m' : t) : Prop :=
  (JS.truthy_opt (_dateStart m) = true -> JS.truthy_opt (_dateStart m') = true)
  /\ (JS.truthy_opt (_dateEnd m) = true -> JS.truthy_opt (_dateEnd m') = true)
  /\ (JS.truthy_opt (_dateFetch m) = true ->
      JS.truthy_opt (_dateFetch m') = true)
  /\ _maxAgeSeconds m' = _maxAgeSeconds m.

(** Nothing is lost: every item id of the dataset is still there and the
    Coverage Window keeps what it has. *)
Definition retains (m m' : t) : Prop :=
  incl (DataSet.ids (dataset m)) (DataSet.ids (dataset m')) /\ window_kept m m'.

(** The dataset is the same. *)
Definition same_dataset (m m' : t) : Prop := dataset m' = dataset m.

(** A run of merges: [_addMediaSource] on each answer in turn, each with
    the camera it was asked for. *)
Definition merge_all
  (contentCallback tooltipCallback : option (Source.t -> string))
  (answers : list (string * Source.t)) (m : t) : t :=
  fold_left
    (fun acc answer =>
       _addMediaSource contentCallback tooltipCallback (fst answer)
         (snd answer) acc)
    answers m.

(** The messages of the queries that rejected, in the order they settled. *)
Fixpoint rejections (arrivals : list (Pending * Settled Source.t))
  : list string :=
  match arrivals with
  | [] => []
  | (_, resolved _) :: rest => rejections rest
  | (_, rejected _ message) :: rest => message :: rejections rest
  end.

(** The answers of the queries that resolved, in the order they settled,
    each with the camera of its query. *)
Fixpoint resolutions (arrivals : list (Pending * Settled Source.t))
  : list (string * Source.t) :=
  match arrivals with
  | [] => []
  | (p, resolved source) :: rest => (fst p, source) :: resolutions rest
  | (_, rejected _ _) :: rest => resolutions rest
  end.

(** *** Runs of several fetches and shapes of stored items *)

(** A call of [_fetchEvents]: the clock it is made at and the range it
    asks for. *)
Record FetchRequest : Type := {
  request_now : Z;
  request_start : Z;
  request_end : Z;
}.

(** The manager after the synchronous part of [_fetchEvents] for each
    request in turn. *)
Definition fetch_all (cameras : CameraMap) (media : TimelineMediaType)
  (requested : list FetchRequest) (m : t) : t :=
  fold_left
    (fun acc r =>
       state_of
         (_fetchEvents_sync (request_now r) cameras media
            (Some (request_start r)) (Some (request_end r)) acc))
    requested m.

(** A camera the fan-out issues queries for: it has a configuration with
    base parameters. *)
Definition queryable (cameras : CameraMap) (camera : string) : bool :=
  match Map_get cameras camera with
  | Some cameraConfig =>
      JS.truthy_opt (getBrowseMediaQueryParametersBase cameraConfig)
  | None => false
  end.

(** The media kinds the fan-out walks for a filter. *)
Definition kinds (media : TimelineMediaType) : list TimelineMediaType :=
  match media with
  | all => [clips; snapshots]
  | _ => [media]
  end.

(** A media entry of the given content type that carries the event of
    the item. *)
Definition media_of_item (content_type : string) (i : Item.t)
  (s : Source.t) : Prop :=
  Source.media_content_type s = content_type
  /\ Source.event_id s = Some (Item.id i).

(** The shape of the items [_addMediaSource] stores: a type is set, a
    range has an end, the clip is a video entry and the snapshot an image
    entry of the item's own event. *)
Definition well_formed (i : Item.t) : Prop :=
  Item.type i <> None
  /\ (Item.type i = Some range -> Item.end_ i <> None)
  /\ (forall c, Item.clip i = Some c -> media_of_item "video" i c)
  /\ (forall s, Item.snapshot i = Some s -> media_of_item "image" i s).

(** The keys of an item a merge never rewrites once the item is stored. *)
Definition first_stored (i : Item.t)
  : string * string * string * string * Z * FrigateEvent.t :=
  (Item.id i, Item.group i, Item.content i, Item.title i, Item.start i,
   Item.event i).

End Manager.
End TimelineEventManager.

(** ** The vis-timeline widget, as the element drives it *)

Module Timeline.

(** The displayed window and the selected item ids. *)
Record t : Type := mk {
  window : TimelineWindow.t;
  selection : list string;
}.

End Timeline.

(** The argument of the [rangechanged] handler. *)
Module RangeChanged.

Record t : Type := mk {
  start : Z;
  end_ : Z;
  byUser : bool;
}.

End RangeChanged.

(** [PropertyValues]: which properties changed before [updated]. *)
Module Changed.

Record t : Type := mk {
  cameras : bool;
  timelineConfig : bool;
  view : bool;
}.

End Changed.

(** ** [class FrigateCardTimelineCore] *)

Module FrigateCardTimelineCore.
Section Core.
Context `{Collaborators}.

(** The fields of the element.  [hass] and [_refTimeline] are objects the
    code only tests for presence. *)
Record t : Type := mk {
  hass : bool;
  view : option View.t;
  cameras : option TimelineEventManager.CameraMap;
  timelineConfig : option TimelineConfig;
  _events : TimelineEventManager.t;
  _refTimeline : bool;
  _thumbnails : option Source.t;
  _timeline : option Timeline.t;
}.

Definition set_events (m : TimelineEventManager.t) (c : t) : t :=
  mk (hass c) (view c) (cameras c) (timelineConfig c) m (_refTimeline c)
     (_thumbnails c) (_timeline c).

Definition set_thumbnails (th : option Source.t) (c : t) : t :=
  mk (hass c) (view c) (cameras c) (timelineConfig c) (_events c)
     (_refTimeline c) th (_timeline c).

Definition set_timeline (tl : option Timeline.t) (c : t) : t :=
  mk (hass c) (view c) (cameras c) (timelineConfig c) (_events c)
     (_refTimeline c) (_thumbnails c) tl.

(** Code of the manager run on [this._events]. *)
Definition on_events {A : Type} (code : M TimelineEventManager.t A) : M t A :=
  zoom _events set_events code.

Definition quote : string := String (Ascii.ascii_of_nat 34) EmptyString.

Definition newline : string := String (Ascii.ascii_of_nat 10) EmptyString.

(** A template literal: its pieces in order. *)
Definition template (pieces : list string) : string :=
  fold_right String.append EmptyString pieces.

(** [_getTooltip(source)].  A [null] thumbnail prints as [null]. *)
Definition _getTooltip (config : option TimelineConfig) (source : Source.t)
  : string :=
  let thumbnailSizeAttr :=
    match config with
    | Some cfg =>
        template ["thumbnail_size="; quote; controls_thumbnails_size cfg;
                  quote]%string
    | None => EmptyString
    end in
  let eventAttr :=
    match Source.frigate source with
    | Some event => template ["event='"; JSON_stringify event; "'"]%string
    | None => EmptyString
    end in
  template
    [newline; "      <frigate-card-thumbnail"; newline;
     "        details"; newline;
     "        thumbnail="; quote;
     match Source.thumbnail source with
     | Some th => th
     | None => "null"
     end; quote; newline;
     "        label="; quote; Source.title source; quote; newline;
     "        "; eventAttr; newline;
     "        "; thumbnailSizeAttr; newline;
     "      >"; newline;
     "      </frigate-card-thumbnail>"]%string.

(** The callbacks the element gives its manager: no [contentCallback],
    and [_getTooltip] bound to the element. *)
Definition contentCallback : option (Source.t -> string) := None.

Definition tooltipCallback (c : t) : option (Source.t -> string) :=
  Some (_getTooltip (timelineConfig c)).

(** [this.view?.evolve(changes).dispatchChangeEvent(this)]. *)
Definition evolve_and_dispatch (changes : ViewEvolveParameters) : M t unit :=
  c <- get ;;
  match view c with
  | Some v => emit (dispatchChangeEvent v changes)
  | None => ret tt
  end.

(** A method of [this._timeline] called without a guard: a [TypeError]
    when the widget is gone. *)
Definition with_timeline {A : Type} (method : Timeline.t -> M t A) : M t A :=
  c <- get ;;
  match _timeline c with
  | Some timeline => method timeline
  | None => throw "TypeError: this._timeline is undefined"
  end.

(** [this._timeline.setWindow(start, end)]. *)
Definition setWindow (start end_ : Z) : M t unit :=
  with_timeline
    (fun timeline =>
       modify (set_timeline
                 (Some (Timeline.mk (TimelineWindow.mk start end_)
                          (Timeline.selection timeline)))) ;;
       emit (timeline_setWindow start end_)).

(** [this._timeline.setSelection(ids, { focus: false, ... })]. *)
Definition setSelection (ids : list string) : M t unit :=
  with_timeline
    (fun timeline =>
       modify (set_timeline (Some (Timeline.mk (Timeline.window timeline) ids))) ;;
       emit (timeline_setSelection ids)).

(** [['all', kind].includes(media)]. *)
Definition wants (kind : TimelineMediaType) (media : TimelineMediaType)
  : bool :=
  TimelineMediaType_eqb media all || TimelineMediaType_eqb media kind.

(** The media [_generateThumbnails] adds for one item: the clip when
    clips are wanted and it is true media, else the snapshot under the
    same conditions. *)
Definition thumbnail_of_item (cfg : TimelineConfig) (item : Item.t)
  : option Source.t :=
  let from_snapshot :=
    match Item.snapshot item with
    | Some s =>
        if wants snapshots (media cfg) && isTrueMedia s then Some s else None
    | None => None
    end in
  match Item.clip item with
  | Some c =>
      if wants clips (media cfg) && isTrueMedia c then Some c
      else from_snapshot
  | None => from_snapshot
  end.

(** The [forEach] of [_generateThumbnails]: [children] and [childIndex]
    as the loop leaves them. *)
Fixpoint project (config : option TimelineConfig) (selected : list string)
  (items : list Item.t) (children : list Source.t) (childIndex : Z)
  : list Source.t * Z :=
  match items with
  | [] => (children, childIndex)
  | item :: rest =>
      match config with
      | None => project config selected rest children childIndex
      | Some cfg =>
          match thumbnail_of_item cfg item with
          | Some source =>
              let children' := children ++ [source] in
              let childIndex' :=
                if JS.includes selected (FrigateEvent.id (Item.event item))
                then Z.of_nat (List.length children') - 1
                else childIndex in
              project config selected rest children' childIndex'
          | None => project config selected rest children childIndex
          end
      end
  end.

(** The playlist object [target] of [_generateThumbnails]. *)
Definition playlist (children : list Source.t) : Source.t :=
  Source.mk "Timeline events" MEDIA_CLASS_PLAYLIST MEDIA_TYPE_PLAYLIST
    EmptyString false true (Some MEDIA_CLASS_PLAYLIST) None (Some children)
    None.

(** [isEqual(target, this._thumbnails)]. *)
Definition isEqual_thumbnails (target : Source.t) (old : option Source.t)
  : bool :=
  match old with
  | Some th => isEqual_source target th
  | None => false
  end.

(** The children and the focus index [_generateThumbnails] derives from
    the element as it is, given its widget. *)
Definition projection (c : t) (timeline : Timeline.t) : list Source.t * Z :=
  project (timelineConfig c) (Timeline.selection timeline)
    (DataSet.get_order_start (TimelineEventManager.dataset (_events c)))
    [] (-1).

(** [_generateThumbnails()]. *)
Definition _generateThumbnails : M t unit :=
  c <- get ;;
  match _timeline c with
  | None => ret tt
  | Some timeline =>
      let '(children, childIndex) := projection c timeline in
      match children with
      | [] => ret tt
      | _ :: _ =>
          let target := playlist children in
          if negb (isEqual_thumbnails target (_thumbnails c))
          then
            modify (set_thumbnails (Some target)) ;;
            evolve_and_dispatch
              {| evolve_target := Some target;
                 evolve_childIndex :=
                   Some (if childIndex <? 0 then None else Some childIndex);
                 evolve_context := None |}
          else ret tt
      end
  end.

(** [_timelineRangeHandler(properties)], a synchronous handler.  Its
    result is the promise of [fetchEventsIfNecessary] it leaves behind,
    if it made the call. *)
Definition _timelineRangeHandler (now : Z) (properties : RangeChanged.t)
  : M t (option (option (list TimelineEventManager.Pending))) :=
  if negb (RangeChanged.byUser properties) then ret None
  else
    c <- get ;;
    emit (console_info
            (log_range_changed (RangeChanged.start properties)
               (RangeChanged.end_ properties)
               (DataSet.length (TimelineEventManager.dataset (_events c))))) ;;
    match hass c, cameras c, _timeline c, timelineConfig c with
    | true, Some cams, Some timeline, Some cfg =>
        promise <-
          on_events
            (TimelineEventManager.fetchEventsIfNecessary_sync now cams
               (media cfg) (RangeChanged.start properties)
               (RangeChanged.end_ properties)) ;;
        evolve_and_dispatch
          {| evolve_target := None;
             evolve_childIndex := None;
             evolve_context :=
               Some {| window := Some (Timeline.window timeline) |} |} ;;
        ret (Some promise)
    | _, _, _, _ => ret None
    end.

(** The [.then] callback of [_timelineRangeHandler], run when the
    promise it left behind settles. *)
Definition _timelineRangeHandler_then
  (promise : option (list TimelineEventManager.Pending))
  (arrivals : list (TimelineEventManager.Pending * Settled Source.t))
  : M t unit :=
  c <- get ;;
  fetched <-
    on_events
      (TimelineEventManager.fetchEventsIfNecessary_resume contentCallback
         (tooltipCallback c) promise arrivals) ;;
  if (fetched : bool) then _generateThumbnails else ret tt.

(** [_timelineSelectHandler(data)], on [data.items]. *)
Definition _timelineSelectHandler (items : list string) : M t unit :=
  c <- get ;;
  match _thumbnails c with
  | None => ret tt
  | Some thumbnails =>
      match Source.children thumbnails with
      | None => ret tt
      | Some children =>
          let childIndex : option Z :=
            match items with
            | first :: _ =>
                Some (JS.findIndex
                        (fun child =>
                           match Source.event_id child with
                           | Some i => String.eqb i first
                           | None => false
                           end)
                        children)
            | [] => None
            end in
          evolve_and_dispatch
            {| evolve_target := Some thumbnails;
               evolve_childIndex := Some childIndex;
               evolve_context := None |} ;;
          match childIndex with
          | Some i =>
              if i >=? 0
              then emit (dispatchFrigateCardEvent "thumbnails:open")
              else emit (dispatchFrigateCardEvent "thumbnails:close")
          | None => emit (dispatchFrigateCardEvent "thumbnails:close")
          end
      end
  end.

Definition one_hour : Z := 3600 * 1000.

(** date-fns [fromUnixTime]. *)
Definition fromUnixTime (seconds : Z) : Z := seconds * 1000.

(** [_getStartEndFromEvent(event)]; [sub] and [add] of one hour move a
    date by [one_hour] milliseconds. *)
Definition _getStartEndFromEvent (event : FrigateEvent.t) : Z * Z :=
  let start := fromUnixTime (FrigateEvent.start_time event) - one_hour in
  let end_ :=
    match FrigateEvent.end_time event with
    | Some e =>
        if JS.truthy_number e then fromUnixTime e + one_hour
        else start + one_hour
    | None => start + one_hour
    end in
  (start, end_).

(** [_getStartEnd()]; [now] is its [new Date()]. *)
Definition _getStartEnd (c : t) (now : Z) : Z * Z :=
  match View.target_event (view c) with
  | Some event => _getStartEndFromEvent event
  | None =>
      let end_ := now in
      let start := end_ - one_hour in
      (start, end_)
  end.

(** [_isClustering()]. *)
Definition _isClustering (c : t) : bool :=
  match timelineConfig c with
  | Some cfg =>
      match clustering_threshold cfg with
      | Some n => JS.truthy_number n && (n >? 0)
      | None => false
      end
  | None => false
  end.

(** The [clusterCriteria] option of [_getOptions], called by the widget
    on two items. *)
Definition clusterCriteria (c : t) (first second : Item.t) : bool :=
  let focused := option_map FrigateEvent.id (View.media_event (view c)) in
  JS.truthy_string (Item.id first)
  && negb (JS.strict_eq_opt (Item.id first) focused)
  && JS.truthy_string (Item.id second)
  && negb (JS.strict_eq_opt (Item.id second) focused)
  && String.eqb (FrigateEvent.label (Item.event first))
       (FrigateEvent.label (Item.event second)).

(** The options [_getOptions()] computes, where it returns any:
    whether to cluster, and the initial window. *)
Definition _getOptions (c : t) (now : Z) : option (bool * (Z * Z)) :=
  match timelineConfig c with
  | None => None
  | Some _ => Some (_isClustering c, _getStartEnd c now)
  end.

(** [shouldUpdate()]. *)
Definition shouldUpdate (c : t) : bool :=
  hass c
  && match cameras c with
     | Some cams => (0 <? List.length cams)%nat
     | None => false
     end.

(** What [_updateTimelineFromView] holds across its [await]: the focused
    event, the desired window and the promise awaited. *)
Record Suspended : Type := {
  suspended_event : option FrigateEvent.t;
  suspended_windowStart : Z;
  suspended_windowEnd : Z;
  suspended_promise : option (list TimelineEventManager.Pending);
}.

(** [_updateTimelineFromView()] up to its [await]. *)
Definition _updateTimelineFromView_sync (now : Z) : M t (option Suspended) :=
  c <- get ;;
  match hass c, cameras c, view c, _timeline c, timelineConfig c with
  | true, Some cams, Some _, Some _, Some cfg =>
      let event := View.media_event (view c) in
      let '(windowStart, windowEnd) :=
        match event with
        | Some ev => _getStartEndFromEvent ev
        | None => _getStartEnd c now
        end in
      promise <-
        on_events
          (TimelineEventManager.fetchEventsIfNecessary_sync now cams
             (media cfg) windowStart windowEnd) ;;
      ret (Some {| suspended_event := event;
                   suspended_windowStart := windowStart;
                   suspended_windowEnd := windowEnd;
                   suspended_promise := promise |})
  | _, _, _, _, _ => ret None
  end.

(** Whether the event, by its raw timestamps, lies outside the window:
    the condition of the [else if (event)] branch. *)
Definition event_outside (event : FrigateEvent.t) (w : TimelineWindow.t)
  : bool :=
  let eventStart := FrigateEvent.start_time event * 1000 in
  let eventEnd : option Z :=
    match FrigateEvent.end_time event with
    | Some e => if JS.truthy_number e then Some (e * 1000) else None
    | None => None
    end in
  (eventStart <? TimelineWindow.start w)
  || (eventStart >? TimelineWindow.end_ w)
  || match eventEnd with
     | Some e => (e <? TimelineWindow.start w) || (e >? TimelineWindow.end_ w)
     | None => false
     end.

(** The end of [_updateTimelineFromView], from [const context] on: the
    placement of the widget's window. *)
Definition place_window (event : option FrigateEvent.t)
  (windowStart windowEnd : Z) : M t unit :=
  c <- get ;;
  match view c with
  | None => throw "TypeError: this.view is undefined"
  | Some v =>
      with_timeline
        (fun timeline =>
           let timelineWindow := Timeline.window timeline in
           match View.context_window v with
           | Some w =>
               emit (console_info (log_window_from_context w)) ;;
               if negb (TimelineWindow.isEqual w timelineWindow)
               then setWindow (TimelineWindow.start w) (TimelineWindow.end_ w)
               else ret tt
           | None =>
               match event with
               | Some ev =>
                   (if event_outside ev timelineWindow
                    then
                      emit (console_info
                              (log_window_from_event windowStart windowEnd)) ;;
                      setWindow windowStart windowEnd
                    else ret tt) ;;
                   c <- get ;;
                   if _isClustering c
                   then
                     match DataSet.get
                             (TimelineEventManager.dataset (_events c))
                             (FrigateEvent.id ev) with
                     | Some item =>
                         on_events
                           (modify (TimelineEventManager.updateOnly item))
                     | None => ret tt
                     end
                   else ret tt
               | None =>
                   emit (console_info
                           (log_window_from_live windowStart windowEnd)) ;;
                   setWindow windowStart windowEnd
               end
           end)
  end.

(** The rest of [_updateTimelineFromView] once the awaited promise has
    settled. *)
Definition _updateTimelineFromView_resume (k : Suspended)
  (arrivals : list (TimelineEventManager.Pending * Settled Source.t))
  : M t unit :=
  c <- get ;;
  fetched <-
    on_events
      (TimelineEventManager.fetchEventsIfNecessary_resume contentCallback
         (tooltipCallback c) (suspended_promise k) arrivals) ;;
  (if (fetched : bool) then _generateThumbnails else ret tt) ;;
  setSelection
    (match suspended_event k with
     | Some ev => [FrigateEvent.id ev]
     | None => []
     end) ;;
  place_window (suspended_event k) (suspended_windowStart k)
    (suspended_windowEnd k).

(** The first step of [updated]: a change of cameras clears the events
    and destroys the widget. *)
Definition updated_cameras (changed : Changed.t) : M t unit :=
  if Changed.cameras changed
  then
    on_events (modify TimelineEventManager.clear) ;;
    c <- get ;;
    (match _timeline c with
     | Some _ => emit timeline_destroy
     | None => ret tt
     end) ;;
    modify (set_timeline None)
  else ret tt.

(** The second step of [updated]: a change of configuration creates the
    widget when there is none, and wires its two handlers. *)
Definition updated_timelineConfig (now : Z) (changed : Changed.t) : M t unit :=
  c <- get ;;
  match Changed.timelineConfig changed, _refTimeline c, _getOptions c now with
  | true, true, Some (clustering, (start, end_)) =>
      match _timeline c with
      | Some _ => ret tt
      | None =>
          modify (set_timeline
                    (Some (Timeline.mk (TimelineWindow.mk start end_) []))) ;;
          emit (timeline_new start end_ clustering) ;;
          emit (timeline_on "select") ;;
          emit (timeline_on "rangechanged")
      end
  | _, _, _ => ret tt
  end.

(** The third step of [updated]: a change of view starts
    [_updateTimelineFromView], which is left suspended at its [await]. *)
Definition updated_view (now : Z) (changed : Changed.t)
  : M t (option Suspended) :=
  if Changed.view changed
  then _updateTimelineFromView_sync now
  else ret None.

(** [updated(changedProperties)].  Its result is what the call of
    [_updateTimelineFromView] it may make leaves suspended. *)
Definition updated (now : Z) (changed : Changed.t) : M t (option Suspended) :=
  updated_cameras changed ;;
  updated_timelineConfig now changed ;;
  updated_view now changed.

(** *** Readings of the playlist *)

(** The test of [_timelineSelectHandler] on a child of the playlist:
    [child.frigate?.event.id === id]. *)
Definition is_media_of (id : string) (child : Source.t) : bool :=
  match Source.event_id child with
  | Some i => String.eqb i id
  | None => false
  end.

(** The media the projection adds for a list of items, in their order. *)
Definition media_list (cfg : TimelineConfig) (items : list Item.t)
  : list Source.t :=
  flat_map
    (fun item =>
       match thumbnail_of_item cfg item with
       | Some source => [source]
       | None => []
       end)
    items.

(** The focus index through the loop: it is [-1] or the position of the
    media of a selected item. *)
Definition focus_ok (cfg : TimelineConfig) (selected : list string)
  (items : list Item.t) (children : list Source.t) (childIndex : Z) : Prop :=
  childIndex = -1
  \/ (0 <= childIndex < Z.of_nat (List.length children)
      /\ exists item source,
           In item items
           /\ JS.includes selected (FrigateEvent.id (Item.event item)) = true
           /\ thumbnail_of_item cfg item = Some source
           /\ nth_error children (Z.to_nat childIndex) = Some source).

(** Two items in ascending order of start. *)
Definition starts_no_later (a b : Item.t) : Prop := Item.start a <= Item.start b.

(** *** Readings of the trace *)

(** The effects that create, wire or destroy the widget. *)
Definition widget_lifecycle (e : Effect) : bool :=
  match e with
  | timeline_destroy | timeline_new _ _ _ | timeline_on _ => true
  | _ => false
  end.

(** The queries for media. *)
Definition is_query (e : Effect) : bool :=
  match e with
  | browseMediaQuery _ _ => true
  | _ => false
  end.

(** *** Relations between two states of the element *)

(** The relation [R] between the managers of two states. *)
Definition on_manager (R : TimelineEventManager.t -> TimelineEventManager.t -> Prop)
  (c c' : t) : Prop :=
  R (_events c) (_events c').

End Core.
End FrigateCardTimelineCore.

(** ** Concrete collaborators and scenarios

    An instance of the collaborators and the concrete states the
    scenarios of the specification run on. *)

Module Scenario.

(** A camera configuration is its camera name, which is also its base
    query; an unnamed camera has no base query.  True media is media that
    cannot be expanded. *)
#[global] Instance demo : Collaborators := {|
  CameraConfig := string;
  BrowseMediaQueryParametersBase := string;
  getBrowseMediaQueryParametersBase :=
    fun name => if JS.truthy_string name then Some name else None;
  isTrueMedia := fun s => negb (Source.can_expand s);
  MEDIA_CLASS_PLAYLIST := "playlist";
  MEDIA_TYPE_PLAYLIST := "playlist";
  JSON_stringify := FrigateEvent.id;
|}.

(** A time of day as a date, in milliseconds. *)
Definition clock (h m s : Z) : Z := ((h * 60 + m) * 60 + s) * 1000.

Definition cams : TimelineEventManager.CameraMap :=
  [("front", "front"); ("back", "back")]%string.

(** The manager after the window 10:00 to 11:00 was requested and fetched
    at 10:00:05. *)
Definition fetched : TimelineEventManager.t :=
  snd (fst (TimelineEventManager.fetchEventsIfNecessary_sync
              (clock 10 0 5) cams all (clock 10 0 0) (clock 11 0 0)
              TimelineEventManager.new)).

(** An event, and the two media entries a query may return for it. *)
Definition event1 : FrigateEvent.t :=
  FrigateEvent.mk "event-1" "person" 36900 (Some 37200).

Definition media_of (content_type : string) (event : FrigateEvent.t)
  : Source.t :=
  Source.mk (FrigateEvent.id event) "video" content_type
    (FrigateEvent.id event) true false None None None (Some event).

Definition clip1 : Source.t := media_of "video" event1.

Definition snapshot1 : Source.t := media_of "image" event1.

(** The answer of a query: a folder of media entries. *)
Definition folder (entries : list Source.t) : Source.t :=
  Source.mk "folder" "directory" "playlist" EmptyString false true None None
    (Some entries) None.

(** The manager holding [event1] with its snapshot only. *)
Definition snapshot_only : TimelineEventManager.t :=
  TimelineEventManager._addMediaSource None None "front" (folder [snapshot1])
    fetched.

(** The queries the fetch of [fetched] left in flight. *)
Definition in_flight : list TimelineEventManager.Pending :=
  match outcome_of
          (TimelineEventManager.fetchEventsIfNecessary_sync
             (clock 10 0 5) cams all (clock 10 0 0) (clock 11 0 0)
             TimelineEventManager.new) with
  | Return (Some pending) => pending
  | _ => []
  end.

(** The camera at the back is offline: its queries reject; the camera at
    the front answers with its clip or its snapshot. *)
Definition answer (p : TimelineEventManager.Pending) : Settled Source.t :=
  if String.eqb (fst p) "front"
  then resolved
         (folder [match mediaType (snd p) with
                  | snapshots => snapshot1
                  | _ => clip1
                  end])
  else rejected _ "camera offline".

(** The queries settle in the reverse of the order they were issued. *)
Definition arrivals : list (TimelineEventManager.Pending * Settled Source.t) :=
  map (fun p => (p, answer p)) (rev in_flight).

(** Three more events and the items of all four. *)
Definition event2 : FrigateEvent.t :=
  FrigateEvent.mk "event-2" "person" 37000 None.

Definition event3 : FrigateEvent.t :=
  FrigateEvent.mk "event-3" "person" 37100 (Some 37160).

Definition event4 : FrigateEvent.t :=
  FrigateEvent.mk "event-4" "car" 37100 (Some 37160).

Definition item_of (event : FrigateEvent.t) : Item.t :=
  Item.mk (FrigateEvent.id event) "front" EmptyString EmptyString
    (FrigateEvent.start_time event * 1000) None (Some point) event None None.

(** Views: the live view, and a view whose media is the clip of
    [event1]. *)
Definition view_live : View.t := View.mk None None None.

Definition view_event1 : View.t :=
  View.mk (Some (folder [clip1])) (Some clip1) None.

(** The same view, with a window persisted by an earlier pan. *)
Definition persisted : TimelineWindow.t :=
  TimelineWindow.mk (clock 7 0 0) (clock 8 0 0).

Definition view_event1_panned : View.t :=
  View.mk (Some (folder [clip1])) (Some clip1)
    (Some {| window := Some persisted |}).

Definition config_clips : TimelineConfig :=
  {| media := clips;
     clustering_threshold := Some 3;
     controls_thumbnails_size := "100" |}.

(** The widget, showing 9:00 to 10:00 with nothing selected. *)
Definition widget : Timeline.t :=
  Timeline.mk (TimelineWindow.mk (clock 9 0 0) (clock 10 0 0)) [].

(** The element over [snapshot_only], filtering on clips, whose last
    playlist held the clip of [event1]. *)
Definition core : FrigateCardTimelineCore.t :=
  FrigateCardTimelineCore.mk true (Some view_live) (Some cams)
    (Some config_clips) snapshot_only true
    (Some (FrigateCardTimelineCore.playlist [clip1])) (Some widget).

(** The same element with another view. *)
Definition core_with (v : View.t) : FrigateCardTimelineCore.t :=
  FrigateCardTimelineCore.mk true (Some v) (Some cams)
    (Some config_clips) snapshot_only true
    (Some (FrigateCardTimelineCore.playlist [clip1])) (Some widget).

(** The same element once [hass] is gone. *)
Definition core_without_hass : FrigateCardTimelineCore.t :=
  FrigateCardTimelineCore.mk false (Some view_live) (Some cams)
    (Some config_clips) snapshot_only true
    (Some (FrigateCardTimelineCore.playlist [clip1])) (Some widget).

(** The same element with the filter on every kind of media. *)
Definition config_all : TimelineConfig :=
  {| media := all;
     clustering_threshold := Some 3;
     controls_thumbnails_size := "100" |}.

Definition core_all : FrigateCardTimelineCore.t :=
  FrigateCardTimelineCore.mk true (Some view_live) (Some cams)
    (Some config_all) snapshot_only true
    (Some (FrigateCardTimelineCore.playlist [clip1])) (Some widget).

(** A pan by the user to 8:00 to 9:00. *)
Definition pan : RangeChanged.t :=
  RangeChanged.mk (clock 8 0 0) (clock 9 0 0) true.

(** An element that never generated a playlist. *)
Definition core_fresh : FrigateCardTimelineCore.t :=
  FrigateCardTimelineCore.mk true (Some view_live) (Some cams)
    (Some config_clips) TimelineEventManager.new true None (Some widget).

(** An answer that carries no media: a folder holding an empty folder. *)
Definition empty_answer : Source.t := folder [folder []].

(** The manager after one answer with the clip of [event3], the clip of
    [event1] and the snapshot of [event2], in that order. *)
Definition busy : TimelineEventManager.t :=
  TimelineEventManager._addMediaSource None None "front"
    (folder [media_of "video" event3; media_of "video" event1;
             media_of "image" event2])
    fetched.

(** The widget showing 10:00 to 11:00 with [event2] selected, and the
    element over [busy] with the filter on every kind of media. *)
Definition widget_on_event2 : Timeline.t :=
  Timeline.mk (TimelineWindow.mk (clock 10 0 0) (clock 11 0 0)) ["event-2"%string].

Definition core_busy : FrigateCardTimelineCore.t :=
  FrigateCardTimelineCore.mk true (Some view_live) (Some cams)
    (Some config_all) busy true None (Some widget_on_event2).

(** A pan by the user inside the fetched window. *)
Definition covered_pan : RangeChanged.t :=
  RangeChanged.mk (clock 10 10 0) (clock 10 50 0) true.

(** The element after its widget was destroyed, and an update from the
    live view left suspended on the queries in flight. *)
Definition core_without_widget : FrigateCardTimelineCore.t :=
  FrigateCardTimelineCore.set_timeline None core.

Definition suspended_live : FrigateCardTimelineCore.Suspended :=
  {| FrigateCardTimelineCore.suspended_event := None;
     FrigateCardTimelineCore.suspended_windowStart := clock 9 0 7;
     FrigateCardTimelineCore.suspended_windowEnd := clock 10 0 7;
     FrigateCardTimelineCore.suspended_promise := Some in_flight |}.

End Scenario.

(** * Properties *)

(** Finish a goal on the run of monadic code: evaluate it and drop the
    empty traces. *)
Ltac run_done := cbn; rewrite ?app_nil_r; reflexivity.

(** ** Coverage *)

Module CoverageProperties.
Import TimelineEventManager.

Lemma gtb_ltb_shift (a b c : Z) : (a - b >? c) = (b <? a - c).
Proof.
  destruct (Z.gtb_spec (a - b) c), (Z.ltb_spec b (a - c)); auto; lia.
Qed.

(** The code and the eight steps agree on every state and query. *)
Lemma hasCoverage_refines_spec (m : t) (now start : Z) (end_ : option Z) :
  hasCoverage m now start end_ = hasCoverage_spec m now start end_.
Proof.
  unfold hasCoverage, hasCoverage_spec, never_fetched, fetch_is_stale,
    starts_before_earliest, ends_before_latest, end_is_old,
    end_within_threshold_of_latest, has_threshold, threshold_ms.
  destruct (_dateFetch m) as [f|], (_dateStart m) as [s|], (_dateEnd m) as [e|];
    cbn; try reflexivity.
  rewrite gtb_ltb_shift.
  destruct (JS.truthy_number (_maxAgeSeconds m)); cbn.
  - destruct (f <? now - _maxAgeSeconds m * 1000); cbn; [reflexivity|].
    destruct (start <? s); cbn; [reflexivity|].
    destruct end_ as [q|]; cbn; [|reflexivity].
    destruct (q <? e); cbn; [reflexivity|].
    rewrite gtb_ltb_shift. reflexivity.
  - destruct (start <? s); cbn; [reflexivity|].
    destruct end_ as [q|]; cbn; [|reflexivity].
    destruct (q <? e); reflexivity.
Qed.

(** C1.  [hasCoverage(start, end?)] is the eight-step decision procedure
    of the specification: on every state of the Coverage Window, every
    clock and every query it returns the verdict of the first step that
    applies (never fetched: no; last fetch older than the threshold: no;
    start before the stored earliest date: no; no end given: yes; end
    strictly before the stored latest date: yes; no threshold: no; end
    older than now minus the threshold: no; otherwise yes exactly when end
    minus the threshold is at or before the stored latest date).  In the
    scenario (window 10:00 to 11:00 fetched at 10:00:05, threshold 10 s)
    the check at 10:00:12 for 10:15 to 10:45 answers yes and the check at
    10:00:20 answers no. *)
Theorem hasCoverage_decision_procedure :
  (forall (m : t) (now start : Z) (end_ : option Z),
      hasCoverage m now start end_ = hasCoverage_spec m now start end_)
  /\ Scenario.fetched
     = mk DataSet.empty (Some (Scenario.clock 10 0 0))
         (Some (Scenario.clock 11 0 0)) (Some (Scenario.clock 10 0 5)) 10
  /\ hasCoverage Scenario.fetched (Scenario.clock 10 0 12)
       (Scenario.clock 10 15 0) (Some (Scenario.clock 10 45 0)) = true
  /\ hasCoverage Scenario.fetched (Scenario.clock 10 0 20)
       (Scenario.clock 10 15 0) (Some (Scenario.clock 10 45 0)) = false.
Proof.
  split; [exact hasCoverage_refines_spec|].
  repeat split; vm_compute; reflexivity.
Qed.

(** A query strictly inside the stored window is covered while the last
    fetch is fresh. *)
Lemma hasCoverage_inside_fresh (m : t) (now start e f s d : Z) :
  _dateFetch m = Some f -> _dateStart m = Some s -> _dateEnd m = Some d ->
  now - f <= _maxAgeSeconds m * 1000 -> s <= start -> e < d ->
  hasCoverage m now start (Some e) = true.
Proof.
  intros Hf Hs Hd Hfresh Hstart Hend. unfold hasCoverage.
  rewrite Hf, Hs, Hd.
  destruct (Z.gtb_spec (now - f) (_maxAgeSeconds m * 1000)); [lia|].
  rewrite andb_false_r.
  destruct (Z.ltb_spec start s); [lia|].
  destruct (Z.ltb_spec e d); [reflexivity|lia].
Qed.

(** A query that starts before the stored earliest date is not covered,
    however fresh the fetch. *)
Lemma hasCoverage_start_too_early (m : t) (now start s : Z)
  (end_ : option Z) :
  _dateStart m = Some s -> start < s -> hasCoverage m now start end_ = false.
Proof.
  intros Hs Hlt. unfold hasCoverage. rewrite Hs.
  destruct (_dateFetch m); [|reflexivity].
  destruct (_dateEnd m); [|reflexivity].
  destruct (_ && _); [reflexivity|].
  destruct (Z.ltb_spec start s); [reflexivity|lia].
Qed.

End CoverageProperties.

(** ** The dataset: one item per event identifier *)

Module DataSetProperties.

Lemma get_Some_id (ds : DataSet.t) (i : string) (x : Item.t) :
  DataSet.get ds i = Some x -> Item.id x = i.
Proof.
  induction ds as [|a ds IH]; cbn; [discriminate|].
  destruct (String.eqb (Item.id a) i) eqn:E.
  - intros [= <-]. now apply String.eqb_eq.
  - exact IH.
Qed.

Lemma get_None_notin (ds : DataSet.t) (i : string) :
  DataSet.get ds i = None <-> ~ In i (DataSet.ids ds).
Proof.
  induction ds as [|a ds IH]; cbn; [tauto|].
  destruct (String.eqb (Item.id a) i) eqn:E.
  - apply String.eqb_eq in E. split; [discriminate|]. intros Hn. exfalso. auto.
  - apply String.eqb_neq in E. rewrite IH. tauto.
Qed.

Lemma has_In (ds : DataSet.t) (i : string) :
  DataSet.has ds i = true <-> In i (DataSet.ids ds).
Proof.
  unfold DataSet.has. destruct (DataSet.get ds i) eqn:E; cbn.
  - split; [intros _|reflexivity].
    destruct (in_dec string_dec i (DataSet.ids ds)) as [Hin|Hn]; [exact Hin|].
    apply get_None_notin in Hn. congruence.
  - split; [discriminate|]. intros Hin. apply get_None_notin in E. tauto.
Qed.

Lemma ids_updateItem (ds : DataSet.t) (upd : Item.t) :
  DataSet.ids (DataSet._updateItem ds upd) = DataSet.ids ds.
Proof.
  induction ds as [|a ds IH]; cbn; [reflexivity|].
  destruct (String.eqb (Item.id a) (Item.id upd)) eqn:E; cbn.
  - apply String.eqb_eq in E. now rewrite E.
  - unfold DataSet.ids in IH. now rewrite IH.
Qed.

Lemma get_updateItem_eq (ds : DataSet.t) (upd x : Item.t) :
  DataSet.get ds (Item.id upd) = Some x ->
  DataSet.get (DataSet._updateItem ds upd) (Item.id upd)
  = Some (DataSet.spread x upd).
Proof.
  induction ds as [|a ds IH]; cbn; [discriminate|].
  destruct (String.eqb (Item.id a) (Item.id upd)) eqn:E; cbn.
  - intros [= <-]. now rewrite String.eqb_refl.
  - rewrite E. exact IH.
Qed.

Lemma get_updateItem_ne (ds : DataSet.t) (upd : Item.t) (i : string) :
  i <> Item.id upd ->
  DataSet.get (DataSet._updateItem ds upd) i = DataSet.get ds i.
Proof.
  intros Hne. induction ds as [|a ds IH]; cbn; [reflexivity|].
  destruct (String.eqb (Item.id a) (Item.id upd)) eqn:E; cbn.
  - apply String.eqb_eq in E.
    destruct (String.eqb (Item.id upd) i) eqn:E1.
    + apply String.eqb_eq in E1. congruence.
    + rewrite E. now rewrite E1.
  - now rewrite IH.
Qed.

Lemma get_addItem_old (ds : DataSet.t) (item x : Item.t) (i : string) :
  DataSet.get ds i = Some x -> DataSet.get (DataSet._addItem ds item) i = Some x.
Proof.
  unfold DataSet._addItem. induction ds as [|a ds IH]; cbn; [discriminate|].
  destruct (String.eqb (Item.id a) i); auto.
Qed.

Lemma ids_addOrUpdate (ds : DataSet.t) (item : Item.t) :
  DataSet.ids (DataSet.addOrUpdate ds item)
  = if DataSet.has ds (Item.id item) then DataSet.ids ds
    else DataSet.ids ds ++ [Item.id item].
Proof.
  unfold DataSet.addOrUpdate. destruct (DataSet.has ds (Item.id item)).
  - apply ids_updateItem.
  - unfold DataSet._addItem, DataSet.ids. now rewrite map_app.
Qed.

Lemma NoDup_snoc (A : Type) (l : list A) (x : A) :
  NoDup l -> ~ In x l -> NoDup (l ++ [x]).
Proof.
  intros Hl Hx. induction Hl as [|a l Ha Hl IH]; cbn.
  - constructor; [tauto|constructor].
  - constructor.
    + rewrite in_app_iff. cbn. intros [H|[H|[]]]; [tauto|].
      subst. apply Hx. now left.
    + apply IH. intros H. apply Hx. now right.
Qed.

Lemma NoDup_addOrUpdate (ds : DataSet.t) (item : Item.t) :
  NoDup (DataSet.ids ds) -> NoDup (DataSet.ids (DataSet.addOrUpdate ds item)).
Proof.
  intros Hnd. rewrite ids_addOrUpdate.
  destruct (DataSet.has ds (Item.id item)) eqn:E; [exact Hnd|].
  apply NoDup_snoc; [exact Hnd|].
  intros Hin. apply has_In in Hin. congruence.
Qed.

Lemma NoDup_update (items : list Item.t) (ds : DataSet.t) :
  NoDup (DataSet.ids ds) -> NoDup (DataSet.ids (DataSet.update items ds)).
Proof.
  unfold DataSet.update. revert ds.
  induction items as [|item items IH]; cbn [fold_left]; intros ds Hnd; [exact Hnd|].
  apply IH. now apply NoDup_addOrUpdate.
Qed.

(** An update keeps every id where it is and appends the new ones. *)
Lemma ids_update_extends (items : list Item.t) (ds : DataSet.t) :
  exists fresh,
    DataSet.ids (DataSet.update items ds) = DataSet.ids ds ++ fresh
    /\ forall i, In i fresh -> ~ In i (DataSet.ids ds).
Proof.
  unfold DataSet.update. revert ds.
  induction items as [|item items IH]; cbn [fold_left]; intros ds.
  - exists []. split; [now rewrite app_nil_r|intros i []].
  - destruct (IH (DataSet.addOrUpdate ds item)) as (fresh & Hids & Hfresh).
    rewrite ids_addOrUpdate in Hids, Hfresh.
    destruct (DataSet.has ds (Item.id item)) eqn:E.
    + exists fresh. split; assumption.
    + exists (Item.id item :: fresh). split.
      * rewrite Hids, <- app_assoc. reflexivity.
      * intros i [<-|Hin].
        -- intros Hin. apply has_In in Hin. congruence.
        -- intros Hds. apply (Hfresh i Hin). apply in_or_app. now left.
Qed.

Lemma ids_update_present (items : list Item.t) (ds : DataSet.t) :
  (forall item, In item items -> In (Item.id item) (DataSet.ids ds)) ->
  DataSet.ids (DataSet.update items ds) = DataSet.ids ds.
Proof.
  unfold DataSet.update. revert ds.
  induction items as [|item items IH]; cbn [fold_left]; intros ds Hall; [reflexivity|].
  assert (Hids : DataSet.ids (DataSet.addOrUpdate ds item) = DataSet.ids ds).
  { rewrite ids_addOrUpdate.
    assert (Hhas : DataSet.has ds (Item.id item) = true)
      by (apply has_In, Hall; now left).
    now rewrite Hhas. }
  rewrite IH; [exact Hids|].
  intros it Hin. rewrite Hids. apply Hall. now right.
Qed.

Lemma ids_update_contains (items : list Item.t) (ds : DataSet.t) (item : Item.t) :
  In item items -> In (Item.id item) (DataSet.ids (DataSet.update items ds)).
Proof.
  unfold DataSet.update. revert ds.
  induction items as [|a items IH]; cbn [fold_left]; intros ds; [intros []|].
  intros [Heq|Hin]; [subst a|now apply IH].
  destruct (ids_update_extends items (DataSet.addOrUpdate ds item))
    as (fresh & Hids & _).
  unfold DataSet.update in Hids. rewrite Hids. apply in_or_app. left.
  rewrite ids_addOrUpdate.
  destruct (DataSet.has ds (Item.id item)) eqn:E.
  - now apply has_In.
  - apply in_or_app. right. now left.
Qed.

Lemma get_In (ds : DataSet.t) (i : string) (x : Item.t) :
  DataSet.get ds i = Some x -> In x ds.
Proof.
  induction ds as [|a ds IH]; cbn; [discriminate|].
  destruct (String.eqb (Item.id a) i); [intros [= <-]; now left|].
  intros Hget. right. now apply IH.
Qed.

(** Items that carry the identifier of their event as their id stay so
    under an update by such items. *)
Lemma spread_of_its_event (old upd : Item.t) :
  item_of_its_event upd -> item_of_its_event (DataSet.spread old upd).
Proof. unfold item_of_its_event. cbn. auto. Qed.

Lemma addOrUpdate_of_its_event (ds : DataSet.t) (item : Item.t) :
  Forall item_of_its_event ds -> item_of_its_event item ->
  Forall item_of_its_event (DataSet.addOrUpdate ds item).
Proof.
  intros Hds Hitem. unfold DataSet.addOrUpdate.
  destruct (DataSet.has ds (Item.id item)).
  - induction Hds as [|a ds Ha Hds IH]; cbn; [constructor|].
    destruct (String.eqb (Item.id a) (Item.id item)).
    + constructor; [now apply spread_of_its_event|exact Hds].
    + constructor; [exact Ha|exact IH].
  - unfold DataSet._addItem. apply Forall_app. split; [exact Hds|].
    now constructor.
Qed.

Lemma update_of_its_event (items : list Item.t) (ds : DataSet.t) :
  Forall item_of_its_event ds -> Forall item_of_its_event items ->
  Forall item_of_its_event (DataSet.update items ds).
Proof.
  unfold DataSet.update. revert ds.
  induction items as [|item items IH]; cbn [fold_left]; intros ds Hds Hitems;
    [exact Hds|].
  inversion Hitems as [|? ? Hitem Hrest]; subst.
  apply IH; [|exact Hrest]. now apply addOrUpdate_of_its_event.
Qed.

Lemma event_ids_ids (ds : DataSet.t) :
  Forall item_of_its_event ds -> DataSet.event_ids ds = DataSet.ids ds.
Proof.
  unfold DataSet.event_ids, DataSet.ids.
  induction 1 as [|a ds Ha Hds IH]; cbn; [reflexivity|].
  now rewrite IH, Ha.
Qed.

(** A key that the spread keeps: once present in the stored item it is
    present after any [addOrUpdate]. *)
Section KeptKey.
Variable key : Item.t -> option Source.t.
Hypothesis spread_keeps :
  forall old upd,
    JS.truthy_opt (key old) = true ->
    JS.truthy_opt (key (DataSet.spread old upd)) = true.

Lemma addOrUpdate_keeps (ds : DataSet.t) (item x : Item.t) (i : string) :
  DataSet.get ds i = Some x -> JS.truthy_opt (key x) = true ->
  exists x',
    DataSet.get (DataSet.addOrUpdate ds item) i = Some x'
    /\ JS.truthy_opt (key x') = true.
Proof.
  intros Hget Hkey. unfold DataSet.addOrUpdate.
  destruct (DataSet.has ds (Item.id item)) eqn:E.
  - destruct (string_dec i (Item.id item)) as [->|Hne].
    + exists (DataSet.spread x item). split.
      * now apply get_updateItem_eq.
      * now apply spread_keeps.
    + exists x. split; [|exact Hkey]. now rewrite get_updateItem_ne.
  - exists x. split; [|exact Hkey]. now apply get_addItem_old.
Qed.

Lemma update_keeps (items : list Item.t) (ds : DataSet.t) (x : Item.t)
  (i : string) :
  DataSet.get ds i = Some x -> JS.truthy_opt (key x) = true ->
  exists x',
    DataSet.get (DataSet.update items ds) i = Some x'
    /\ JS.truthy_opt (key x') = true.
Proof.
  unfold DataSet.update. revert ds x.
  induction items as [|item items IH]; cbn [fold_left]; intros ds x Hget Hkey.
  - now exists x.
  - destruct (addOrUpdate_keeps ds item i Hget Hkey) as (x1 & Hget1 & Hkey1).
    exact (IH _ _ Hget1 Hkey1).
Qed.

End KeptKey.

Lemma spread_keeps_clip (old upd : Item.t) :
  JS.truthy_opt (Item.clip old) = true ->
  JS.truthy_opt (Item.clip (DataSet.spread old upd)) = true.
Proof. cbn. destruct (Item.clip upd); auto. Qed.

Lemma spread_keeps_snapshot (old upd : Item.t) :
  JS.truthy_opt (Item.snapshot old) = true ->
  JS.truthy_opt (Item.snapshot (DataSet.spread old upd)) = true.
Proof. cbn. destruct (Item.snapshot upd); auto. Qed.

(** An item merged into itself is unchanged: [updateOnly] of an item just
    read leaves the dataset as it is. *)
Lemma spread_self (x : Item.t) : DataSet.spread x x = x.
Proof.
  destruct x as [i g c ti s e ty ev cl sn]. unfold DataSet.spread. cbn.
  destruct e, ty, cl, sn; reflexivity.
Qed.

Lemma updateOnly_get (ds : DataSet.t) (i : string) (x : Item.t) :
  DataSet.get ds i = Some x -> DataSet.updateOnly x ds = ds.
Proof.
  unfold DataSet.updateOnly. induction ds as [|a ds IH]; cbn; [reflexivity|].
  destruct (String.eqb (Item.id a) i) eqn:E.
  - intros [= <-]. rewrite String.eqb_refl. now rewrite spread_self.
  - intros Hget. pose proof (get_Some_id _ _ Hget) as Hid. rewrite Hid, E.
    now rewrite IH.
Qed.

End DataSetProperties.

Module MergeProperties.
Section Merge.
Context `{Collaborators}.
Import TimelineEventManager DataSetProperties.

Variables contentCallback tooltipCallback : option (Source.t -> string).

Lemma item_of_child_id (ds : DataSet.t) (camera : string) (child : Source.t) :
  option_map Item.id
    (item_of_child contentCallback tooltipCallback ds camera child)
  = pushed_id child.
Proof.
  unfold item_of_child, pushed_id.
  destruct (Source.frigate child) as [event|]; [|reflexivity].
  destruct (JS.includes _ _); [|reflexivity].
  cbn [option_map]. f_equal.
  assert (Hbase :
    Item.id
      match DataSet.get ds (FrigateEvent.id event) with
      | Some existing => existing
      | None =>
          Item.mk (FrigateEvent.id event) camera
            (call_or_empty contentCallback child)
            (call_or_empty tooltipCallback child)
            (FrigateEvent.start_time event * 1000) None None event None None
      end = FrigateEvent.id event).
  { destruct (DataSet.get ds (FrigateEvent.id event)) eqn:E; [|reflexivity].
    now apply get_Some_id in E. }
  destruct (FrigateEvent.end_time event) as [e|];
    [destruct (JS.truthy_number e)|];
    destruct (String.eqb (Source.media_content_type child) "video");
    try destruct (String.eqb (Source.media_content_type child) "image");
    cbn; exact Hbase.
Qed.

Lemma items_of_children_ids (ds ds' : DataSet.t) (camera : string)
  (children : list Source.t) :
  map Item.id (items_of_children contentCallback tooltipCallback ds camera children)
  = map Item.id (items_of_children contentCallback tooltipCallback ds' camera children).
Proof.
  induction children as [|child children IH]; cbn; [reflexivity|].
  pose proof (item_of_child_id ds camera child) as H1.
  pose proof (item_of_child_id ds' camera child) as H2.
  destruct (item_of_child _ _ ds camera child),
           (item_of_child _ _ ds' camera child);
    cbn in *; try congruence.
Qed.

(** The items the loop pushes carry the identifier of their event. *)
Lemma item_of_child_of_its_event (ds : DataSet.t) (camera : string)
  (child : Source.t) (item : Item.t) :
  Forall item_of_its_event ds ->
  item_of_child contentCallback tooltipCallback ds camera child = Some item ->
  item_of_its_event item.
Proof.
  intros Hds. unfold item_of_child.
  destruct (Source.frigate child) as [event|]; [|discriminate].
  destruct (JS.includes _ _); [|discriminate].
  intros [= <-].
  assert (Hbase :
    item_of_its_event
      match DataSet.get ds (FrigateEvent.id event) with
      | Some existing => existing
      | None =>
          Item.mk (FrigateEvent.id event) camera
            (call_or_empty contentCallback child)
            (call_or_empty tooltipCallback child)
            (FrigateEvent.start_time event * 1000) None None event None None
      end).
  { destruct (DataSet.get ds (FrigateEvent.id event)) eqn:E; [|reflexivity].
    apply get_In in E. rewrite Forall_forall in Hds. now apply Hds. }
  destruct (FrigateEvent.end_time event) as [e|];
    [destruct (JS.truthy_number e)|];
    destruct (String.eqb (Source.media_content_type child) "video");
    try destruct (String.eqb (Source.media_content_type child) "image");
    exact Hbase.
Qed.

Lemma addMediaSource_of_its_event (camera : string) (target : Source.t) (m : t) :
  Forall item_of_its_event (dataset m) ->
  Forall item_of_its_event
    (dataset (_addMediaSource contentCallback tooltipCallback camera target m)).
Proof.
  intros Hds. unfold _addMediaSource, dataset in *. cbn [set_dataset _dataset].
  apply update_of_its_event; [exact Hds|].
  destruct (Source.children target) as [children|]; [|constructor].
  induction children as [|child children IH]; cbn; [constructor|].
  destruct (item_of_child _ _ _ camera child) as [item|] eqn:E; [|exact IH].
  constructor; [|exact IH]. now apply item_of_child_of_its_event in E.
Qed.

Lemma merge_all_of_its_event (answers : list (string * Source.t)) (m : t) :
  Forall item_of_its_event (dataset m) ->
  Forall item_of_its_event
    (dataset (merge_all contentCallback tooltipCallback answers m)).
Proof.
  unfold merge_all. revert m.
  induction answers as [|a answers IH]; cbn [fold_left]; intros m Hds;
    [exact Hds|].
  apply IH. now apply addMediaSource_of_its_event.
Qed.

(** Every merge keeps the ids of the dataset distinct. *)
Lemma addMediaSource_NoDup (camera : string) (target : Source.t) (m : t) :
  NoDup (DataSet.ids (dataset m)) ->
  NoDup (DataSet.ids (dataset (_addMediaSource contentCallback tooltipCallback camera target m))).
Proof. intros Hnd. cbn. now apply NoDup_update. Qed.

Lemma merge_all_NoDup (answers : list (string * Source.t)) (m : t) :
  NoDup (DataSet.ids (dataset m)) ->
  NoDup (DataSet.ids
           (dataset (merge_all contentCallback tooltipCallback answers m))).
Proof.
  unfold merge_all. revert m.
  induction answers as [|a answers IH]; cbn [fold_left]; intros m Hnd;
    [exact Hnd|].
  apply IH. now apply addMediaSource_NoDup.
Qed.

(** From the empty dataset on, no two items are of the same event. *)
Lemma merge_all_event_ids_NoDup (answers : list (string * Source.t)) :
  NoDup (DataSet.event_ids
           (dataset (merge_all contentCallback tooltipCallback answers new))).
Proof.
  rewrite event_ids_ids.
  - apply merge_all_NoDup. constructor.
  - apply merge_all_of_its_event. constructor.
Qed.

(** A merge keeps every id where it is and appends only ids that were
    not there. *)
Lemma addMediaSource_extends (camera : string) (target : Source.t) (m : t) :
  exists fresh,
    DataSet.ids (dataset (_addMediaSource contentCallback tooltipCallback camera target m))
    = DataSet.ids (dataset m) ++ fresh
    /\ forall i, In i fresh -> ~ In i (DataSet.ids (dataset m)).
Proof. cbn. apply ids_update_extends. Qed.

(** A merge keeps the clip and the snapshot an item already has. *)
Lemma addMediaSource_keeps (key : Item.t -> option Source.t)
  (camera : string) (target : Source.t) (m : t) (i : string) (x : Item.t) :
  (forall old upd, JS.truthy_opt (key old) = true ->
                   JS.truthy_opt (key (DataSet.spread old upd)) = true) ->
  DataSet.get (dataset m) i = Some x -> JS.truthy_opt (key x) = true ->
  exists x',
    DataSet.get (dataset (_addMediaSource contentCallback tooltipCallback camera target m)) i = Some x'
    /\ JS.truthy_opt (key x') = true.
Proof. intros Hkeeps Hget Hkey. cbn. now apply update_keeps with (x := x). Qed.

(** A clip merged for an event that has only a snapshot: one record, with
    both. *)
Lemma clip_joins_snapshot (camera : string) (target child s : Source.t)
  (event : FrigateEvent.t) (it : Item.t) (m : t) :
  Source.children target = Some [child] ->
  Source.frigate child = Some event ->
  Source.media_content_type child = "video"%string ->
  DataSet.get (dataset m) (FrigateEvent.id event) = Some it ->
  Item.clip it = None -> Item.snapshot it = Some s ->
  DataSet.ids (dataset (_addMediaSource contentCallback tooltipCallback camera target m))
  = DataSet.ids (dataset m)
  /\ exists it',
       DataSet.get (dataset (_addMediaSource contentCallback tooltipCallback camera target m))
         (FrigateEvent.id event) = Some it'
       /\ Item.clip it' = Some child /\ Item.snapshot it' = Some s.
Proof.
  intros Hchildren Hfrigate Htype Hget Hclip Hsnap.
  pose proof (get_Some_id _ _ Hget) as Hid.
  unfold _addMediaSource, dataset in *. rewrite Hchildren. cbn [set_dataset _dataset].
  cbn [items_of_children]. unfold item_of_child.
  rewrite Hfrigate, Htype. cbn [JS.includes existsb]. 
  replace (String.eqb "video" "video") with true by reflexivity.
  cbn [orb]. rewrite Hget.
  set (item := Item.set_clip child _).
  assert (Hitem : Item.id item = FrigateEvent.id event).
  { subst item. destruct (FrigateEvent.end_time event) as [e|];
      [destruct (JS.truthy_number e)|]; cbn; exact Hid. }
  assert (Hhas : DataSet.has (_dataset m) (Item.id item) = true).
  { unfold DataSet.has. now rewrite Hitem, Hget. }
  unfold DataSet.update. cbn [fold_left]. unfold DataSet.addOrUpdate.
  rewrite Hhas. split; [apply ids_updateItem|].
  exists (DataSet.spread it item). split.
  - rewrite <- Hitem. apply get_updateItem_eq. now rewrite Hitem.
  - subst item. destruct (FrigateEvent.end_time event) as [e|];
      [destruct (JS.truthy_number e)|]; cbn; now rewrite Hsnap.
Qed.

(** A snapshot merged for an event that has only a clip: one record, with
    both. *)
Lemma snapshot_joins_clip (camera : string) (target child s : Source.t)
  (event : FrigateEvent.t) (it : Item.t) (m : t) :
  Source.children target = Some [child] ->
  Source.frigate child = Some event ->
  Source.media_content_type child = "image"%string ->
  DataSet.get (dataset m) (FrigateEvent.id event) = Some it ->
  Item.snapshot it = None -> Item.clip it = Some s ->
  DataSet.ids (dataset (_addMediaSource contentCallback tooltipCallback camera target m))
  = DataSet.ids (dataset m)
  /\ exists it',
       DataSet.get (dataset (_addMediaSource contentCallback tooltipCallback camera target m))
         (FrigateEvent.id event) = Some it'
       /\ Item.snapshot it' = Some child /\ Item.clip it' = Some s.
Proof.
  intros Hchildren Hfrigate Htype Hget Hsnap Hclip.
  pose proof (get_Some_id _ _ Hget) as Hid.
  unfold _addMediaSource, dataset in *. rewrite Hchildren. cbn [set_dataset _dataset].
  cbn [items_of_children]. unfold item_of_child.
  rewrite Hfrigate, Htype. cbn [JS.includes existsb]. 
  replace (String.eqb "image" "video") with false by reflexivity.
  replace (String.eqb "image" "image") with true by reflexivity.
  cbn [orb]. rewrite Hget.
  set (item := Item.set_snapshot child _).
  assert (Hitem : Item.id item = FrigateEvent.id event).
  { subst item. destruct (FrigateEvent.end_time event) as [e|];
      [destruct (JS.truthy_number e)|]; cbn; exact Hid. }
  assert (Hhas : DataSet.has (_dataset m) (Item.id item) = true).
  { unfold DataSet.has. now rewrite Hitem, Hget. }
  unfold DataSet.update. cbn [fold_left]. unfold DataSet.addOrUpdate.
  rewrite Hhas. split; [apply ids_updateItem|].
  exists (DataSet.spread it item). split.
  - rewrite <- Hitem. apply get_updateItem_eq. now rewrite Hitem.
  - subst item. destruct (FrigateEvent.end_time event) as [e|];
      [destruct (JS.truthy_number e)|]; cbn; now rewrite Hclip.
Qed.

(** Merging the same answer again adds no record. *)
Lemma addMediaSource_twice (camera : string) (target : Source.t) (m : t) :
  DataSet.ids
    (dataset (_addMediaSource contentCallback tooltipCallback camera target (_addMediaSource contentCallback tooltipCallback camera target m)))
  = DataSet.ids (dataset (_addMediaSource contentCallback tooltipCallback camera target m)).
Proof.
  unfold _addMediaSource, dataset. cbn [set_dataset _dataset].
  destruct (Source.children target) as [children|]; [|reflexivity].
  apply ids_update_present. intros item Hin.
  apply (in_map Item.id) in Hin.
  rewrite (items_of_children_ids _ (_dataset m)) in Hin.
  apply in_map_iff in Hin. destruct Hin as (item0 & <- & Hin0).
  now apply ids_update_contains.
Qed.

(** C2.  At most one Timeline Item per event identifier, whatever the
    sequence of merges: from the empty dataset on, the event identifiers
    of the items are distinct and are the ids of the items, and merges
    keep the ids of any dataset distinct; a merge
    leaves every existing id in place and appends only identifiers that
    were absent, so an entry whose identifier exists updates its record; a
    clip or snapshot an item has is still there after any merge; a clip
    merged for an event that has only a snapshot yields one record with
    both, and so does a snapshot merged for an event that has only a clip;
    and merging the same answer twice adds no record. *)
Theorem one_item_per_event_identifier :
  (forall answers,
      NoDup (DataSet.event_ids
               (dataset (merge_all contentCallback tooltipCallback answers new)))
      /\ Forall item_of_its_event
           (dataset (merge_all contentCallback tooltipCallback answers new)))
  /\ (forall answers m,
         NoDup (DataSet.ids (dataset m)) ->
         NoDup (DataSet.ids
                  (dataset (merge_all contentCallback tooltipCallback answers m))))
  /\ (forall camera target m,
         exists fresh,
           DataSet.ids (dataset (_addMediaSource contentCallback tooltipCallback camera target m))
           = DataSet.ids (dataset m) ++ fresh
           /\ forall i, In i fresh -> ~ In i (DataSet.ids (dataset m)))
  /\ (forall camera target m i x,
         DataSet.get (dataset m) i = Some x ->
         exists x',
           DataSet.get (dataset (_addMediaSource contentCallback tooltipCallback camera target m)) i = Some x'
           /\ (JS.truthy_opt (Item.clip x) = true ->
               JS.truthy_opt (Item.clip x') = true)
           /\ (JS.truthy_opt (Item.snapshot x) = true ->
               JS.truthy_opt (Item.snapshot x') = true))
  /\ (forall camera target child s event it m,
         Source.children target = Some [child] ->
         Source.frigate child = Some event ->
         Source.media_content_type child = "video"%string ->
         DataSet.get (dataset m) (FrigateEvent.id event) = Some it ->
         Item.clip it = None -> Item.snapshot it = Some s ->
         DataSet.ids (dataset (_addMediaSource contentCallback tooltipCallback camera target m))
         = DataSet.ids (dataset m)
         /\ exists it',
              DataSet.get (dataset (_addMediaSource contentCallback tooltipCallback camera target m))
                (FrigateEvent.id event) = Some it'
              /\ Item.clip it' = Some child /\ Item.snapshot it' = Some s)
  /\ (forall camera target child s event it m,
         Source.children target = Some [child] ->
         Source.frigate child = Some event ->
         Source.media_content_type child = "image"%string ->
         DataSet.get (dataset m) (FrigateEvent.id event) = Some it ->
         Item.snapshot it = None -> Item.clip it = Some s ->
         DataSet.ids
           (dataset (_addMediaSource contentCallback tooltipCallback camera
                       target m))
         = DataSet.ids (dataset m)
         /\ exists it',
              DataSet.get
                (dataset (_addMediaSource contentCallback tooltipCallback
                            camera target m))
                (FrigateEvent.id event) = Some it'
              /\ Item.snapshot it' = Some child /\ Item.clip it' = Some s)
  /\ (forall camera target m,
         DataSet.ids
           (dataset
              (_addMediaSource contentCallback tooltipCallback camera target (_addMediaSource contentCallback tooltipCallback camera target m)))
         = DataSet.ids (dataset (_addMediaSource contentCallback tooltipCallback camera target m))).
Proof.
  split; [|split; [|split; [|split; [|split; [|split]]]]].
  - intros answers. split; [apply merge_all_event_ids_NoDup|].
    apply merge_all_of_its_event. constructor.
  - exact merge_all_NoDup.
  - exact addMediaSource_extends.
  - intros camera target m i x Hget.
    destruct (addMediaSource_keeps (fun _ => Some target) camera target m i
                (fun _ _ _ => eq_refl) Hget eq_refl) as (x' & Hget' & _).
    exists x'. split; [exact Hget'|]. split; intros Hkey.
    + destruct (addMediaSource_keeps Item.clip camera target m i
                  spread_keeps_clip Hget Hkey) as (x1 & Hget1 & Hkey1).
      congruence.
    + destruct (addMediaSource_keeps Item.snapshot camera target m i
                  spread_keeps_snapshot Hget Hkey) as (x1 & Hget1 & Hkey1).
      congruence.
  - exact clip_joins_snapshot.
  - exact snapshot_joins_clip.
  - exact addMediaSource_twice.
Qed.

End Merge.
End MergeProperties.

(** The scenario of C2: [event1] has only its snapshot, its clip is
    merged, and the one record has both. *)
Lemma one_item_per_event_identifier_witness :
  DataSet.ids
    (TimelineEventManager.dataset
       (TimelineEventManager._addMediaSource None None "front"
          (Scenario.folder [Scenario.clip1]) Scenario.snapshot_only))
  = ["event-1"%string]
  /\ exists it',
       DataSet.get
         (TimelineEventManager.dataset
            (TimelineEventManager._addMediaSource None None "front"
               (Scenario.folder [Scenario.clip1]) Scenario.snapshot_only))
         "event-1" = Some it'
       /\ Item.clip it' = Some Scenario.clip1
       /\ Item.snapshot it' = Some Scenario.snapshot1.
Proof.
  destruct (MergeProperties.one_item_per_event_identifier None None)
    as (_ & _ & _ & _ & Hboth & _ & _).
  destruct (Hboth "front"%string (Scenario.folder [Scenario.clip1])
              Scenario.clip1 Scenario.snapshot1 Scenario.event1
              (Item.mk "event-1" "front" EmptyString EmptyString 36900000
                 (Some 37200000) (Some range) Scenario.event1 None
                 (Some Scenario.snapshot1))
              Scenario.snapshot_only
              eq_refl eq_refl eq_refl eq_refl eq_refl eq_refl)
    as (Hids & Hrecord).
  split; [exact Hids | exact Hrecord].
Defined.

(** ** Fetch failures *)

Module FetchProperties.
Section Fetch.
Context `{Collaborators}.
Import TimelineEventManager.

Variables contentCallback tooltipCallback : option (Source.t -> string).

(** A query that rejects: the promise of [fetchCameraEvents] resolves,
    the state is untouched and one error signal carries the message. *)
Lemma fetchCameraEvents_resume_rejected (p : Pending) (message : string)
  (m : t) :
  fetchCameraEvents_resume contentCallback tooltipCallback p
    (rejected _ message) m
  = (Return tt, m, [dispatchErrorMessageEvent message]).
Proof. reflexivity. Qed.

(** A query that resolves: its answer is merged, silently. *)
Lemma fetchCameraEvents_resume_resolved (p : Pending) (source : Source.t)
  (m : t) :
  fetchCameraEvents_resume contentCallback tooltipCallback p (resolved source) m
  = (Return tt, _addMediaSource contentCallback tooltipCallback (fst p) source m,
     []).
Proof. reflexivity. Qed.

Lemma settle_all_run (arrivals : list (Pending * Settled Source.t)) (m : t) :
  settle_all contentCallback tooltipCallback arrivals m
  = (Return (map (fun _ => Return tt) arrivals),
     merge_all contentCallback tooltipCallback (resolutions arrivals) m,
     map dispatchErrorMessageEvent (rejections arrivals)).
Proof.
  revert m. induction arrivals as [|[p answer] arrivals IH]; intros m;
    [reflexivity|].
  cbn [settle_all]. unfold bind at 1, as_promise.
  destruct answer as [source|message].
  - rewrite fetchCameraEvents_resume_resolved. unfold bind at 1.
    rewrite IH. run_done.
  - rewrite fetchCameraEvents_resume_rejected. unfold bind at 1.
    rewrite IH. run_done.
Qed.

Lemma first_rejection_none (A : Type) (l : list A) :
  first_rejection (map (fun _ => Return tt) l) = None.
Proof. induction l; cbn; auto. Qed.

Lemma await_Promise_all_run (arrivals : list (Pending * Settled Source.t))
  (m : t) :
  await_Promise_all contentCallback tooltipCallback arrivals m
  = (Return tt,
     merge_all contentCallback tooltipCallback (resolutions arrivals) m,
     map dispatchErrorMessageEvent (rejections arrivals)).
Proof.
  unfold await_Promise_all, bind. rewrite settle_all_run.
  rewrite first_rejection_none. run_done.
Qed.

Lemma fetchEventsIfNecessary_resume_run (pending : list Pending)
  (arrivals : list (Pending * Settled Source.t)) (m : t) :
  fetchEventsIfNecessary_resume contentCallback tooltipCallback (Some pending)
    arrivals m
  = (Return true,
     merge_all contentCallback tooltipCallback (resolutions arrivals) m,
     map dispatchErrorMessageEvent (rejections arrivals)).
Proof.
  unfold fetchEventsIfNecessary_resume, bind. rewrite await_Promise_all_run.
  run_done.
Qed.

(** Every answer ends in a merge or in an error signal. *)
Lemma settled_count (arrivals : list (Pending * Settled Source.t)) :
  (List.length (rejections arrivals) + List.length (resolutions arrivals)
   = List.length arrivals)%nat.
Proof.
  induction arrivals as [|[p [source|message]] arrivals IH]; cbn; lia.
Qed.

(** The fan-out over a known window: every query is issued, the state is
    untouched. *)
Lemma issue_all_run (cameras : CameraMap)
  (rs : list (string * TimelineMediaType)) (m : t) (dateStart dateEnd : Z) :
  _dateStart m = Some dateStart -> _dateEnd m = Some dateEnd ->
  issue_all cameras rs m
  = (Return (queries_for cameras dateStart dateEnd rs), m,
     map (fun p => browseMediaQuery (fst p) (snd p))
       (queries_for cameras dateStart dateEnd rs)).
Proof.
  intros Hs He. induction rs as [|[camera mediaType] rs IH]; [reflexivity|].
  cbn [issue_all queries_for]. unfold bind at 1, fetchCameraEvents_sync.
  unfold bind at 1, get. rewrite Hs, He.
  destruct (Map_get cameras camera) as [cameraConfig|].
  - destruct (getBrowseMediaQueryParametersBase cameraConfig) as [base|].
    + cbn. unfold bind. rewrite IH. run_done.
    + cbn. unfold bind. rewrite IH. run_done.
  - cbn. unfold bind. rewrite IH. run_done.
Qed.

(** The synchronous part of a fetch: the window is widened, the fetch is
    stamped and the queries are issued over the widened window. *)
Lemma _fetchEvents_sync_run (now : Z) (cameras : CameraMap)
  (media : TimelineMediaType) (start end_ : Z) (m : t) :
  let dateStart := widened_start m start in
  let dateEnd := widened_end m end_ in
  let pending := queries_for cameras dateStart dateEnd (requests cameras media) in
  _fetchEvents_sync now cameras media (Some start) (Some end_) m
  = (Return pending,
     mk (_dataset m) (Some dateStart) (Some dateEnd) (Some now)
        (_maxAgeSeconds m),
     map (fun p => browseMediaQuery (fst p) (snd p)) pending).
Proof.
  intros dateStart dateEnd pending. subst dateStart dateEnd pending.
  destruct m as [ds [s|] [e|] f a];
    unfold _fetchEvents_sync, widened_start, widened_end, bind, get;
    cbn -[issue_all requests Z.ltb Z.gtb queries_for];
    repeat match goal with
      | |- context [if ?b then _ else _] =>
          destruct b; cbn -[issue_all requests Z.ltb Z.gtb queries_for]
      end;
    erewrite issue_all_run by reflexivity; run_done.
Qed.

(** The synchronous part of the coverage-ensuring call never throws. *)
Lemma fetchEventsIfNecessary_sync_returns (now : Z) (cameras : CameraMap)
  (media : TimelineMediaType) (start end_ : Z) (m : t) :
  exists promise m' effects,
    fetchEventsIfNecessary_sync now cameras media start end_ m
    = (Return promise, m', effects).
Proof.
  unfold fetchEventsIfNecessary_sync, bind at 1, get.
  destruct (hasCoverage m now start (Some end_)).
  - now eexists _, _, _.
  - cbn. unfold bind. rewrite _fetchEvents_sync_run. cbn. now eexists _, _, _.
Qed.

(** C8.  A failure of one camera/media-kind query is caught where it
    arises and becomes one outbound error signal: the promise of that
    fetch resolves and the state is untouched; whatever answers arrive and
    whichever of them are rejections, all of them are processed (every
    resolved answer is merged, every rejection is signalled, in the order
    they settle), and the coverage-ensuring call resolves, to [true] after
    a fetch and to [false] without one; its synchronous part never throws
    either; and when the answers settle exactly the queries in flight,
    every query ended in a merge or in an error signal. *)
Theorem fetch_failure_is_isolated :
  (forall p message m,
      fetchCameraEvents_resume contentCallback tooltipCallback p
        (rejected _ message) m
      = (Return tt, m, [dispatchErrorMessageEvent message]))
  /\ (forall pending arrivals m,
         fetchEventsIfNecessary_resume contentCallback tooltipCallback
           (Some pending) arrivals m
         = (Return true,
            merge_all contentCallback tooltipCallback (resolutions arrivals) m,
            map dispatchErrorMessageEvent (rejections arrivals)))
  /\ (forall arrivals m,
         fetchEventsIfNecessary_resume contentCallback tooltipCallback None
           arrivals m
         = (Return false, m, []))
  /\ (forall now cameras media start end_ m,
         exists promise m' effects,
           fetchEventsIfNecessary_sync now cameras media start end_ m
           = (Return promise, m', effects))
  /\ (forall pending arrivals,
         settles pending arrivals ->
         (List.length (rejections arrivals)
          + List.length (resolutions arrivals)
          = List.length pending)%nat).
Proof.
  split; [|split; [|split; [|split]]].
  - exact fetchCameraEvents_resume_rejected.
  - exact fetchEventsIfNecessary_resume_run.
  - reflexivity.
  - exact fetchEventsIfNecessary_sync_returns.
  - intros pending arrivals Hsettles. rewrite settled_count.
    unfold settles in Hsettles. apply Permutation_length in Hsettles.
    now rewrite length_map in Hsettles.
Qed.

End Fetch.
End FetchProperties.

(** The scenario of C8: four queries in flight, the two of the camera at
    the back reject, the call still resolves and nothing is lost. *)
Lemma fetch_failure_is_isolated_witness :
  TimelineEventManager.settles Scenario.in_flight Scenario.arrivals
  /\ (List.length (TimelineEventManager.rejections Scenario.arrivals)
      + List.length (TimelineEventManager.resolutions Scenario.arrivals)
      = List.length Scenario.in_flight)%nat.
Proof.
  assert (Hsettles :
    TimelineEventManager.settles Scenario.in_flight Scenario.arrivals).
  { unfold TimelineEventManager.settles, Scenario.arrivals.
    rewrite map_map. cbn [fst]. rewrite map_id.
    apply Permutation_sym, Permutation_rev. }
  split; [exact Hsettles|].
  destruct (FetchProperties.fetch_failure_is_isolated None None)
    as (_ & _ & _ & _ & Hcount).
  exact (Hcount _ _ Hsettles).
Defined.

(** The run of that scenario: the call resolves to [true], the two
    rejections are signalled in the order they settled, and the answers
    of the camera at the front are merged into the one item of
    [event1]. *)
Lemma fetch_scenario_run :
  let run :=
    TimelineEventManager.fetchEventsIfNecessary_resume None None
      (Some Scenario.in_flight) Scenario.arrivals Scenario.fetched in
  List.length Scenario.in_flight = 4%nat
  /\ outcome_of run = Return true
  /\ effects_of run
     = [dispatchErrorMessageEvent "camera offline";
        dispatchErrorMessageEvent "camera offline"]
  /\ map (fun i => (Item.id i, Item.clip i, Item.snapshot i))
       (TimelineEventManager.dataset (state_of run))
     = [("event-1"%string, Some Scenario.clip1, Some Scenario.snapshot1)].
Proof. cbv zeta. repeat split. Qed.

(** ** The element: selection, clustering, desired window *)

Module CoreProperties.
Section CoreFacts.
Context `{Collaborators}.
Import FrigateCardTimelineCore.

(** C10.  A selection that arrives before any playlist was generated, or
    while the playlist has no [children], is a silent no-op: the element
    is unchanged, nothing is dispatched to the view holder and neither
    the thumbnails-open nor the thumbnails-close signal is emitted. *)
Theorem select_without_playlist_is_silent (c : t) (items : list string) :
  _thumbnails c = None
  \/ (exists thumbnails,
        _thumbnails c = Some thumbnails /\ Source.children thumbnails = None) ->
  _timelineSelectHandler items c = (Return tt, c, []).
Proof.
  intros [Hnone|(thumbnails & Hsome & Hchildren)];
    unfold _timelineSelectHandler, bind, get.
  - now rewrite Hnone.
  - now rewrite Hsome, Hchildren.
Qed.

Lemma strict_eq_opt_true (a : string) (b : option string) :
  JS.strict_eq_opt a b = true <-> b = Some a.
Proof.
  destruct b as [s|]; cbn; [|split; discriminate].
  rewrite String.eqb_eq. split; [now intros ->|now intros [= ->]].
Qed.

(** C7.  The clustering predicate answers mergeable only if neither
    item's identifier is the identifier of the focused event and both
    items carry the same label; so it never answers mergeable for a pair
    one of whose members is the focused event, even with equal labels, and
    never for a pair with differing labels. *)
Theorem clusterCriteria_excludes_focus_and_mixed_labels (c : t)
  (first second : Item.t) :
  (clusterCriteria c first second = true ->
   (forall focused,
       View.media_event (view c) = Some focused ->
       Item.id first <> FrigateEvent.id focused
       /\ Item.id second <> FrigateEvent.id focused)
   /\ FrigateEvent.label (Item.event first)
      = FrigateEvent.label (Item.event second))
  /\ (forall focused,
         View.media_event (view c) = Some focused ->
         Item.id first = FrigateEvent.id focused
         \/ Item.id second = FrigateEvent.id focused ->
         clusterCriteria c first second = false)
  /\ (FrigateEvent.label (Item.event first)
      <> FrigateEvent.label (Item.event second) ->
      clusterCriteria c first second = false).
Proof.
  unfold clusterCriteria. split; [|split].
  - intros Htrue. repeat (apply andb_prop in Htrue; destruct Htrue as [Htrue ?]).
    split.
    + intros focused Hfocus. rewrite Hfocus in *. cbn in *.
      split; intros Heq; rewrite Heq, String.eqb_refl in *; discriminate.
    + now apply String.eqb_eq.
  - intros focused Hfocus [Heq|Heq]; rewrite Hfocus; cbn;
      rewrite Heq, String.eqb_refl; cbn;
      rewrite ?andb_false_r; reflexivity.
  - intros Hne. apply String.eqb_neq in Hne. rewrite Hne.
    now rewrite andb_false_r.
Qed.

(** C6, as the code has it.  For an event with an end (a non-zero
    [end_time]) the window runs from one hour before its start to one hour
    after its end, so for start [T] and end [T + 300] it is
    [T − 3600, T + 300 + 3600] in seconds; for an event without an end the
    window ends at the padded start plus one hour, which is the start of
    the event: a one-hour window from one hour before the start to the
    start; a view whose target has an event gets the window of that event,
    and a view with no focused event gets the last hour, from [now] minus
    one hour to [now]. *)
Theorem desired_window :
  (forall event e,
      FrigateEvent.end_time event = Some e -> e <> 0 ->
      _getStartEndFromEvent event
      = ((FrigateEvent.start_time event - 3600) * 1000, (e + 3600) * 1000))
  /\ (forall i l T,
         T + 300 <> 0 ->
         _getStartEndFromEvent (FrigateEvent.mk i l T (Some (T + 300)))
         = ((T - 3600) * 1000, (T + 300 + 3600) * 1000))
  /\ (forall event,
         JS.truthy_opt_number (FrigateEvent.end_time event) = false ->
         let start := FrigateEvent.start_time event * 1000 - one_hour in
         _getStartEndFromEvent event = (start, start + one_hour)
         /\ snd (_getStartEndFromEvent event)
            = FrigateEvent.start_time event * 1000
         /\ snd (_getStartEndFromEvent event)
            - fst (_getStartEndFromEvent event) = one_hour)
  /\ (forall c now event,
         View.target_event (view c) = Some event ->
         _getStartEnd c now = _getStartEndFromEvent event)
  /\ (forall c now,
         View.target_event (view c) = None ->
         _getStartEnd c now = (now - one_hour, now)).
Proof.
  split; [|split; [|split; [|split]]].
  - intros event e He Hnz. unfold _getStartEndFromEvent, fromUnixTime, one_hour.
    rewrite He. unfold JS.truthy_number.
    destruct (Z.eqb_spec e 0); [contradiction|]. cbn [negb]. f_equal; lia.
  - intros i l T Hnz. unfold _getStartEndFromEvent, fromUnixTime, one_hour.
    cbn [FrigateEvent.end_time FrigateEvent.start_time]. unfold JS.truthy_number.
    destruct (Z.eqb_spec (T + 300) 0); [contradiction|]. cbn [negb].
    f_equal; lia.
  - intros event Hfalsy start.
    assert (Hwin : _getStartEndFromEvent event = (start, start + one_hour)).
    { unfold _getStartEndFromEvent, fromUnixTime. subst start.
      unfold JS.truthy_opt_number in Hfalsy.
      destruct (FrigateEvent.end_time event) as [e|]; [|reflexivity].
      now rewrite Hfalsy. }
    rewrite Hwin. cbn [fst snd]. subst start. repeat split; lia.
  - intros c now event Hev. unfold _getStartEnd. now rewrite Hev.
  - intros c now Hev. unfold _getStartEnd. now rewrite Hev.
Qed.

End CoreFacts.
End CoreProperties.

(** An element that never generated a playlist ignores a selection. *)
Lemma select_without_playlist_is_silent_witness :
  FrigateCardTimelineCore._timelineSelectHandler ["event-1"%string]
    Scenario.core_fresh
  = (Return tt, Scenario.core_fresh, []).
Proof.
  apply CoreProperties.select_without_playlist_is_silent. left. reflexivity.
Defined.

(** Once a playlist with (even empty) children exists, a selection is
    answered: here with a dispatch and the thumbnails-close signal. *)
Lemma select_with_empty_children_is_not_silent :
  effects_of
    (FrigateCardTimelineCore._timelineSelectHandler ["event-1"%string]
       (FrigateCardTimelineCore.set_thumbnails
          (Some (FrigateCardTimelineCore.playlist [])) Scenario.core_fresh))
  = [dispatchChangeEvent Scenario.view_live
       {| evolve_target := Some (FrigateCardTimelineCore.playlist []);
          evolve_childIndex := Some (Some (-1));
          evolve_context := None |};
     dispatchFrigateCardEvent "thumbnails:close"].
Proof. reflexivity. Qed.

(** With [event1] focused: two other persons cluster; [event1] does not
    cluster with a person; a person and a car do not cluster. *)
Lemma clusterCriteria_excludes_focus_and_mixed_labels_witness :
  ((forall focused,
       View.media_event (Some Scenario.view_event1) = Some focused ->
       "event-2"%string <> FrigateEvent.id focused
       /\ "event-3"%string <> FrigateEvent.id focused)
   /\ "person"%string = "person"%string)
  /\ FrigateCardTimelineCore.clusterCriteria
       (Scenario.core_with Scenario.view_event1)
       (Scenario.item_of Scenario.event1) (Scenario.item_of Scenario.event2)
     = false
  /\ FrigateCardTimelineCore.clusterCriteria
       (Scenario.core_with Scenario.view_event1)
       (Scenario.item_of Scenario.event2) (Scenario.item_of Scenario.event4)
     = false.
Proof.
  split; [|split].
  - apply (CoreProperties.clusterCriteria_excludes_focus_and_mixed_labels
             (Scenario.core_with Scenario.view_event1)
             (Scenario.item_of Scenario.event2)
             (Scenario.item_of Scenario.event3)).
    reflexivity.
  - apply (CoreProperties.clusterCriteria_excludes_focus_and_mixed_labels
             (Scenario.core_with Scenario.view_event1)
             (Scenario.item_of Scenario.event1)
             (Scenario.item_of Scenario.event2))
      with (focused := Scenario.event1); [reflexivity|left; reflexivity].
  - apply (CoreProperties.clusterCriteria_excludes_focus_and_mixed_labels
             (Scenario.core_with Scenario.view_event1)
             (Scenario.item_of Scenario.event2)
             (Scenario.item_of Scenario.event4)).
    cbn. discriminate.
Defined.

(** The window of [event3] (start 37100 s, end 37160 s), of [event2]
    (start 37000 s, no end) and of the live view at 10:00:07. *)
Lemma desired_window_witness :
  FrigateCardTimelineCore._getStartEndFromEvent Scenario.event3
  = ((37100 - 3600) * 1000, (37160 + 3600) * 1000)
  /\ FrigateCardTimelineCore._getStartEndFromEvent Scenario.event2
     = (37000 * 1000 - FrigateCardTimelineCore.one_hour,
        37000 * 1000 - FrigateCardTimelineCore.one_hour
        + FrigateCardTimelineCore.one_hour)
  /\ FrigateCardTimelineCore._getStartEnd Scenario.core (Scenario.clock 10 0 7)
     = (Scenario.clock 10 0 7 - FrigateCardTimelineCore.one_hour,
        Scenario.clock 10 0 7).
Proof.
  pose proof CoreProperties.desired_window as (Hend & _ & Hopen & _ & Hlive).
  split; [|split].
  - apply (Hend Scenario.event3 37160); [reflexivity|lia].
  - apply (Hopen Scenario.event2). reflexivity.
  - apply (Hlive Scenario.core). reflexivity.
Defined.

(** C6 as stated fails: the window of an event without an end is one hour
    wide, not two. *)
Lemma open_event_window_is_not_two_hours :
  let w := FrigateCardTimelineCore._getStartEndFromEvent Scenario.event2 in
  w = (33400000, 37000000)
  /\ snd w - fst w = 3600 * 1000
  /\ snd w - fst w <> 2 * 3600 * 1000.
Proof. cbn. repeat split. lia. Qed.

(** ** What the operations keep *)

Module MonadProperties.
Section Preservation.
Context `{Collaborators}.
Context {S : Type} (R : S -> S -> Prop) {PO : PreOrder R}.

Lemma preserves_ret (A : Type) (a : A) : preserves R (ret a).
Proof. intros s. cbn. reflexivity. Qed.

Lemma preserves_get : preserves R get.
Proof. intros s. cbn. reflexivity. Qed.

Lemma preserves_emit (e : Effect) : preserves R (emit e).
Proof. intros s. cbn. reflexivity. Qed.

Lemma preserves_throw (A : Type) (message : string) :
  preserves R (throw (A := A) message).
Proof. intros s. cbn. reflexivity. Qed.

Lemma preserves_modify (f : S -> S) :
  (forall s, R s (f s)) -> preserves R (modify f).
Proof. intros Hf s. cbn. apply Hf. Qed.

Lemma preserves_bind (A B : Type) (c : M S A) (k : A -> M S B) :
  preserves R c -> (forall a, preserves R (k a)) -> preserves R (bind c k).
Proof.
  intros Hc Hk s. specialize (Hc s). unfold bind.
  destruct (c s) as [[[a|e] s1] t1]; cbn in *; [|exact Hc].
  specialize (Hk a s1). destruct (k a s1) as [[o s2] t2]; cbn in *.
  now transitivity s1.
Qed.

Lemma preserves_try_catch (A : Type) (c : M S A) (handler : string -> M S A) :
  preserves R c -> (forall e, preserves R (handler e)) ->
  preserves R (try_catch c handler).
Proof.
  intros Hc Hh s. specialize (Hc s). unfold try_catch.
  destruct (c s) as [[[a|e] s1] t1]; cbn in *; [exact Hc|].
  specialize (Hh e s1). destruct (handler e s1) as [[o s2] t2]; cbn in *.
  now transitivity s1.
Qed.

Lemma preserves_as_promise (A : Type) (c : M S A) :
  preserves R c -> preserves R (as_promise c).
Proof.
  intros Hc s. specialize (Hc s). unfold as_promise.
  now destruct (c s) as [[o s1] t1].
Qed.

(** The state after [c ;; k] is related to the state after [c]. *)
Lemma bind_continues (A B : Type) (c : M S A) (k : A -> M S B) (s : S) :
  (forall a, preserves R (k a)) ->
  R (state_of (c s)) (state_of (bind c k s)).
Proof.
  intros Hk. unfold bind, state_of.
  destruct (c s) as [[[a|e] s1] t1]; cbn; [|reflexivity].
  specialize (Hk a s1). now destruct (k a s1) as [[o s2] t2].
Qed.

End Preservation.

(** The run of a sequence that starts with a primitive. *)
Section Runs.
Context `{Collaborators}.
Context {S A : Type}.

Lemma bind_get (k : S -> M S A) (s : S) : bind get k s = k s s.
Proof. unfold bind, get. now destruct (k s s) as [[o s2] t2]. Qed.

Lemma bind_ret (B : Type) (b : B) (k : B -> M S A) (s : S) :
  bind (ret b) k s = k b s.
Proof. unfold bind, ret. now destruct (k b s) as [[o s2] t2]. Qed.

Lemma bind_modify (f : S -> S) (k : unit -> M S A) (s : S) :
  bind (modify f) k s = k tt (f s).
Proof. unfold bind, modify. now destruct (k tt (f s)) as [[o s2] t2]. Qed.

Lemma bind_emit (e : Effect) (k : unit -> M S A) (s : S) :
  bind (emit e) k s
  = (outcome_of (k tt s), state_of (k tt s), e :: effects_of (k tt s)).
Proof. unfold bind, emit. now destruct (k tt s) as [[o s2] t2]. Qed.

Lemma bind_throw (B : Type) (message : string) (k : B -> M S A) (s : S) :
  bind (throw message) k s = (Throw A message, s, []).
Proof. reflexivity. Qed.

End Runs.

Lemma preserves_weaken `{Collaborators} (S A : Type) (R R' : S -> S -> Prop)
  (c : M S A) :
  (forall s s', R s s' -> R' s s') -> preserves R c -> preserves R' c.
Proof. intros Hsub Hc s. apply Hsub, Hc. Qed.

End MonadProperties.

Create HintDb preserves.

(** Prove that code preserves a relation, piece by piece. *)
Ltac preserve :=
  repeat first
    [ solve [eauto with preserves]
    | apply MonadProperties.preserves_ret
    | apply MonadProperties.preserves_get
    | apply MonadProperties.preserves_emit
    | apply MonadProperties.preserves_throw
    | apply MonadProperties.preserves_as_promise
    | apply MonadProperties.preserves_bind; [idtac .. | intros ?]
    | apply MonadProperties.preserves_try_catch; [idtac .. | intros ?]
    | match goal with
      | |- PreOrder _ => typeclasses eauto
      | |- preserves _ (let _ := _ in _) => cbv zeta
      | |- preserves _ (match ?x with _ => _ end) => destruct x
      | |- preserves _ (if ?x then _ else _) => destruct x
      end ].

Module RetentionProperties.
Section Retention.
Context `{Collaborators}.
Import TimelineEventManager FrigateCardTimelineCore.
Import DataSetProperties MonadProperties.

#[local] Instance window_kept_PreOrder : PreOrder window_kept.
Proof.
  split.
  - intros m. unfold window_kept. tauto.
  - intros a b c (H1 & H2 & H3 & H4) (G1 & G2 & G3 & G4).
    unfold window_kept. repeat split; auto. congruence.
Qed.

#[local] Instance retains_PreOrder : PreOrder retains.
Proof.
  split.
  - intros m. split; [apply incl_refl|reflexivity].
  - intros a b c [H1 H2] [G1 G2]. split.
    + now apply incl_tran with (DataSet.ids (dataset b)).
    + now transitivity b.
Qed.

#[local] Instance same_dataset_PreOrder : PreOrder same_dataset.
Proof.
  split.
  - intros m. reflexivity.
  - intros a b c Hab Hbc. unfold same_dataset in *. congruence.
Qed.

#[local] Instance on_manager_PreOrder
  (R : TimelineEventManager.t -> TimelineEventManager.t -> Prop)
  {PO : PreOrder R} : PreOrder (on_manager R).
Proof.
  split.
  - intros c. unfold on_manager. reflexivity.
  - intros a b c Hab Hbc. unfold on_manager in *. now transitivity (_events b).
Qed.

Lemma retains_window_kept (m m' : TimelineEventManager.t) :
  retains m m' -> window_kept m m'.
Proof. now intros [_ Hw]. Qed.

(** *** The manager *)

Lemma clear_window_kept (m : TimelineEventManager.t) : window_kept m (clear m).
Proof. unfold window_kept. cbn. tauto. Qed.

Lemma addMediaSource_retains
  (contentCallback tooltipCallback : option (Source.t -> string))
  (camera : string) (target : Source.t) (m : TimelineEventManager.t) :
  retains m (_addMediaSource contentCallback tooltipCallback camera target m).
Proof.
  split; [|unfold window_kept; cbn; tauto].
  destruct (MergeProperties.addMediaSource_extends contentCallback
              tooltipCallback camera target m) as (fresh & Hids & _).
  rewrite Hids. apply incl_appl, incl_refl.
Qed.

Lemma updateOnly_retains (item : Item.t) (m : TimelineEventManager.t) :
  retains m (TimelineEventManager.updateOnly item m).
Proof.
  split; [|unfold window_kept; cbn; tauto].
  unfold TimelineEventManager.updateOnly, dataset, DataSet.updateOnly. cbn.
  rewrite ids_updateItem. apply incl_refl.
Qed.

Lemma fetchEventsIfNecessary_sync_same_dataset (now : Z) (cameras : CameraMap)
  (media : TimelineMediaType) (start end_ : Z) :
  preserves same_dataset
    (fetchEventsIfNecessary_sync now cameras media start end_).
Proof.
  intros m. unfold fetchEventsIfNecessary_sync, bind at 1, get.
  destruct (hasCoverage m now start (Some end_)); [reflexivity|].
  cbn. unfold bind. rewrite FetchProperties._fetchEvents_sync_run. reflexivity.
Qed.

Lemma fetchEventsIfNecessary_sync_retains (now : Z) (cameras : CameraMap)
  (media : TimelineMediaType) (start end_ : Z) :
  preserves retains (fetchEventsIfNecessary_sync now cameras media start end_).
Proof.
  intros m. unfold fetchEventsIfNecessary_sync, bind at 1, get.
  destruct (hasCoverage m now start (Some end_)); [reflexivity|].
  cbn. unfold bind. rewrite FetchProperties._fetchEvents_sync_run. cbn.
  split; [apply incl_refl|]. unfold window_kept. cbn. tauto.
Qed.

Lemma fetchEventsIfNecessary_resume_retains
  (contentCallback tooltipCallback : option (Source.t -> string))
  (promise : option (list Pending))
  (arrivals : list (Pending * Settled Source.t)) :
  preserves retains
    (fetchEventsIfNecessary_resume contentCallback tooltipCallback promise
       arrivals).
Proof.
  destruct promise as [pending|]; [|intros m; reflexivity].
  intros m. rewrite FetchProperties.fetchEventsIfNecessary_resume_run. cbn.
  generalize (resolutions arrivals). intros answers. revert m.
  unfold merge_all.
  induction answers as [|a answers IH]; cbn [fold_left]; intros m;
    [reflexivity|].
  transitivity (_addMediaSource contentCallback tooltipCallback (fst a)
                  (snd a) m);
    [apply addMediaSource_retains|apply IH].
Qed.

(** *** The element *)

Section Lifted.
Variable R : TimelineEventManager.t -> TimelineEventManager.t -> Prop.
Context {PO : PreOrder R}.

Lemma preserves_on_events (A : Type) (code : M TimelineEventManager.t A) :
  preserves R code -> preserves (on_manager R) (on_events code).
Proof.
  intros Hcode c. specialize (Hcode (_events c)).
  unfold on_events, zoom, on_manager.
  now destruct (code (_events c)) as [[o m1] t1].
Qed.

Lemma preserves_set_thumbnails (th : option Source.t) :
  preserves (on_manager R) (modify (set_thumbnails th)).
Proof. intros c. unfold on_manager. cbn. reflexivity. Qed.

Lemma preserves_set_timeline (tl : option Timeline.t) :
  preserves (on_manager R) (modify (set_timeline tl)).
Proof. intros c. unfold on_manager. cbn. reflexivity. Qed.

#[local] Hint Resolve preserves_on_events preserves_set_thumbnails
  preserves_set_timeline : preserves.

Hypothesis sync_kept :
  forall now cameras media start end_,
    preserves R (fetchEventsIfNecessary_sync now cameras media start end_).
Hypothesis resume_kept :
  forall contentCallback tooltipCallback promise arrivals,
    preserves R
      (fetchEventsIfNecessary_resume contentCallback tooltipCallback promise
         arrivals).
Hypothesis updateOnly_kept :
  forall item m, R m (TimelineEventManager.updateOnly item m).

Lemma evolve_and_dispatch_kept (changes : ViewEvolveParameters) :
  preserves (on_manager R) (evolve_and_dispatch changes).
Proof. unfold evolve_and_dispatch. preserve. Qed.

Lemma setWindow_kept (start end_ : Z) :
  preserves (on_manager R) (setWindow start end_).
Proof. unfold setWindow, with_timeline. preserve. Qed.

Lemma setSelection_kept (ids : list string) :
  preserves (on_manager R) (setSelection ids).
Proof. unfold setSelection, with_timeline. preserve. Qed.

#[local] Hint Resolve evolve_and_dispatch_kept setWindow_kept setSelection_kept
  : preserves.

Lemma _generateThumbnails_kept : preserves (on_manager R) _generateThumbnails.
Proof. unfold _generateThumbnails. preserve. Qed.

#[local] Hint Resolve _generateThumbnails_kept : preserves.

Lemma _timelineSelectHandler_kept (items : list string) :
  preserves (on_manager R) (_timelineSelectHandler items).
Proof. unfold _timelineSelectHandler. preserve. Qed.

Lemma _timelineRangeHandler_kept (now : Z) (properties : RangeChanged.t) :
  preserves (on_manager R) (_timelineRangeHandler now properties).
Proof. unfold _timelineRangeHandler. preserve. Qed.

Lemma _timelineRangeHandler_then_kept (promise : option (list Pending))
  (arrivals : list (Pending * Settled Source.t)) :
  preserves (on_manager R) (_timelineRangeHandler_then promise arrivals).
Proof. unfold _timelineRangeHandler_then. preserve. Qed.

Lemma place_window_kept (event : option FrigateEvent.t)
  (windowStart windowEnd : Z) :
  preserves (on_manager R) (place_window event windowStart windowEnd).
Proof.
  unfold place_window, with_timeline. preserve.
  all: apply preserves_on_events, preserves_modify, updateOnly_kept.
Qed.

#[local] Hint Resolve place_window_kept : preserves.

Lemma _updateTimelineFromView_sync_kept (now : Z) :
  preserves (on_manager R) (_updateTimelineFromView_sync now).
Proof. unfold _updateTimelineFromView_sync. preserve. Qed.

Lemma _updateTimelineFromView_resume_kept (k : Suspended)
  (arrivals : list (Pending * Settled Source.t)) :
  preserves (on_manager R) (_updateTimelineFromView_resume k arrivals).
Proof. unfold _updateTimelineFromView_resume. preserve. Qed.

Lemma updated_timelineConfig_kept (now : Z) (changed : Changed.t) :
  preserves (on_manager R) (updated_timelineConfig now changed).
Proof. unfold updated_timelineConfig. preserve. Qed.

Lemma updated_view_kept (now : Z) (changed : Changed.t) :
  preserves (on_manager R) (updated_view now changed).
Proof.
  pose proof _updateTimelineFromView_sync_kept. unfold updated_view. preserve.
Qed.

Lemma updated_cameras_unchanged (changed : Changed.t) :
  Changed.cameras changed = false ->
  preserves (on_manager R) (updated_cameras changed).
Proof. intros Hno. unfold updated_cameras. rewrite Hno. preserve. Qed.

End Lifted.

Lemma fetchEventsIfNecessary_sync_window_kept (now : Z) (cameras : CameraMap)
  (media : TimelineMediaType) (start end_ : Z) :
  preserves window_kept
    (fetchEventsIfNecessary_sync now cameras media start end_).
Proof.
  apply preserves_weaken with (R := retains);
    [exact retains_window_kept|apply fetchEventsIfNecessary_sync_retains].
Qed.

(** The first step of [updated] on a change of cameras: it ends with an
    empty dataset. *)
Lemma updated_cameras_clears (changed : Changed.t) (c : FrigateCardTimelineCore.t) :
  Changed.cameras changed = true ->
  dataset (_events (state_of (updated_cameras changed c))) = DataSet.empty.
Proof.
  intros Hc. unfold updated_cameras. rewrite Hc.
  unfold bind, on_events, zoom, modify, get. cbn.
  destruct (_timeline c); reflexivity.
Qed.

Lemma updated_cameras_window_kept (changed : Changed.t) :
  preserves (on_manager window_kept) (updated_cameras changed).
Proof.
  unfold updated_cameras. preserve.
  all: first [ apply preserves_on_events, preserves_modify, clear_window_kept
             | apply preserves_set_timeline; typeclasses eauto ].
Qed.

Lemma updated_empties (now : Z) (changed : Changed.t)
  (c : FrigateCardTimelineCore.t) :
  Changed.cameras changed = true ->
  dataset (_events (state_of (updated now changed c))) = DataSet.empty.
Proof.
  intros Hc. unfold updated.
  assert (Hrest :
    forall a : unit,
      preserves (on_manager same_dataset)
        (updated_timelineConfig now changed ;; updated_view now changed)).
  { intros _. apply preserves_bind; [typeclasses eauto| |intros _].
    - apply updated_timelineConfig_kept. typeclasses eauto.
    - apply updated_view_kept; [typeclasses eauto|].
      exact fetchEventsIfNecessary_sync_same_dataset. }
  pose proof
    (bind_continues (R := on_manager same_dataset) (updated_cameras changed)
       (fun _ => updated_timelineConfig now changed ;; updated_view now changed)
       c Hrest) as Hsame.
  unfold on_manager, same_dataset in Hsame. rewrite Hsame.
  now apply updated_cameras_clears.
Qed.

Lemma updated_window_kept (now : Z) (changed : Changed.t) :
  preserves (on_manager window_kept) (updated now changed).
Proof.
  unfold updated. apply preserves_bind; [typeclasses eauto| |intros _].
  - apply updated_cameras_window_kept.
  - apply preserves_bind; [typeclasses eauto| |intros _].
    + apply updated_timelineConfig_kept. typeclasses eauto.
    + apply updated_view_kept; [typeclasses eauto|].
      exact fetchEventsIfNecessary_sync_window_kept.
Qed.

Lemma updated_retains (now : Z) (changed : Changed.t) :
  Changed.cameras changed = false ->
  preserves (on_manager retains) (updated now changed).
Proof.
  intros Hno. unfold updated. apply preserves_bind; [typeclasses eauto| |intros _].
  - apply updated_cameras_unchanged; [typeclasses eauto|exact Hno].
  - apply preserves_bind; [typeclasses eauto| |intros _].
    + apply updated_timelineConfig_kept. typeclasses eauto.
    + apply updated_view_kept; [typeclasses eauto|].
      exact fetchEventsIfNecessary_sync_retains.
Qed.

(** C3, as the code has it.  A change of the set of cameras empties the
    dataset and nothing else: [clear()] leaves the earliest date, the
    latest date, the last-fetch timestamp and the staleness threshold as
    they are, and after [updated] on a change of cameras the dataset is
    empty while every date that was set is still set and the threshold is
    unchanged.  No other operation removes an item from the dataset, and
    no operation clears a field of the Coverage Window: [updated] without
    a change of cameras, the range handler and its continuation, the
    selection handler, the thumbnail projection and the resumption of the
    view update all retain every item id and the Coverage Window. *)
Theorem camera_change_empties_dataset_only :
  (forall m,
      dataset (clear m) = DataSet.empty
      /\ _dateStart (clear m) = _dateStart m
      /\ _dateEnd (clear m) = _dateEnd m
      /\ _dateFetch (clear m) = _dateFetch m
      /\ _maxAgeSeconds (clear m) = _maxAgeSeconds m)
  /\ (forall now changed c,
         Changed.cameras changed = true ->
         dataset (_events (state_of (updated now changed c))) = DataSet.empty)
  /\ (forall now changed c,
         window_kept (_events c) (_events (state_of (updated now changed c))))
  /\ (forall now changed c,
         Changed.cameras changed = false ->
         retains (_events c) (_events (state_of (updated now changed c))))
  /\ (forall now properties c,
         retains (_events c)
           (_events (state_of (_timelineRangeHandler now properties c))))
  /\ (forall promise arrivals c,
         retains (_events c)
           (_events (state_of (_timelineRangeHandler_then promise arrivals c))))
  /\ (forall items c,
         retains (_events c)
           (_events (state_of (_timelineSelectHandler items c))))
  /\ (forall c,
         retains (_events c) (_events (state_of (_generateThumbnails c))))
  /\ (forall k arrivals c,
         retains (_events c)
           (_events (state_of (_updateTimelineFromView_resume k arrivals c)))).
Proof.
  repeat match goal with |- _ /\ _ => split end.
  - intros m. repeat split.
  - exact updated_empties.
  - intros now changed c. apply (updated_window_kept now changed c).
  - intros now changed c Hno. apply (@updated_retains now changed Hno c).
  - intros now properties c.
    apply (_timelineRangeHandler_kept (R := retains)
             fetchEventsIfNecessary_sync_retains now properties c).
  - intros promise arrivals c.
    apply (_timelineRangeHandler_then_kept (R := retains)
             fetchEventsIfNecessary_resume_retains promise arrivals c).
  - intros items c. apply (_timelineSelectHandler_kept (R := retains) items c).
  - intros c. apply (_generateThumbnails_kept (R := retains) c).
  - intros k arrivals c.
    apply (_updateTimelineFromView_resume_kept (R := retains)
             fetchEventsIfNecessary_resume_retains updateOnly_retains
             k arrivals c).
Qed.

End Retention.
End RetentionProperties.

(** The scenario of C3: the cameras change at 10:00:07, two seconds
    after the fetch; the dataset is emptied. *)
Lemma camera_change_empties_dataset_only_witness :
  TimelineEventManager.dataset
    (FrigateCardTimelineCore._events
       (state_of
          (FrigateCardTimelineCore.updated (Scenario.clock 10 0 7)
             (Changed.mk true false false) Scenario.core)))
  = DataSet.empty.
Proof.
  pose proof RetentionProperties.camera_change_empties_dataset_only
    as (_ & Hempties & _).
  apply Hempties. reflexivity.
Defined.

(** C3 as stated fails: after that change of cameras the Coverage Window
    is not cleared.  Its three dates are those of the fetch, and a query
    inside the window is still reported covered over the empty dataset. *)
Lemma camera_change_keeps_coverage_window :
  let m :=
    FrigateCardTimelineCore._events
      (state_of
         (FrigateCardTimelineCore.updated (Scenario.clock 10 0 7)
            (Changed.mk true false false) Scenario.core)) in
  m = TimelineEventManager.mk DataSet.empty (Some (Scenario.clock 10 0 0))
        (Some (Scenario.clock 11 0 0)) (Some (Scenario.clock 10 0 5)) 10
  /\ ~ (TimelineEventManager._dateStart m = None
        /\ TimelineEventManager._dateEnd m = None
        /\ TimelineEventManager._dateFetch m = None)
  /\ TimelineEventManager.hasCoverage m (Scenario.clock 10 0 8)
       (Scenario.clock 10 15 0) (Some (Scenario.clock 10 45 0)) = true.
Proof.
  cbv zeta. split; [reflexivity|]. split; [|reflexivity].
  intros (Hstart & _). discriminate Hstart.
Qed.

(** ** Thumbnail projection *)

Module ProjectionProperties.
Section Projection.
Context `{Collaborators}.
Import FrigateCardTimelineCore.

Lemma isEqual_source_true (a b : Source.t) :
  isEqual_source a b = true <-> a = b.
Proof.
  unfold isEqual_source. destruct (Source.source_eq_dec a b); split; congruence.
Qed.

Lemma isEqual_thumbnails_true (target : Source.t) (old : option Source.t) :
  isEqual_thumbnails target old = true <-> old = Some target.
Proof.
  destruct old as [th|]; cbn; [|split; discriminate].
  rewrite isEqual_source_true. split; [now intros ->|now intros [= ->]].
Qed.

(** C5, as the code has it.  Without a widget the projection does
    nothing.  With a widget: when it derives no media at all it returns
    early, keeping the previous playlist and dispatching nothing; when it
    derives at least one media entry it compares the new playlist with the
    previous one by deep structural equality, and exactly when they differ
    it adopts the new playlist and (if a view is held) notifies the view
    holder once, with the new playlist and the focus index, which is
    [null] when nothing selected was found. *)
Theorem thumbnails_notify_on_change :
  (forall c, _timeline c = None -> _generateThumbnails c = (Return tt, c, []))
  /\ (forall c timeline children childIndex,
         _timeline c = Some timeline ->
         projection c timeline = (children, childIndex) ->
         (children = [] -> _generateThumbnails c = (Return tt, c, []))
         /\ (children <> [] ->
             _thumbnails c = Some (playlist children) ->
             _generateThumbnails c = (Return tt, c, []))
         /\ (children <> [] ->
             _thumbnails c <> Some (playlist children) ->
             _generateThumbnails c
             = (Return tt, set_thumbnails (Some (playlist children)) c,
                match view c with
                | Some v =>
                    [dispatchChangeEvent v
                       {| evolve_target := Some (playlist children);
                          evolve_childIndex :=
                            Some (if childIndex <? 0 then None
                                  else Some childIndex);
                          evolve_context := None |}]
                | None => []
                end))).
Proof.
  split.
  - intros c Hnone. unfold _generateThumbnails, bind, get. now rewrite Hnone.
  - intros c timeline children childIndex Htimeline Hprojection.
    assert (Hrun :
      _generateThumbnails c
      = match children with
        | [] => (Return tt, c, [])
        | _ :: _ =>
            if negb (isEqual_thumbnails (playlist children) (_thumbnails c))
            then
              (modify (set_thumbnails (Some (playlist children))) ;;
               evolve_and_dispatch
                 {| evolve_target := Some (playlist children);
                    evolve_childIndex :=
                      Some (if childIndex <? 0 then None else Some childIndex);
                    evolve_context := None |}) c
            else (Return tt, c, [])
        end).
    { unfold _generateThumbnails. rewrite MonadProperties.bind_get.
      rewrite Htimeline, Hprojection.
      destruct children; [reflexivity|]. cbv zeta.
      destruct (negb _); reflexivity. }
    rewrite Hrun. clear Hrun.
    destruct children as [|child children];
      (split; [|split]); try congruence.
    + intros _ Hsame. apply isEqual_thumbnails_true in Hsame.
      now rewrite Hsame.
    + intros _ Hdiffer.
      destruct (isEqual_thumbnails (playlist (child :: children))
                  (_thumbnails c)) eqn:E.
      * apply isEqual_thumbnails_true in E. contradiction.
      * unfold evolve_and_dispatch, bind, get, modify. cbn.
        destruct (view c); reflexivity.
Qed.

End Projection.
End ProjectionProperties.

(** With every kind of media wanted, the snapshot of [event1] is
    projected; the playlist differs from the previous one (which held the
    clip) and is dispatched once. *)
Lemma thumbnails_notify_on_change_witness :
  FrigateCardTimelineCore._generateThumbnails Scenario.core_all
  = (Return tt,
     FrigateCardTimelineCore.set_thumbnails
       (Some (FrigateCardTimelineCore.playlist [Scenario.snapshot1]))
       Scenario.core_all,
     [dispatchChangeEvent Scenario.view_live
        {| evolve_target :=
             Some (FrigateCardTimelineCore.playlist [Scenario.snapshot1]);
           evolve_childIndex := Some None;
           evolve_context := None |}]).
Proof.
  pose proof ProjectionProperties.thumbnails_notify_on_change as (_ & Hwidget).
  destruct (Hwidget Scenario.core_all Scenario.widget [Scenario.snapshot1] (-1)
              eq_refl eq_refl) as (_ & _ & Hdiffer).
  apply Hdiffer; discriminate.
Defined.

(** C5 as stated fails in its scenario: one event with only a snapshot,
    filter on clips, a previous playlist that is not empty.  The
    projection derives no media, the empty playlist differs from the
    previous one, and yet nothing is adopted and nothing is dispatched. *)
Lemma snapshot_only_under_clips_dispatches_nothing :
  DataSet.ids
    (TimelineEventManager.dataset
       (FrigateCardTimelineCore._events Scenario.core))
  = ["event-1"%string]
  /\ option_map Item.clip
       (DataSet.get
          (TimelineEventManager.dataset
             (FrigateCardTimelineCore._events Scenario.core)) "event-1")
     = Some None
  /\ FrigateCardTimelineCore.projection Scenario.core Scenario.widget
     = ([], -1)
  /\ FrigateCardTimelineCore._thumbnails Scenario.core
     = Some (FrigateCardTimelineCore.playlist [Scenario.clip1])
  /\ FrigateCardTimelineCore.playlist []
     <> FrigateCardTimelineCore.playlist [Scenario.clip1]
  /\ FrigateCardTimelineCore._generateThumbnails Scenario.core
     = (Return tt, Scenario.core, []).
Proof. repeat split. discriminate. Qed.

(** ** The range handler *)

Module RangeProperties.
Section Range.
Context `{Collaborators}.
Import FrigateCardTimelineCore.

(** C9, as the code has it.  A range change that is not flagged as
    user-initiated does nothing at all.  A user-initiated one, when hass,
    the cameras, the widget and the configuration are all present, starts
    the coverage check and, in the same synchronous run, dispatches the
    view evolved with the widget's window as its context (if a view is
    held): the dispatch follows the queries the check issued and precedes
    every answer, and the dataset is as it was.  A user-initiated one with
    any of the four absent only logs the range change. *)
Theorem range_change_by_user_persists_window :
  (forall now properties c,
      RangeChanged.byUser properties = false ->
      _timelineRangeHandler now properties c = (Return None, c, []))
  /\ (forall now properties c cams timeline cfg,
         RangeChanged.byUser properties = true ->
         hass c = true -> cameras c = Some cams ->
         _timeline c = Some timeline -> timelineConfig c = Some cfg ->
         exists promise m' queries,
           TimelineEventManager.fetchEventsIfNecessary_sync now cams
             (media cfg) (RangeChanged.start properties)
             (RangeChanged.end_ properties) (_events c)
           = (Return promise, m', queries)
           /\ TimelineEventManager.dataset m'
              = TimelineEventManager.dataset (_events c)
           /\ _timelineRangeHandler now properties c
              = (Return (Some promise), set_events m' c,
                 console_info
                   (log_range_changed (RangeChanged.start properties)
                      (RangeChanged.end_ properties)
                      (DataSet.length
                         (TimelineEventManager.dataset (_events c))))
                 :: queries
                 ++ match view c with
                    | Some v =>
                        [dispatchChangeEvent v
                           {| evolve_target := None;
                              evolve_childIndex := None;
                              evolve_context :=
                                Some {| window :=
                                          Some (Timeline.window timeline) |} |}]
                    | None => []
                    end))
  /\ (forall now properties c,
         RangeChanged.byUser properties = true ->
         hass c = false \/ cameras c = None \/ _timeline c = None
         \/ timelineConfig c = None ->
         _timelineRangeHandler now properties c
         = (Return None, c,
            [console_info
               (log_range_changed (RangeChanged.start properties)
                  (RangeChanged.end_ properties)
                  (DataSet.length
                     (TimelineEventManager.dataset (_events c))))])).
Proof.
  split; [|split].
  - intros now properties c Hby. unfold _timelineRangeHandler.
    now rewrite Hby.
  - intros now properties c cams timeline cfg Hby Hhass Hcams Htl Hcfg.
    destruct (TimelineEventManager.fetchEventsIfNecessary_sync now cams
                (media cfg) (RangeChanged.start properties)
                (RangeChanged.end_ properties) (_events c))
      as [[o m'] queries] eqn:Hsync.
    pose proof (RetentionProperties.fetchEventsIfNecessary_sync_same_dataset
                  now cams (media cfg) (RangeChanged.start properties)
                  (RangeChanged.end_ properties) (_events c)) as Hsame.
    rewrite Hsync in Hsame. cbn in Hsame.
    destruct (FetchProperties.fetchEventsIfNecessary_sync_returns now cams
                (media cfg) (RangeChanged.start properties)
                (RangeChanged.end_ properties) (_events c))
      as (promise & m1 & e1 & Hret).
    rewrite Hsync in Hret. injection Hret as -> -> ->.
    exists promise, m1, e1. split; [reflexivity|]. split; [exact Hsame|].
    unfold _timelineRangeHandler. rewrite Hby. cbn [negb].
    unfold bind at 1, get. unfold bind at 1, emit.
    rewrite Hhass, Hcams, Htl, Hcfg.
    unfold bind at 1, on_events, zoom. rewrite Hsync.
    unfold evolve_and_dispatch, bind, get. cbn.
    destruct (view c); cbn; rewrite ?app_nil_r; reflexivity.
  - intros now properties c Hby Habsent. unfold _timelineRangeHandler.
    rewrite Hby. cbn [negb]. unfold bind, get, emit.
    destruct Habsent as [Ha|[Ha|[Ha|Ha]]]; rewrite Ha;
      destruct (hass c); try destruct (cameras c);
      try destruct (_timeline c); try destruct (timelineConfig c);
      try discriminate; reflexivity.
Qed.

End Range.
End RangeProperties.

(** A pan by the user at 10:00:07, with everything present: coverage is
    there (the fetch is two seconds old), no query is issued, and the
    window of the widget is dispatched as the context of the view. *)
Lemma range_change_by_user_persists_window_witness :
  FrigateCardTimelineCore._timelineRangeHandler (Scenario.clock 10 0 7)
    (RangeChanged.mk (Scenario.clock 10 0 0) (Scenario.clock 10 30 0) false)
    Scenario.core
  = (Return None, Scenario.core, [])
  /\ exists promise m' queries,
       FrigateCardTimelineCore._timelineRangeHandler (Scenario.clock 10 0 7)
         (RangeChanged.mk (Scenario.clock 10 0 0) (Scenario.clock 10 30 0) true)
         Scenario.core
       = (Return (Some promise),
          FrigateCardTimelineCore.set_events m' Scenario.core,
          console_info
            (log_range_changed (Scenario.clock 10 0 0) (Scenario.clock 10 30 0)
               1)
          :: queries
          ++ [dispatchChangeEvent Scenario.view_live
                {| evolve_target := None;
                   evolve_childIndex := None;
                   evolve_context :=
                     Some {| window :=
                               Some (Timeline.window Scenario.widget) |} |}]).
Proof.
  pose proof RangeProperties.range_change_by_user_persists_window
    as (Hsilent & Hpersists & _).
  split.
  - apply Hsilent. reflexivity.
  - destruct (Hpersists (Scenario.clock 10 0 7)
                (RangeChanged.mk (Scenario.clock 10 0 0)
                   (Scenario.clock 10 30 0) true)
                Scenario.core Scenario.cams Scenario.widget
                Scenario.config_clips eq_refl eq_refl eq_refl eq_refl eq_refl)
      as (promise & m' & queries & _ & _ & Hrun).
    exists promise, m', queries. exact Hrun.
Defined.

(** C9 as stated fails: a pan by the user while [hass] is absent is
    logged and nothing else; the window is not persisted and the view
    holder is not notified. *)
Lemma pan_without_hass_is_not_persisted :
  RangeChanged.byUser Scenario.pan = true
  /\ FrigateCardTimelineCore._timelineRangeHandler (Scenario.clock 10 0 7)
       Scenario.pan Scenario.core_without_hass
     = (Return None, Scenario.core_without_hass,
        [console_info
           (log_range_changed (Scenario.clock 8 0 0) (Scenario.clock 9 0 0) 1)])
  /\ forall v changes,
       ~ In (dispatchChangeEvent v changes)
           (effects_of
              (FrigateCardTimelineCore._timelineRangeHandler
                 (Scenario.clock 10 0 7) Scenario.pan
                 Scenario.core_without_hass)).
Proof.
  split; [reflexivity|]. split; [reflexivity|].
  intros v changes [Heq|[]]. discriminate Heq.
Qed.

(** ** Window placement *)

Module PlacementProperties.
Section Placement.
Context `{Collaborators}.
Import FrigateCardTimelineCore MonadProperties.

Lemma isEqual_window_true (a b : TimelineWindow.t) :
  TimelineWindow.isEqual a b = true <-> a = b.
Proof.
  unfold TimelineWindow.isEqual. rewrite andb_true_iff, !Z.eqb_eq.
  destruct a, b; cbn. split; [intros [-> ->]; reflexivity|now intros [= -> ->]].
Qed.

(** The visibility test reads the raw timestamps of the event. *)
Lemma event_outside_raw (event : FrigateEvent.t) (w : TimelineWindow.t) :
  event_outside event w = true
  <-> FrigateEvent.start_time event * 1000 < TimelineWindow.start w
      \/ FrigateEvent.start_time event * 1000 > TimelineWindow.end_ w
      \/ exists e,
           FrigateEvent.end_time event = Some e /\ e <> 0
           /\ (e * 1000 < TimelineWindow.start w
               \/ e * 1000 > TimelineWindow.end_ w).
Proof.
  unfold event_outside, JS.truthy_number.
  rewrite !orb_true_iff, Z.ltb_lt, Z.gtb_gt.
  destruct (FrigateEvent.end_time event) as [e|].
  - destruct (Z.eqb_spec e 0) as [->|Hne]; cbn [negb].
    + split; [intros [[?|?]|?]; [tauto|tauto|discriminate]|].
      intros [?|[?|(e & [= <-] & Hne & _)]]; [tauto|tauto|congruence].
    + rewrite orb_true_iff, Z.ltb_lt, Z.gtb_gt. split.
      * intros [[?|?]|?]; [tauto|tauto|]. right. right. now exists e.
      * intros [?|[?|(e' & [= <-] & _ & ?)]]; tauto.
  - split; [intros [[?|?]|?]; [tauto|tauto|discriminate]|].
    intros [?|[?|(e & ? & _)]]; [tauto|tauto|discriminate].
Qed.

Lemma set_dataset_same (m : TimelineEventManager.t) :
  TimelineEventManager.set_dataset (TimelineEventManager._dataset m) m = m.
Proof. now destruct m. Qed.

Lemma set_events_same (c : t) : set_events (_events c) c = c.
Proof. now destruct c. Qed.

(** The clustering step at the end of the event branch leaves the
    element as it is. *)
Lemma recluster_run (c : t) (ev : FrigateEvent.t) :
  (c0 <- get ;;
   if _isClustering c0
   then
     match DataSet.get (TimelineEventManager.dataset (_events c0))
             (FrigateEvent.id ev) with
     | Some item => on_events (modify (TimelineEventManager.updateOnly item))
     | None => ret tt
     end
   else ret tt) c
  = (Return tt, c, []).
Proof.
  rewrite bind_get. destruct (_isClustering c); [|reflexivity].
  destruct (DataSet.get _ _) as [item|] eqn:Hget; [|reflexivity].
  unfold on_events, zoom, modify, TimelineEventManager.updateOnly,
    TimelineEventManager.dataset in *.
  rewrite (DataSetProperties.updateOnly_get _ _ Hget).
  now rewrite set_dataset_same, set_events_same.
Qed.

(** A persisted window that differs from the widget's window is applied,
    whatever the event. *)
Lemma place_window_persisted (c : t) (v : View.t) (timeline : Timeline.t)
  (w : TimelineWindow.t) (event : option FrigateEvent.t)
  (windowStart windowEnd : Z) :
  view c = Some v -> _timeline c = Some timeline ->
  View.context_window v = Some w ->
  w <> Timeline.window timeline ->
  place_window event windowStart windowEnd c
  = (Return tt,
     set_timeline (Some (Timeline.mk w (Timeline.selection timeline))) c,
     [console_info (log_window_from_context w);
      timeline_setWindow (TimelineWindow.start w) (TimelineWindow.end_ w)]).
Proof.
  intros Hview Htl Hctx Hne.
  unfold place_window. rewrite bind_get, Hview.
  unfold with_timeline. rewrite bind_get, Htl, Hctx.
  rewrite bind_emit.
  destruct (TimelineWindow.isEqual w (Timeline.window timeline)) eqn:E.
  - apply isEqual_window_true in E. contradiction.
  - cbn [negb]. unfold setWindow, with_timeline.
    rewrite bind_get, Htl, bind_modify. cbn. now destruct w.
Qed.

(** The whole resumption of [_updateTimelineFromView] when no fetch was
    needed: the selection is set to the focused event and then the
    persisted window, which differs from the widget's window, is
    applied. *)
Lemma update_from_view_applies_persisted (c : t) (v : View.t)
  (timeline : Timeline.t) (w : TimelineWindow.t) (k : Suspended)
  (arrivals : list (TimelineEventManager.Pending * Settled Source.t)) :
  suspended_promise k = None ->
  view c = Some v -> _timeline c = Some timeline ->
  View.context_window v = Some w ->
  w <> Timeline.window timeline ->
  let ids :=
    match suspended_event k with
    | Some ev => [FrigateEvent.id ev]
    | None => []
    end in
  _updateTimelineFromView_resume k arrivals c
  = (Return tt, set_timeline (Some (Timeline.mk w ids)) c,
     [timeline_setSelection ids;
      console_info (log_window_from_context w);
      timeline_setWindow (TimelineWindow.start w) (TimelineWindow.end_ w)]).
Proof.
  intros Hpromise Hview Htl Hctx Hne ids.
  unfold _updateTimelineFromView_resume. rewrite bind_get, Hpromise.
  unfold on_events, zoom, TimelineEventManager.fetchEventsIfNecessary_resume.
  unfold bind at 1. cbn [ret]. rewrite set_events_same.
  unfold bind at 1. cbn [ret]. fold ids.
  unfold bind at 1, setSelection, with_timeline.
  rewrite bind_get, Htl, bind_modify. cbn [emit].
  rewrite (@place_window_persisted _ v
             (Timeline.mk (Timeline.window timeline) ids) w);
    try assumption; [|reflexivity].
  cbn. now destruct c.
Qed.

(** C4.  Placement of the widget's window follows the precedence of the
    specification.  A persisted window of the View Context that differs
    from the widget's window (by its start and end) is applied, whatever
    event is focused; a persisted window equal to the widget's window
    leaves the widget alone, and the focused event is not consulted.
    Only without a persisted window is the focused event looked at: the
    padded event window is applied exactly when the event, by its raw
    timestamps, lies outside the widget's window.  With neither a
    persisted window nor a focused event the computed window is applied
    unconditionally. *)
Theorem window_placement_precedence :
  (forall c v timeline w event windowStart windowEnd,
      view c = Some v -> _timeline c = Some timeline ->
      View.context_window v = Some w ->
      w <> Timeline.window timeline ->
      place_window event windowStart windowEnd c
      = (Return tt,
         set_timeline (Some (Timeline.mk w (Timeline.selection timeline))) c,
         [console_info (log_window_from_context w);
          timeline_setWindow (TimelineWindow.start w) (TimelineWindow.end_ w)]))
  /\ (forall c v timeline w event windowStart windowEnd,
         view c = Some v -> _timeline c = Some timeline ->
         View.context_window v = Some w ->
         w = Timeline.window timeline ->
         place_window event windowStart windowEnd c
         = (Return tt, c, [console_info (log_window_from_context w)]))
  /\ (forall c v timeline event windowStart windowEnd,
         view c = Some v -> _timeline c = Some timeline ->
         View.context_window v = None ->
         (event_outside event (Timeline.window timeline) = true ->
          place_window (Some event) windowStart windowEnd c
          = (Return tt,
             set_timeline
               (Some (Timeline.mk (TimelineWindow.mk windowStart windowEnd)
                        (Timeline.selection timeline))) c,
             [console_info (log_window_from_event windowStart windowEnd);
              timeline_setWindow windowStart windowEnd]))
         /\ (event_outside event (Timeline.window timeline) = false ->
             place_window (Some event) windowStart windowEnd c
             = (Return tt, c, [])))
  /\ (forall c v timeline windowStart windowEnd,
         view c = Some v -> _timeline c = Some timeline ->
         View.context_window v = None ->
         place_window None windowStart windowEnd c
         = (Return tt,
            set_timeline
              (Some (Timeline.mk (TimelineWindow.mk windowStart windowEnd)
                       (Timeline.selection timeline))) c,
            [console_info (log_window_from_live windowStart windowEnd);
             timeline_setWindow windowStart windowEnd]))
  /\ (forall event w,
         event_outside event w = true
         <-> FrigateEvent.start_time event * 1000 < TimelineWindow.start w
             \/ FrigateEvent.start_time event * 1000 > TimelineWindow.end_ w
             \/ exists e,
                  FrigateEvent.end_time event = Some e /\ e <> 0
                  /\ (e * 1000 < TimelineWindow.start w
                      \/ e * 1000 > TimelineWindow.end_ w)).
Proof.
  split; [|split; [|split; [|split]]].
  - exact place_window_persisted.
  - intros c v timeline w event windowStart windowEnd Hview Htl Hctx Heq.
    unfold place_window. rewrite bind_get, Hview.
    unfold with_timeline. rewrite bind_get, Htl, Hctx.
    rewrite bind_emit.
    apply isEqual_window_true in Heq. rewrite Heq. reflexivity.
  - intros c v timeline event windowStart windowEnd Hview Htl Hctx.
    split; intros Hout.
    + unfold place_window. rewrite bind_get, Hview.
      unfold with_timeline at 1. rewrite bind_get, Htl, Hctx, Hout.
      unfold bind at 1. unfold bind at 1, emit.
      unfold setWindow, with_timeline. rewrite bind_get, Htl, bind_modify.
      cbn -[bind get _isClustering on_events].
      rewrite recluster_run. reflexivity.
    + unfold place_window. rewrite bind_get, Hview.
      unfold with_timeline at 1. rewrite bind_get, Htl, Hctx, Hout.
      rewrite bind_ret. apply recluster_run.
  - intros c v timeline windowStart windowEnd Hview Htl Hctx.
    unfold place_window. rewrite bind_get, Hview.
    unfold with_timeline at 1. rewrite bind_get, Htl, Hctx.
    rewrite bind_emit. unfold setWindow, with_timeline.
    rewrite bind_get, Htl, bind_modify. reflexivity.
  - exact event_outside_raw.
Qed.

End Placement.
End PlacementProperties.

(** The view focuses [event1], which lies outside the widget's window
    (9:00 to 10:00), and carries the window of an earlier pan (7:00 to
    8:00): the persisted window is the one applied. *)
Lemma window_placement_precedence_witness :
  FrigateCardTimelineCore.event_outside Scenario.event1
    (Timeline.window Scenario.widget) = true
  /\ FrigateCardTimelineCore.place_window (Some Scenario.event1)
       (fst (FrigateCardTimelineCore._getStartEndFromEvent Scenario.event1))
       (snd (FrigateCardTimelineCore._getStartEndFromEvent Scenario.event1))
       (Scenario.core_with Scenario.view_event1_panned)
     = (Return tt,
        FrigateCardTimelineCore.set_timeline
          (Some (Timeline.mk Scenario.persisted []))
          (Scenario.core_with Scenario.view_event1_panned),
        [console_info (log_window_from_context Scenario.persisted);
         timeline_setWindow (Scenario.clock 7 0 0) (Scenario.clock 8 0 0)]).
Proof.
  split; [reflexivity|].
  pose proof PlacementProperties.window_placement_precedence as (Hpersisted & _).
  apply (Hpersisted (Scenario.core_with Scenario.view_event1_panned)
           Scenario.view_event1_panned Scenario.widget Scenario.persisted);
    try reflexivity.
  discriminate.
Defined.

(** * Further properties of the manager *)

Module WindowProperties.
Section Window.
Context `{Collaborators}.
Import TimelineEventManager.

Lemma widened_start_min (m : t) (start d : Z) :
  _dateStart m = Some d -> widened_start m start = Z.min d start.
Proof.
  intros Hd. unfold widened_start. rewrite Hd.
  destruct (Z.ltb_spec start d); lia.
Qed.

Lemma widened_end_max (m : t) (end_ d : Z) :
  _dateEnd m = Some d -> widened_end m end_ = Z.max d end_.
Proof.
  intros Hd. unfold widened_end. rewrite Hd.
  destruct (Z.gtb_spec end_ d); lia.
Qed.

Lemma widened_start_within (m : t) (start d : Z) :
  _dateStart m = Some d -> d <= start -> widened_start m start = d.
Proof.
  intros Hd Hle. unfold widened_start. rewrite Hd.
  destruct (Z.ltb_spec start d); [lia|reflexivity].
Qed.

Lemma widened_end_within (m : t) (end_ d : Z) :
  _dateEnd m = Some d -> end_ <= d -> widened_end m end_ = d.
Proof.
  intros Hd Hle. unfold widened_end. rewrite Hd.
  destruct (Z.gtb_spec end_ d); [lia|reflexivity].
Qed.

Lemma last_nonempty (A : Type) (l : list A) (y d d' : A) :
  last (y :: l) d = last (y :: l) d'.
Proof.
  revert y. induction l as [|z l IH]; intros y; [reflexivity|].
  change (last (z :: l) d = last (z :: l) d'). apply IH.
Qed.

Lemma last_cons (A : Type) (l : list A) (x d : A) :
  last (x :: l) d = last l x.
Proof.
  destruct l as [|y l]; [reflexivity|].
  change (last (y :: l) d = last (y :: l) x). apply last_nonempty.
Qed.

Lemma fetch_all_from_set (cameras : CameraMap) (media : TimelineMediaType)
  (requested : list FetchRequest) (m : t) (a b f : Z) :
  _dateStart m = Some a -> _dateEnd m = Some b -> _dateFetch m = Some f ->
  let m' := fetch_all cameras media requested m in
  _dateStart m' = Some (fold_left Z.min (map request_start requested) a)
  /\ _dateEnd m' = Some (fold_left Z.max (map request_end requested) b)
  /\ _dateFetch m' = Some (last (map request_now requested) f)
  /\ _dataset m' = _dataset m
  /\ _maxAgeSeconds m' = _maxAgeSeconds m.
Proof.
  revert m a b f. unfold fetch_all, state_of.
  induction requested as [|r requested IH]; intros m a b f Ha Hb Hf.
  - cbn. auto.
  - cbn [fold_left map]. rewrite FetchProperties._fetchEvents_sync_run.
    cbn [fst snd].
    match goal with
    | |- context [fold_left _ requested ?m1] =>
        destruct (IH m1 _ _ _ eq_refl eq_refl eq_refl)
          as (Hs & He & Hfetch & Hds & Hage)
    end.
    cbv zeta. rewrite Hs, He, Hfetch, Hds, Hage.
    rewrite (widened_start_min _ _ Ha), (widened_end_max _ _ Hb).
    repeat split. f_equal. symmetry. apply last_cons.
Qed.

(** X1.  Monotonic widening: after any non-empty run of calls of
    [_fetchEvents] on a new manager, the stored earliest date is the
    minimum of all requested starts, the stored latest date the maximum
    of all requested ends, the last-fetch timestamp the clock of the last
    call; the dataset and the threshold are untouched by the synchronous
    parts. *)
Theorem fetches_widen_to_min_and_max (cameras : CameraMap)
  (media : TimelineMediaType) (r : FetchRequest)
  (requested : list FetchRequest) :
  let m := fetch_all cameras media (r :: requested) new in
  _dateStart m
  = Some (fold_left Z.min (map request_start requested) (request_start r))
  /\ _dateEnd m
     = Some (fold_left Z.max (map request_end requested) (request_end r))
  /\ _dateFetch m = Some (last (map request_now requested) (request_now r))
  /\ _dataset m = DataSet.empty
  /\ _maxAgeSeconds m = TIMELINE_EVENT_MANAGER_MAX_AGE_SECONDS.
Proof.
  cbv zeta. unfold fetch_all. cbn [fold_left].
  rewrite FetchProperties._fetchEvents_sync_run. unfold state_of at 2.
  cbn [fst snd].
  apply (fetch_all_from_set cameras media requested
           (mk (_dataset new) (Some (widened_start new (request_start r)))
              (Some (widened_end new (request_end r))) (Some (request_now r))
              (_maxAgeSeconds new))
           eq_refl eq_refl eq_refl).
Qed.

Lemma fold_min_le (l : list Z) (a : Z) :
  fold_left Z.min l a <= a /\ forall x, In x l -> fold_left Z.min l a <= x.
Proof.
  revert a. induction l as [|y l IH]; intros a; cbn; [split; [lia|tauto]|].
  destruct (IH (Z.min a y)) as [H1 H2]. split; [lia|].
  intros x [<-|Hin]; [lia|auto].
Qed.

(** The run of the coverage-ensuring call in its two cases. *)
Lemma fetchEventsIfNecessary_sync_covered (now : Z) (cameras : CameraMap)
  (media : TimelineMediaType) (start end_ : Z) (m : t) :
  hasCoverage m now start (Some end_) = true ->
  fetchEventsIfNecessary_sync now cameras media start end_ m
  = (Return None, m, []).
Proof.
  intros Hcov. unfold fetchEventsIfNecessary_sync, bind, get. now rewrite Hcov.
Qed.

Lemma fetchEventsIfNecessary_sync_uncovered (now : Z) (cameras : CameraMap)
  (media : TimelineMediaType) (start end_ : Z) (m : t) :
  hasCoverage m now start (Some end_) = false ->
  let pending :=
    queries_for cameras (widened_start m start) (widened_end m end_)
      (requests cameras media) in
  fetchEventsIfNecessary_sync now cameras media start end_ m
  = (Return (Some pending),
     mk (_dataset m) (Some (widened_start m start))
        (Some (widened_end m end_)) (Some now) (_maxAgeSeconds m),
     map (fun p => browseMediaQuery (fst p) (snd p)) pending).
Proof.
  intros Hcov pending. unfold fetchEventsIfNecessary_sync, bind at 1, get.
  rewrite Hcov. cbn. unfold bind.
  rewrite FetchProperties._fetchEvents_sync_run. run_done.
Qed.

(** X2.  After the coverage-ensuring call, whether it fetched or not, the
    stored window holds the requested range up to the threshold: the
    stored earliest date is at or before the requested start, and the
    requested end is either before the stored latest date or beyond it by
    at most the threshold. *)
Theorem ensured_range_is_in_window (now : Z) (cameras : CameraMap)
  (media : TimelineMediaType) (start end_ : Z) (m : t) :
  let m' :=
    state_of (fetchEventsIfNecessary_sync now cameras media start end_ m) in
  exists dateStart dateEnd,
    _dateStart m' = Some dateStart /\ _dateEnd m' = Some dateEnd
    /\ dateStart <= start
    /\ (end_ <= dateEnd \/ end_ - _maxAgeSeconds m' * 1000 <= dateEnd).
Proof.
  cbv zeta. destruct (hasCoverage m now start (Some end_)) eqn:Hcov.
  - rewrite (fetchEventsIfNecessary_sync_covered _ _ _ _ _ _ Hcov).
    unfold state_of. cbn [fst snd]. unfold hasCoverage in Hcov.
    destruct (_dateFetch m); [|discriminate].
    destruct (_dateStart m) as [s|]; [|discriminate].
    destruct (_dateEnd m) as [e|]; [|discriminate].
    destruct (_ && _); [discriminate|].
    destruct (Z.ltb_spec start s); [discriminate|].
    exists s, e. repeat split; [assumption|].
    destruct (Z.ltb_spec end_ e); [left; lia|].
    destruct (negb _); [discriminate|].
    destruct (_ >? _); [discriminate|].
    right. now apply Z.leb_le.
  - rewrite (fetchEventsIfNecessary_sync_uncovered _ _ _ _ _ _ Hcov).
    unfold state_of. cbn [fst snd _dateStart _dateEnd].
    exists (widened_start m start), (widened_end m end_).
    repeat split.
    + unfold widened_start. destruct (_dateStart m) as [d|]; [|lia].
      destruct (Z.ltb_spec start d); lia.
    + left. unfold widened_end. destruct (_dateEnd m) as [d|]; [|lia].
      destruct (Z.gtb_spec end_ d); lia.
Qed.

(** X3.  A fetch gives coverage to everything strictly inside the widened
    window for as long as it is fresh: a second call for a range that
    starts at or after the stored earliest date and ends before the
    stored latest date, made no later than the threshold after the fetch,
    issues no query and changes nothing. *)
Theorem fetch_covers_inside_while_fresh (now now' : Z) (cameras : CameraMap)
  (media media' : TimelineMediaType) (start end_ start' end' : Z) (m : t) :
  now' - now <= _maxAgeSeconds m * 1000 ->
  widened_start m start <= start' -> end' < widened_end m end_ ->
  let m1 :=
    state_of (_fetchEvents_sync now cameras media (Some start) (Some end_) m) in
  fetchEventsIfNecessary_sync now' cameras media' start' end' m1
  = (Return None, m1, []).
Proof.
  intros Hfresh Hstart Hend. cbv zeta.
  rewrite FetchProperties._fetchEvents_sync_run. unfold state_of.
  cbn [fst snd]. apply fetchEventsIfNecessary_sync_covered.
  apply CoverageProperties.hasCoverage_inside_fresh
    with (f := now) (s := widened_start m start) (d := widened_end m end_);
    try reflexivity; assumption.
Qed.

(** A query that reaches the stored latest date and whose end is older
    than the threshold is not covered, however fresh the fetch. *)
Lemma hasCoverage_old_end (m : t) (now start e : Z) :
  (forall d, _dateEnd m = Some d -> d <= e) ->
  now - e > _maxAgeSeconds m * 1000 ->
  hasCoverage m now start (Some e) = false.
Proof.
  intros Hreach Hold. unfold hasCoverage.
  destruct (_dateFetch m); [|reflexivity].
  destruct (_dateStart m); [|reflexivity].
  destruct (_dateEnd m) as [d|]; [|reflexivity].
  specialize (Hreach d eq_refl).
  destruct (_ && _); [reflexivity|].
  destruct (_ <? _); [reflexivity|].
  destruct (Z.ltb_spec e d); [lia|].
  destruct (negb _); [reflexivity|].
  destruct (Z.gtb_spec (now - e) (_maxAgeSeconds m * 1000)); [reflexivity|lia].
Qed.

(** X4.  A window whose end lies further in the past than the threshold is
    fetched again every time it is asked for: right after a fetch of a
    range that reaches the stored latest date, the same range is not
    covered, and the coverage-ensuring call issues its queries again. *)
Theorem old_window_is_fetched_again (now now' : Z) (cameras : CameraMap)
  (media : TimelineMediaType) (start end_ : Z) (m : t) :
  (forall d, _dateEnd m = Some d -> d <= end_) ->
  now' - end_ > _maxAgeSeconds m * 1000 ->
  let m1 :=
    state_of (_fetchEvents_sync now cameras media (Some start) (Some end_) m) in
  hasCoverage m1 now' start (Some end_) = false
  /\ fetchEventsIfNecessary_sync now' cameras media start end_ m1
     = (Return
          (Some (queries_for cameras (widened_start m start) end_
                   (requests cameras media))),
        mk (_dataset m) (Some (widened_start m start)) (Some end_) (Some now')
           (_maxAgeSeconds m),
        map (fun p => browseMediaQuery (fst p) (snd p))
          (queries_for cameras (widened_start m start) end_
             (requests cameras media))).
Proof.
  intros Hreach Hold. cbv zeta.
  rewrite FetchProperties._fetchEvents_sync_run. unfold state_of.
  cbn [fst snd].
  assert (Hend : widened_end m end_ = end_).
  { unfold widened_end. destruct (_dateEnd m) as [d|]; [|reflexivity].
    specialize (Hreach d eq_refl). destruct (Z.gtb_spec end_ d); lia. }
  rewrite Hend.
  set (m1 := mk _ _ _ _ _).
  assert (Hcov : hasCoverage m1 now' start (Some end_) = false).
  { apply hasCoverage_old_end; [|exact Hold].
    subst m1. cbn. intros d [= <-]. lia. }
  split; [exact Hcov|].
  rewrite (fetchEventsIfNecessary_sync_uncovered _ _ _ _ _ _ Hcov).
  assert (Hws : widened_start m start <= start).
  { unfold widened_start. destruct (_dateStart m) as [d|]; [|lia].
    destruct (Z.ltb_spec start d); lia. }
  cbv zeta.
  rewrite (@widened_start_within m1 start (widened_start m start) eq_refl Hws).
  rewrite (@widened_end_within m1 end_ end_ eq_refl (Z.le_refl _)).
  reflexivity.
Qed.

(** X5.  Coverage never comes back by waiting: a query covered at some
    clock is covered at every earlier clock, so once a query is reported
    uncovered it stays uncovered until the next fetch. *)
Theorem coverage_is_lost_not_regained (m : t) (now now' start : Z)
  (end_ : option Z) :
  now <= now' ->
  hasCoverage m now' start end_ = true ->
  hasCoverage m now start end_ = true.
Proof.
  intros Hle. unfold hasCoverage.
  destruct (_dateFetch m) as [f|]; [|discriminate].
  destruct (_dateStart m) as [s|]; [|discriminate].
  destruct (_dateEnd m) as [d|]; [|discriminate].
  destruct (JS.truthy_number (_maxAgeSeconds m)); cbn [andb negb].
  - destruct (Z.gtb_spec (now' - f) (_maxAgeSeconds m * 1000)); [discriminate|].
    destruct (Z.gtb_spec (now - f) (_maxAgeSeconds m * 1000)); [lia|].
    destruct (start <? s); [discriminate|].
    destruct end_ as [e|]; [|reflexivity].
    destruct (e <? d); [reflexivity|].
    destruct (Z.gtb_spec (now' - e) (_maxAgeSeconds m * 1000)); [discriminate|].
    destruct (Z.gtb_spec (now - e) (_maxAgeSeconds m * 1000)); [lia|].
    auto.
  - auto.
Qed.

Lemma queries_for_shape (cameras : CameraMap) (dateStart dateEnd : Z)
  (rs : list (string * TimelineMediaType)) :
  map (fun p => (fst p, mediaType (snd p)))
    (queries_for cameras dateStart dateEnd rs)
  = filter (fun r => queryable cameras (fst r)) rs
  /\ Forall
       (fun p =>
          before_ms (snd p) = dateEnd /\ after_ms (snd p) = dateStart
          /\ unlimited (snd p) = true)
       (queries_for cameras dateStart dateEnd rs).
Proof.
  induction rs as [|[camera kind] rs [IHm IHf]]; cbn; [split; constructor|].
  unfold queryable at 1. cbn [fst].
  destruct (Map_get cameras camera) as [cfg|]; [|split; assumption].
  destruct (getBrowseMediaQueryParametersBase cfg); cbn;
    [|split; assumption].
  split; [now rewrite IHm|]. constructor; [cbn; auto|assumption].
Qed.

Lemma filter_kind_length (q : string -> bool) (kind : TimelineMediaType)
  (keys : list string) :
  List.length
    (filter (fun r : string * TimelineMediaType => q (fst r))
       (map (fun camera => (camera, kind)) keys))
  = List.length (filter q keys).
Proof.
  induction keys as [|k keys IH]; cbn; [reflexivity|].
  destruct (q k); cbn; now rewrite IH.
Qed.

Lemma filter_requests_length (cameras : CameraMap) (media : TimelineMediaType) :
  List.length (filter (fun r => queryable cameras (fst r))
                 (requests cameras media))
  = (List.length (kinds media)
     * List.length (filter (queryable cameras) (Map_keys cameras)))%nat.
Proof.
  unfold requests. fold (kinds media).
  induction (kinds media) as [|kind ks IH]; cbn [flat_map]; [reflexivity|].
  rewrite filter_app, length_app, IH, filter_kind_length. reflexivity.
Qed.

(** X6.  When a fetch is needed, the queries always span the full widened
    window, never only the range asked for: every query issued has
    [before] at the widened latest date, [after] at the widened earliest
    date and [unlimited] set; there is exactly one query for each wanted
    media kind and each camera that has base parameters, in that order,
    and nothing else is emitted. *)
Theorem fetch_queries_span_widened_window (now : Z) (cameras : CameraMap)
  (media : TimelineMediaType) (start end_ : Z) (m : t) :
  hasCoverage m now start (Some end_) = false ->
  exists pending m',
    fetchEventsIfNecessary_sync now cameras media start end_ m
    = (Return (Some pending), m',
       map (fun p => browseMediaQuery (fst p) (snd p)) pending)
    /\ Forall
         (fun p =>
            before_ms (snd p) = widened_end m end_
            /\ after_ms (snd p) = widened_start m start
            /\ unlimited (snd p) = true)
         pending
    /\ map (fun p => (fst p, mediaType (snd p))) pending
       = filter (fun r => queryable cameras (fst r)) (requests cameras media)
    /\ List.length pending
       = (List.length (kinds media)
          * List.length (filter (queryable cameras) (Map_keys cameras)))%nat.
Proof.
  intros Hcov.
  destruct (queries_for_shape cameras (widened_start m start)
              (widened_end m end_) (requests cameras media)) as [Hmap Hall].
  eexists _, _. split;
    [exact (fetchEventsIfNecessary_sync_uncovered _ _ _ _ _ _ Hcov)|].
  split; [exact Hall|]. split; [exact Hmap|].
  rewrite <- filter_requests_length, <- Hmap. now rewrite length_map.
Qed.

End Window.
End WindowProperties.

(** ** Further properties of merges *)

Module StoredItemProperties.
Section Stored.
Context `{Collaborators}.
Import TimelineEventManager DataSetProperties.

Variables contentCallback tooltipCallback : option (Source.t -> string).

Lemma item_of_child_none (ds : DataSet.t) (camera : string) (child : Source.t) :
  pushed_id child = None ->
  item_of_child contentCallback tooltipCallback ds camera child = None.
Proof.
  intros Hnone.
  pose proof (MergeProperties.item_of_child_id contentCallback tooltipCallback
                ds camera child) as Hid.
  rewrite Hnone in Hid.
  now destruct (item_of_child _ _ ds camera child).
Qed.

(** X7.  A merge ignores every entry that carries no event or is neither
    video nor image: an answer made only of such entries, or without
    children, leaves the manager exactly as it was. *)
Theorem merge_ignores_entries_without_media (camera : string)
  (target : Source.t) (m : t) :
  (forall children child,
      Source.children target = Some children -> In child children ->
      pushed_id child = None) ->
  _addMediaSource contentCallback tooltipCallback camera target m = m.
Proof.
  intros Hother. unfold _addMediaSource.
  assert (Hitems :
    match Source.children target with
    | Some children =>
        items_of_children contentCallback tooltipCallback (_dataset m) camera
          children
    | None => []
    end = []).
  { destruct (Source.children target) as [children|]; [|reflexivity].
    assert (Hall : forall child, In child children -> pushed_id child = None)
      by (intros child Hin; now apply (Hother children)).
    clear Hother.
    induction children as [|child children IH]; [reflexivity|].
    cbn. rewrite item_of_child_none.
    - apply IH. intros c Hin. apply Hall. now right.
    - apply Hall. now left. }
  rewrite Hitems. cbn. now destruct m.
Qed.

(** The item pushed for a child of an event that is stored carries the
    first-stored keys of the stored item. *)
Lemma item_of_child_first_stored (ds : DataSet.t) (camera : string)
  (child : Source.t) (item x : Item.t) :
  item_of_child contentCallback tooltipCallback ds camera child = Some item ->
  DataSet.get ds (Item.id item) = Some x ->
  first_stored item = first_stored x.
Proof.
  intros Hitem Hget.
  pose proof (MergeProperties.item_of_child_id contentCallback tooltipCallback
                ds camera child) as Hid.
  rewrite Hitem in Hid. cbn in Hid. revert Hitem. unfold item_of_child.
  unfold pushed_id in Hid.
  destruct (Source.frigate child) as [event|]; [|discriminate].
  destruct (JS.includes _ _); [|discriminate].
  injection Hid as Hid. rewrite Hid in Hget. rewrite Hget.
  intros [= <-].
  destruct (FrigateEvent.end_time event) as [e|];
    [destruct (JS.truthy_number e)|];
    destruct (String.eqb (Source.media_content_type child) "video");
    try destruct (String.eqb (Source.media_content_type child) "image");
    reflexivity.
Qed.

Lemma update_first_stored (items : list Item.t) (ds : DataSet.t)
  (i : string) (x y : Item.t) :
  (forall item, In item items -> Item.id item = i ->
                first_stored item = first_stored x) ->
  DataSet.get ds i = Some y -> first_stored y = first_stored x ->
  exists y',
    DataSet.get (DataSet.update items ds) i = Some y'
    /\ first_stored y' = first_stored x.
Proof.
  unfold DataSet.update. revert ds y.
  induction items as [|item items IH]; cbn [fold_left];
    intros ds y Hitems Hget Hy.
  - now exists y.
  - assert (Hnext :
      exists y1,
        DataSet.get (DataSet.addOrUpdate ds item) i = Some y1
        /\ first_stored y1 = first_stored x).
    { unfold DataSet.addOrUpdate.
      destruct (DataSet.has ds (Item.id item)) eqn:E.
      - destruct (string_dec i (Item.id item)) as [->|Hne].
        + exists (DataSet.spread y item). split.
          * now apply get_updateItem_eq.
          * rewrite <- (Hitems item (or_introl eq_refl) eq_refl).
            reflexivity.
        + exists y. split; [|exact Hy]. now rewrite get_updateItem_ne.
      - exists y. split; [|exact Hy]. now apply get_addItem_old. }
    destruct Hnext as (y1 & Hget1 & Hy1).
    apply (IH _ y1); [|exact Hget1|exact Hy1].
    intros it Hin. apply Hitems. now right.
Qed.

(** X8.  A merge for an identifier that is already stored rewrites only
    the end, the type, the clip and the snapshot of its item: the id, the
    group (the camera that first reported the event), the content, the
    title, the start and the event descriptor stay as first stored,
    whatever the answer and whichever camera it is merged for. *)
Theorem merge_keeps_first_stored_keys (camera : string) (target : Source.t)
  (m : t) (i : string) (x : Item.t) :
  DataSet.get (dataset m) i = Some x ->
  exists x',
    DataSet.get
      (dataset (_addMediaSource contentCallback tooltipCallback camera target m))
      i = Some x'
    /\ first_stored x' = first_stored x.
Proof.
  intros Hget. unfold _addMediaSource, dataset in *.
  cbn [set_dataset _dataset].
  apply update_first_stored with (y := x); [|exact Hget|reflexivity].
  intros item Hin Hid.
  destruct (Source.children target) as [children|]; [|contradiction].
  induction children as [|child children IH]; [contradiction|].
  cbn in Hin.
  destruct (item_of_child _ _ (_dataset m) camera child) as [it|] eqn:E;
    [|now apply IH].
  destruct Hin as [<-|Hin]; [|now apply IH].
  apply (item_of_child_first_stored _ _ _ E). now rewrite Hid.
Qed.

(** The shape of stored items is kept by the spread of two items of the
    same id, and the loop pushes items of that shape. *)
Lemma spread_well_formed (old upd : Item.t) :
  Item.id old = Item.id upd -> well_formed old -> well_formed upd ->
  well_formed (DataSet.spread old upd).
Proof.
  intros Hid (_ & _ & Hoc & Hos) (Hut & Hur & Huc & Hus).
  unfold well_formed, media_of_item in *. cbn.
  destruct (Item.type upd) as [ty|]; [|contradiction]. cbn.
  split; [discriminate|]. split; [|split].
  - intros Hrange. specialize (Hur Hrange).
    destruct (Item.end_ upd); [discriminate|contradiction].
  - intros c Hc. destruct (Item.clip upd) as [c'|]; cbn in Hc.
    + now apply Huc.
    + rewrite <- Hid. now apply Hoc.
  - intros s Hs. destruct (Item.snapshot upd) as [s'|]; cbn in Hs.
    + now apply Hus.
    + rewrite <- Hid. now apply Hos.
Qed.

Lemma item_of_child_well_formed (ds : DataSet.t) (camera : string)
  (child : Source.t) (item : Item.t) :
  Forall well_formed ds ->
  item_of_child contentCallback tooltipCallback ds camera child = Some item ->
  well_formed item.
Proof.
  intros Hds. unfold item_of_child.
  destruct (Source.frigate child) as [event|] eqn:Hevent; [|discriminate].
  destruct (JS.includes _ _); [|discriminate].
  intros [= <-].
  assert (Hchild : Source.event_id child = Some (FrigateEvent.id event))
    by (unfold Source.event_id; now rewrite Hevent).
  destruct (DataSet.get ds (FrigateEvent.id event)) as [existing|] eqn:Hget.
  - pose proof (get_Some_id _ _ Hget) as Hid.
    apply get_In in Hget. rewrite Forall_forall in Hds.
    destruct (Hds _ Hget) as (_ & _ & Hc & Hs).
    unfold well_formed, media_of_item in *.
    destruct (FrigateEvent.end_time event) as [e|];
      [destruct (JS.truthy_number e)|];
      destruct (String.eqb (Source.media_content_type child) "video") eqn:Ev;
      try destruct (String.eqb (Source.media_content_type child) "image")
        eqn:Ei;
      cbn; rewrite ?Hid; repeat split.
    all: try discriminate.
    all: try match goal with
             | Hsome : Some _ = Some _ |- _ => injection Hsome as <-
             end.
    all: try (now apply String.eqb_eq).
    all: try assumption.
    all: try match goal with
             | Hsome : Item.clip _ = Some _ |- _ =>
                 destruct (Hc _ Hsome); congruence
             | Hsome : Item.snapshot _ = Some _ |- _ =>
                 destruct (Hs _ Hsome); congruence
             end.
  - unfold well_formed, media_of_item.
    destruct (FrigateEvent.end_time event) as [e|];
      [destruct (JS.truthy_number e)|];
      destruct (String.eqb (Source.media_content_type child) "video") eqn:Ev;
      try destruct (String.eqb (Source.media_content_type child) "image")
        eqn:Ei;
      cbn; repeat split.
    all: try discriminate.
    all: try match goal with
             | Hsome : Some _ = Some _ |- _ => injection Hsome as <-
             end.
    all: try (now apply String.eqb_eq).
    all: try assumption.
Qed.

Lemma items_of_children_well_formed (ds : DataSet.t) (camera : string)
  (children : list Source.t) :
  Forall well_formed ds ->
  Forall well_formed
    (items_of_children contentCallback tooltipCallback ds camera children).
Proof.
  intros Hds. induction children as [|child children IH]; cbn; [constructor|].
  destruct (item_of_child _ _ ds camera child) as [item|] eqn:E; [|exact IH].
  constructor; [|exact IH]. now apply item_of_child_well_formed in E.
Qed.

Lemma addOrUpdate_well_formed (ds : DataSet.t) (item : Item.t) :
  Forall well_formed ds -> well_formed item ->
  Forall well_formed (DataSet.addOrUpdate ds item).
Proof.
  intros Hds Hitem. unfold DataSet.addOrUpdate.
  destruct (DataSet.has ds (Item.id item)).
  - induction Hds as [|a ds Ha Hds IH]; cbn; [constructor|].
    destruct (String.eqb (Item.id a) (Item.id item)) eqn:E.
    + constructor; [|exact Hds].
      apply spread_well_formed; [now apply String.eqb_eq|exact Ha|exact Hitem].
    + constructor; [exact Ha|exact IH].
  - unfold DataSet._addItem. apply Forall_app. split; [exact Hds|].
    now constructor.
Qed.

Lemma update_well_formed (items : list Item.t) (ds : DataSet.t) :
  Forall well_formed ds -> Forall well_formed items ->
  Forall well_formed (DataSet.update items ds).
Proof.
  unfold DataSet.update. revert ds.
  induction items as [|item items IH]; cbn [fold_left]; intros ds Hds Hitems;
    [exact Hds|].
  inversion Hitems as [|? ? Hitem Hrest]; subst.
  apply IH; [|exact Hrest]. now apply addOrUpdate_well_formed.
Qed.

Lemma addMediaSource_well_formed (camera : string) (target : Source.t) (m : t) :
  Forall well_formed (dataset m) ->
  Forall well_formed
    (dataset (_addMediaSource contentCallback tooltipCallback camera target m)).
Proof.
  intros Hds. unfold _addMediaSource, dataset in *. cbn [set_dataset _dataset].
  apply update_well_formed; [exact Hds|].
  destruct (Source.children target) as [children|]; [|constructor].
  now apply items_of_children_well_formed.
Qed.

(** X9.  Every item the manager ever stores has the shape the widget
    needs: whatever the sequence of merges from the empty dataset, each
    item has a type, a range item has an end, its clip (if any) is a
    video entry and its snapshot (if any) an image entry, both carrying
    the identifier of the item's own event; and any merge keeps a dataset
    of that shape in that shape. *)
Theorem stored_items_are_well_formed :
  (forall answers,
      Forall well_formed
        (dataset (merge_all contentCallback tooltipCallback answers new)))
  /\ (forall camera target m,
         Forall well_formed (dataset m) ->
         Forall well_formed
           (dataset
              (_addMediaSource contentCallback tooltipCallback camera target
                 m))).
Proof.
  split; [|exact addMediaSource_well_formed].
  intros answers. unfold merge_all.
  assert (Hnew : Forall well_formed (dataset new)) by constructor.
  revert Hnew. generalize new.
  induction answers as [|a answers IH]; cbn [fold_left]; intros m Hm;
    [exact Hm|].
  apply IH. now apply addMediaSource_well_formed.
Qed.

(** A key the update sets: present in the update, it is present in the
    stored item. *)
Section SetKey.
Variable key : Item.t -> option Source.t.
Hypothesis spread_sets :
  forall old upd,
    JS.truthy_opt (key upd) = true ->
    JS.truthy_opt (key (DataSet.spread old upd)) = true.
Hypothesis spread_keeps :
  forall old upd,
    JS.truthy_opt (key old) = true ->
    JS.truthy_opt (key (DataSet.spread old upd)) = true.

Lemma addOrUpdate_sets (ds : DataSet.t) (item : Item.t) :
  JS.truthy_opt (key item) = true ->
  exists x,
    DataSet.get (DataSet.addOrUpdate ds item) (Item.id item) = Some x
    /\ JS.truthy_opt (key x) = true.
Proof.
  intros Hkey. unfold DataSet.addOrUpdate, DataSet.has.
  destruct (DataSet.get ds (Item.id item)) as [old|] eqn:E; cbn.
  - exists (DataSet.spread old item). split.
    + now apply get_updateItem_eq.
    + now apply spread_sets.
  - exists item. split; [|exact Hkey].
    unfold DataSet._addItem. clear Hkey.
    induction ds as [|a ds IH]; cbn in *.
    + now rewrite String.eqb_refl.
    + destruct (String.eqb (Item.id a) (Item.id item)); [discriminate|].
      now apply IH.
Qed.

Lemma update_sets (items : list Item.t) (ds : DataSet.t) (item : Item.t) :
  In item items -> JS.truthy_opt (key item) = true ->
  exists x,
    DataSet.get (DataSet.update items ds) (Item.id item) = Some x
    /\ JS.truthy_opt (key x) = true.
Proof.
  unfold DataSet.update. revert ds.
  induction items as [|a items IH]; cbn [fold_left]; intros ds;
    [intros []|].
  intros [Heq|Hin] Hkey; [subst a|now apply IH].
  destruct (addOrUpdate_sets ds item Hkey) as (x & Hget & Hx).
  exact (update_keeps key spread_keeps items _ _ Hget Hx).
Qed.

End SetKey.

Lemma spread_sets_clip (old upd : Item.t) :
  JS.truthy_opt (Item.clip upd) = true ->
  JS.truthy_opt (Item.clip (DataSet.spread old upd)) = true.
Proof. cbn. destruct (Item.clip upd); [auto|discriminate]. Qed.

Lemma spread_sets_snapshot (old upd : Item.t) :
  JS.truthy_opt (Item.snapshot upd) = true ->
  JS.truthy_opt (Item.snapshot (DataSet.spread old upd)) = true.
Proof. cbn. destruct (Item.snapshot upd); [auto|discriminate]. Qed.

Lemma items_of_children_In (ds : DataSet.t) (camera : string)
  (children : list Source.t) (child : Source.t) (item : Item.t) :
  In child children ->
  item_of_child contentCallback tooltipCallback ds camera child = Some item ->
  In item (items_of_children contentCallback tooltipCallback ds camera children).
Proof.
  intros Hin Hitem. induction children as [|c children IH]; [contradiction|].
  cbn. destruct Hin as [->|Hin].
  - rewrite Hitem. now left.
  - destruct (item_of_child _ _ ds camera c); [right|]; now apply IH.
Qed.

(** X10.  What is merged can be looked up: after a merge, every video
    entry of the answer that carries an event has an item under that
    event's identifier, and the item has a clip; every image entry that
    carries an event has an item with a snapshot. *)
Theorem merged_entries_are_stored (camera : string) (target : Source.t)
  (children : list Source.t) (child : Source.t) (event : FrigateEvent.t)
  (m : t) :
  Source.children target = Some children -> In child children ->
  Source.frigate child = Some event ->
  (Source.media_content_type child = "video"%string ->
   exists x,
     DataSet.get
       (dataset
          (_addMediaSource contentCallback tooltipCallback camera target m))
       (FrigateEvent.id event) = Some x
     /\ JS.truthy_opt (Item.clip x) = true)
  /\ (Source.media_content_type child = "image"%string ->
      exists x,
        DataSet.get
          (dataset
             (_addMediaSource contentCallback tooltipCallback camera target m))
          (FrigateEvent.id event) = Some x
        /\ JS.truthy_opt (Item.snapshot x) = true).
Proof.
  intros Hchildren Hin Hevent.
  unfold _addMediaSource, dataset. cbn [set_dataset _dataset].
  rewrite Hchildren.
  pose proof (MergeProperties.item_of_child_id contentCallback tooltipCallback
                (_dataset m) camera child) as Hid.
  unfold pushed_id in Hid. rewrite Hevent in Hid.
  split; intros Htype; rewrite Htype in Hid; cbn in Hid;
    destruct (item_of_child _ _ (_dataset m) camera child) as [item|] eqn:E;
    try discriminate; injection Hid as Hid; rewrite <- Hid.
  - apply update_sets;
      [exact spread_sets_clip|exact spread_keeps_clip
      |now apply items_of_children_In with (child := child)|].
    revert E. unfold item_of_child. rewrite Hevent, Htype. cbn.
    intros [= <-]. reflexivity.
  - apply update_sets;
      [exact spread_sets_snapshot|exact spread_keeps_snapshot
      |now apply items_of_children_In with (child := child)|].
    revert E. unfold item_of_child. rewrite Hevent, Htype. cbn.
    intros [= <-]. reflexivity.
Qed.

End Stored.
End StoredItemProperties.

(** * Further properties of the element *)

Module PlaylistProperties.
Section Playlist.
Context `{Collaborators}.
Import FrigateCardTimelineCore MonadProperties.

(** [findIndex]: bounds, the first match, and no match. *)
Lemma findIndex_bounds (A : Type) (p : A -> bool) (l : list A) :
  -1 <= JS.findIndex p l < Z.of_nat (List.length l).
Proof.
  induction l as [|x l IH]; cbn [JS.findIndex List.length]; [lia|].
  destruct (p x); [lia|].
  destruct (Z.ltb_spec (JS.findIndex p l) 0); lia.
Qed.

Lemma findIndex_none (A : Type) (p : A -> bool) (l : list A) :
  JS.findIndex p l = -1 <-> existsb p l = false.
Proof.
  induction l as [|x l IH]; cbn; [tauto|].
  pose proof (findIndex_bounds p l) as Hb.
  destruct (p x); cbn; [split; [lia|discriminate]|].
  destruct (Z.ltb_spec (JS.findIndex p l) 0).
  - rewrite <- IH. split; lia.
  - rewrite <- IH. split; lia.
Qed.

Lemma findIndex_first (A : Type) (p : A -> bool) (l : list A) :
  existsb p l = true ->
  exists i,
    JS.findIndex p l = Z.of_nat i
    /\ option_map p (nth_error l i) = Some true
    /\ forallb (fun x => negb (p x)) (firstn i l) = true.
Proof.
  induction l as [|x l IH]; cbn; [discriminate|].
  destruct (p x) eqn:Hx; cbn.
  - intros _. exists 0%nat. cbn. now rewrite Hx.
  - intros Hex. destruct (IH Hex) as (i & Hi & Hnth & Hbefore).
    exists (S i). rewrite Hi. cbn. rewrite Hx, Hnth, Hbefore.
    destruct (Z.ltb_spec (Z.of_nat i) 0); [lia|]. repeat split. lia.
Qed.

Lemma findIndex_snoc (A : Type) (p : A -> bool) (l : list A) (x : A) :
  JS.findIndex p (l ++ [x])
  = if JS.findIndex p l <? 0
    then if p x then Z.of_nat (List.length l) else -1
    else JS.findIndex p l.
Proof.
  induction l as [|y l IH]; cbn [app JS.findIndex List.length].
  - destruct (p x); reflexivity.
  - pose proof (findIndex_bounds p l) as Hb.
    destruct (p y); [reflexivity|]. rewrite IH.
    destruct (Z.ltb_spec (JS.findIndex p l) 0).
    + destruct (p x); cbn.
      * destruct (Z.ltb_spec (Z.of_nat (List.length l)) 0); lia.
      * reflexivity.
    + destruct (Z.ltb_spec (JS.findIndex p l + 1) 0); [lia|].
      destruct (Z.ltb_spec (JS.findIndex p l) 0); [lia|reflexivity].
Qed.

(** X11.  A selection, once a playlist exists, is answered by exactly one
    signal after (if a view is held) one dispatch: the thumbnails are
    opened exactly when the first selected identifier is the event of
    some entry of the playlist, and the index dispatched is then the
    position of the first such entry; otherwise they are closed, with
    index [-1] for an unknown identifier and [null] for an empty
    selection.  Only the first selected identifier counts, and the
    element itself is unchanged. *)
Theorem selection_opens_thumbnails_iff_found (c : t) (thumbnails : Source.t)
  (children : list Source.t) (items : list string) :
  _thumbnails c = Some thumbnails ->
  Source.children thumbnails = Some children ->
  let found :=
    match items with
    | first :: _ => existsb (is_media_of first) children
    | [] => false
    end in
  exists childIndex,
    _timelineSelectHandler items c
    = (Return tt, c,
       match view c with
       | Some v =>
           [dispatchChangeEvent v
              {| evolve_target := Some thumbnails;
                 evolve_childIndex := Some childIndex;
                 evolve_context := None |}]
       | None => []
       end
       ++ [dispatchFrigateCardEvent
             (if found then "thumbnails:open" else "thumbnails:close")])
    /\ (found = true ->
        exists first rest i,
          items = first :: rest /\ childIndex = Some (Z.of_nat i)
          /\ option_map (is_media_of first) (nth_error children i) = Some true
          /\ forallb (fun child => negb (is_media_of first child))
               (firstn i children) = true)
    /\ (found = false ->
        childIndex = match items with
                     | [] => None
                     | _ :: _ => Some (-1)
                     end).
Proof.
  intros Hthumbnails Hchildren found.
  unfold _timelineSelectHandler. rewrite bind_get, Hthumbnails, Hchildren.
  unfold evolve_and_dispatch.
  destruct items as [|first rest]; subst found.
  - exists None. split; [|split; [discriminate|reflexivity]].
    unfold bind, get, emit. destruct (view c); reflexivity.
  - fold (is_media_of first).
    exists (Some (JS.findIndex (is_media_of first) children)).
    pose proof (findIndex_bounds (is_media_of first) children) as Hb.
    destruct (existsb (is_media_of first) children) eqn:Hex.
    + destruct (findIndex_first _ _ Hex) as (i & Hi & Hnth & Hbefore).
      split; [|split; [|discriminate]].
      * unfold bind, get, emit. rewrite Hi.
        destruct (Z.geb_spec (Z.of_nat i) 0); [|lia].
        destruct (view c); reflexivity.
      * intros _. exists first, rest, i. now rewrite Hi.
    + apply findIndex_none in Hex.
      split; [|split; [discriminate|intros _; now rewrite Hex]].
      unfold bind, get, emit. rewrite Hex. cbn.
      destruct (view c); reflexivity.
Qed.

(** The children of the projection are the accumulated media followed by
    the media of the remaining items. *)
Lemma project_children (cfg : TimelineConfig) (selected : list string)
  (items : list Item.t) (acc : list Source.t) (idx : Z) :
  fst (project (Some cfg) selected items acc idx) = acc ++ media_list cfg items.
Proof.
  revert acc idx. induction items as [|item items IH]; intros acc idx; cbn.
  - now rewrite app_nil_r.
  - destruct (thumbnail_of_item cfg item) as [source|]; cbn.
    + rewrite IH, <- app_assoc. reflexivity.
    + apply IH.
Qed.

Lemma project_without_config (selected : list string) (items : list Item.t)
  (acc : list Source.t) (idx : Z) :
  project None selected items acc idx = (acc, idx).
Proof. induction items as [|item items IH]; cbn; auto. Qed.

(** The sort by start. *)
Lemma insert_by_start_perm (x : Item.t) (l : list Item.t) :
  Permutation (DataSet.insert_by_start x l) (x :: l).
Proof.
  induction l as [|y l IH]; cbn; [reflexivity|].
  destruct (Item.start x <=? Item.start y); [reflexivity|].
  rewrite IH. apply perm_swap.
Qed.

Lemma get_order_start_perm (ds : DataSet.t) :
  Permutation (DataSet.get_order_start ds) ds.
Proof.
  induction ds as [|x ds IH]; cbn; [reflexivity|].
  rewrite insert_by_start_perm. now constructor.
Qed.

Lemma insert_by_start_sorted (x : Item.t) (l : list Item.t) :
  Sorted starts_no_later l -> Sorted starts_no_later (DataSet.insert_by_start x l).
Proof.
  induction 1 as [|y l Hl IH Hhd]; cbn; [repeat constructor|].
  destruct (Z.leb_spec (Item.start x) (Item.start y)).
  - constructor; [now constructor|]. now constructor.
  - constructor; [exact IH|].
    destruct l as [|z l]; cbn.
    + constructor. unfold starts_no_later. lia.
    + destruct (Z.leb_spec (Item.start x) (Item.start z)).
      * constructor. unfold starts_no_later. lia.
      * constructor. now inversion Hhd.
Qed.

Lemma get_order_start_sorted (ds : DataSet.t) :
  Sorted starts_no_later (DataSet.get_order_start ds).
Proof.
  induction ds as [|x ds IH]; cbn; [constructor|].
  now apply insert_by_start_sorted.
Qed.

Lemma media_list_In (cfg : TimelineConfig) (items : list Item.t)
  (source : Source.t) :
  In source (media_list cfg items)
  <-> exists item, In item items /\ thumbnail_of_item cfg item = Some source.
Proof.
  unfold media_list. rewrite in_flat_map. split.
  - intros (item & Hin & Hsrc). exists item. split; [exact Hin|].
    destruct (thumbnail_of_item cfg item); [|contradiction].
    destruct Hsrc as [->|[]]. reflexivity.
  - intros (item & Hin & Hth). exists item. split; [exact Hin|].
    rewrite Hth. now left.
Qed.

Lemma media_list_length (cfg : TimelineConfig) (items : list Item.t) :
  (List.length (media_list cfg items) <= List.length items)%nat.
Proof.
  unfold media_list.
  induction items as [|item items IH]; cbn [flat_map List.length]; [lia|].
  rewrite length_app.
  destruct (thumbnail_of_item cfg item); cbn [List.length]; lia.
Qed.

(** X12.  The playlist is the media of the items in ascending order of
    start: the projected children are exactly the media picked from the
    items of the dataset sorted by start (each item of the dataset taken
    once), so there are never more entries than items. *)
Theorem playlist_follows_start_order (c : t) (timeline : Timeline.t)
  (cfg : TimelineConfig) :
  timelineConfig c = Some cfg ->
  let sorted :=
    DataSet.get_order_start (TimelineEventManager.dataset (_events c)) in
  fst (projection c timeline) = media_list cfg sorted
  /\ Sorted starts_no_later sorted
  /\ Permutation sorted (TimelineEventManager.dataset (_events c))
  /\ (List.length (fst (projection c timeline))
      <= List.length (TimelineEventManager.dataset (_events c)))%nat.
Proof.
  intros Hcfg sorted. unfold projection. rewrite Hcfg, project_children.
  cbn [app]. fold sorted. repeat split.
  - apply get_order_start_sorted.
  - apply get_order_start_perm.
  - rewrite <- (Permutation_length (get_order_start_perm _)).
    apply media_list_length.
Qed.

(** What an item contributes is its clip or its snapshot, of a wanted
    kind and true media. *)
Lemma thumbnail_of_item_cases (cfg : TimelineConfig) (item : Item.t)
  (source : Source.t) :
  thumbnail_of_item cfg item = Some source ->
  isTrueMedia source = true
  /\ ((wants clips (media cfg) = true /\ Item.clip item = Some source)
      \/ (wants snapshots (media cfg) = true
          /\ Item.snapshot item = Some source)).
Proof.
  unfold thumbnail_of_item.
  assert (Hsnapshot :
    match Item.snapshot item with
    | Some s =>
        if wants snapshots (media cfg) && isTrueMedia s then Some s else None
    | None => None
    end = Some source ->
    isTrueMedia source = true
    /\ wants snapshots (media cfg) = true
    /\ Item.snapshot item = Some source).
  { destruct (Item.snapshot item) as [s|]; [|discriminate].
    destruct (wants snapshots (media cfg)) eqn:Hw; cbn; [|discriminate].
    destruct (isTrueMedia s) eqn:Ht; [|discriminate].
    intros [= <-]. auto. }
  destruct (Item.clip item) as [cl|].
  - destruct (wants clips (media cfg)) eqn:Hw; cbn.
    + destruct (isTrueMedia cl) eqn:Ht.
      * intros [= <-]. auto.
      * intros Hs. destruct (Hsnapshot Hs) as (? & ? & ?). auto.
    + intros Hs. destruct (Hsnapshot Hs) as (? & ? & ?). auto.
  - intros Hs. destruct (Hsnapshot Hs) as (? & ? & ?). auto.
Qed.

(** X13.  The filter decides the kind of every entry: under the filter on
    clips every projected entry is the clip of an item of the dataset,
    under the filter on snapshots it is the snapshot of one, under the
    filter on all it is one or the other; in every case it is true
    media, and without a configuration nothing is projected. *)
Theorem playlist_respects_filter (c : t) (timeline : Timeline.t) :
  (timelineConfig c = None -> fst (projection c timeline) = [])
  /\ (forall cfg source,
         timelineConfig c = Some cfg ->
         In source (fst (projection c timeline)) ->
         isTrueMedia source = true
         /\ exists item,
              In item (TimelineEventManager.dataset (_events c))
              /\ match media cfg with
                 | clips => Item.clip item = Some source
                 | snapshots => Item.snapshot item = Some source
                 | all =>
                     Item.clip item = Some source
                     \/ Item.snapshot item = Some source
                 end).
Proof.
  split.
  - intros Hnone. unfold projection. rewrite Hnone.
    now rewrite project_without_config.
  - intros cfg source Hcfg Hin. unfold projection in Hin.
    rewrite Hcfg, project_children in Hin. cbn [app] in Hin.
    apply media_list_In in Hin. destruct Hin as (item & Hitem & Hth).
    apply (Permutation_in _ (get_order_start_perm _)) in Hitem.
    destruct (thumbnail_of_item_cases _ _ Hth) as [Htrue Hkind].
    split; [exact Htrue|]. exists item. split; [exact Hitem|].
    unfold wants in Hkind.
    destruct (media cfg); cbn in Hkind;
      destruct Hkind as [[Hw Hsrc]|[Hw Hsrc]]; try discriminate; auto.
Qed.

Lemma project_focus (cfg : TimelineConfig) (selected : list string)
  (every items : list Item.t) (acc : list Source.t) (idx : Z) :
  incl items every ->
  focus_ok cfg selected every acc idx ->
  focus_ok cfg selected every
    (fst (project (Some cfg) selected items acc idx))
    (snd (project (Some cfg) selected items acc idx)).
Proof.
  revert acc idx.
  induction items as [|item items IH]; intros acc idx Hincl Hok; cbn;
    [exact Hok|].
  assert (Hrest : incl items every) by (intros x Hx; apply Hincl; now right).
  destruct (thumbnail_of_item cfg item) as [source|] eqn:Hth; [|now apply IH].
  cbv zeta. apply IH; [exact Hrest|].
  destruct (JS.includes selected (FrigateEvent.id (Item.event item))) eqn:Hsel.
  - right. rewrite length_app. cbn [List.length]. split; [lia|].
    exists item, source. repeat split; auto.
    + apply Hincl. now left.
    + replace (Z.to_nat (Z.of_nat (List.length acc + 1) - 1))
        with (List.length acc) by lia.
      rewrite nth_error_app2 by lia. now rewrite Nat.sub_diag.
  - destruct Hok as [->|(Hb & i & src & Hin & Hs & Hi & Hnth)]; [now left|].
    right. rewrite length_app. cbn [List.length]. split; [lia|].
    exists i, src. repeat split; auto.
    rewrite nth_error_app1 by lia. exact Hnth.
Qed.

Lemma project_focus_stays (cfg : TimelineConfig) (selected : list string)
  (items : list Item.t) (acc : list Source.t) (idx : Z) :
  0 <= idx -> 0 <= snd (project (Some cfg) selected items acc idx).
Proof.
  revert acc idx. induction items as [|item items IH]; intros acc idx Hidx;
    cbn; [exact Hidx|].
  destruct (thumbnail_of_item cfg item) as [source|]; [|now apply IH].
  cbv zeta. apply IH.
  destruct (JS.includes selected (FrigateEvent.id (Item.event item)));
    [|exact Hidx].
  rewrite length_app. cbn [List.length]. lia.
Qed.

Lemma project_no_focus (cfg : TimelineConfig) (selected : list string)
  (items : list Item.t) (acc : list Source.t) (idx : Z) :
  snd (project (Some cfg) selected items acc idx) = -1 ->
  idx = -1
  /\ forall item,
       In item items ->
       JS.includes selected (FrigateEvent.id (Item.event item)) = true ->
       thumbnail_of_item cfg item = None.
Proof.
  revert acc idx. induction items as [|item items IH]; intros acc idx; cbn.
  - intros ->. split; [reflexivity|]. intros ? [].
  - destruct (thumbnail_of_item cfg item) as [source|] eqn:Hth.
    + cbv zeta.
      destruct (JS.includes selected (FrigateEvent.id (Item.event item)))
        eqn:Hsel.
      * intros Hend. exfalso.
        assert (Hs : 0 <= Z.of_nat (List.length (acc ++ [source])) - 1)
          by (rewrite length_app; cbn [List.length]; lia).
        apply (project_focus_stays cfg selected items (acc ++ [source])) in Hs.
        rewrite Hend in Hs. lia.
      * intros Hend. destruct (IH _ _ Hend) as [Hidx Hnone].
        split; [exact Hidx|]. intros i [<-|Hin] Hi; [congruence|auto].
    + intros Hend. destruct (IH _ _ Hend) as [Hidx Hnone].
      split; [exact Hidx|]. intros i [<-|Hin] Hi; auto.
Qed.

(** X14.  The focus index of the projection is [-1] or a position of the
    playlist.  When it is a position, the entry there is the media of an
    item of the dataset whose event is selected in the widget; when it is
    [-1], no selected item of the dataset contributes media. *)
Theorem focus_is_a_selected_entry (c : t) (timeline : Timeline.t)
  (cfg : TimelineConfig) :
  timelineConfig c = Some cfg ->
  let children := fst (projection c timeline) in
  let childIndex := snd (projection c timeline) in
  let selected item :=
    JS.includes (Timeline.selection timeline)
      (FrigateEvent.id (Item.event item)) in
  -1 <= childIndex < Z.of_nat (List.length children)
  /\ (0 <= childIndex ->
      exists item source,
        In item (TimelineEventManager.dataset (_events c))
        /\ selected item = true
        /\ thumbnail_of_item cfg item = Some source
        /\ nth_error children (Z.to_nat childIndex) = Some source)
  /\ (childIndex = -1 ->
      forall item,
        In item (TimelineEventManager.dataset (_events c)) ->
        selected item = true ->
        thumbnail_of_item cfg item = None).
Proof.
  intros Hcfg children childIndex selected.
  subst children childIndex. unfold projection. rewrite Hcfg.
  set (sorted :=
         DataSet.get_order_start (TimelineEventManager.dataset (_events c))).
  assert (Hok : focus_ok cfg (Timeline.selection timeline) sorted [] (-1))
    by now left.
  apply (project_focus (items := sorted)) in Hok; [|apply incl_refl].
  split; [|split].
  - destruct Hok as [->|[Hb _]]; [|lia].
    pose proof (Zle_0_nat (List.length
      (fst (project (Some cfg) (Timeline.selection timeline) sorted [] (-1))))).
    lia.
  - intros Hpos. destruct Hok as [Hneg|(_ & item & source & Hin & Hrest)];
      [lia|].
    exists item, source. split; [|exact Hrest].
    apply (Permutation_in _ (get_order_start_perm _)). exact Hin.
  - intros Hneg item Hin Hsel.
    apply (proj2 (project_no_focus _ _ _ _ _ Hneg)); [|exact Hsel].
    apply (Permutation_in _ (Permutation_sym (get_order_start_perm _))).
    exact Hin.
Qed.

(** With one identifier selected, an entry whose event is not among the
    remaining items keeps the loop's index equal to [findIndex]. *)
Lemma project_single_selection (cfg : TimelineConfig) (id : string)
  (items : list Item.t) (acc : list Source.t) (idx : Z) :
  (forall item source,
      In item items -> thumbnail_of_item cfg item = Some source ->
      Source.event_id source = Some (FrigateEvent.id (Item.event item))) ->
  NoDup (map (fun i => FrigateEvent.id (Item.event i)) items) ->
  (forall child item,
      In child acc -> In item items ->
      Source.event_id child <> Some (FrigateEvent.id (Item.event item))) ->
  idx = JS.findIndex (is_media_of id) acc ->
  snd (project (Some cfg) [id] items acc idx)
  = JS.findIndex (is_media_of id)
      (fst (project (Some cfg) [id] items acc idx)).
Proof.
  revert acc idx.
  induction items as [|item items IH]; intros acc idx Hmedia Hnodup Hfresh Hidx;
    cbn; [exact Hidx|].
  cbn [map] in Hnodup. apply NoDup_cons_iff in Hnodup.
  destruct Hnodup as [Hnotin Hnodup'].
  assert (Hmedia' : forall item0 source,
             In item0 items -> thumbnail_of_item cfg item0 = Some source ->
             Source.event_id source
             = Some (FrigateEvent.id (Item.event item0)))
    by (intros; apply Hmedia; [now right|assumption]).
  destruct (thumbnail_of_item cfg item) as [source|] eqn:Hth.
  - cbv zeta.
    pose proof (Hmedia item source (or_introl eq_refl) Hth) as Hsrc.
    apply IH; [exact Hmedia'|exact Hnodup'| |].
    + intros child i [Hc|Hc]%in_app_or Hi.
      * apply Hfresh; [exact Hc|now right].
      * destruct Hc as [<-|[]]. rewrite Hsrc. intros [= Heq].
        apply Hnotin. rewrite Heq.
        now apply (in_map (fun i => FrigateEvent.id (Item.event i))).
    + assert (Hp : is_media_of id source
                   = String.eqb (FrigateEvent.id (Item.event item)) id)
        by (unfold is_media_of; now rewrite Hsrc).
      rewrite findIndex_snoc, Hp.
      cbn [JS.includes existsb]. rewrite orb_false_r.
      destruct (String.eqb_spec (FrigateEvent.id (Item.event item)) id)
        as [Heq|Hne].
      * assert (Hnone : JS.findIndex (is_media_of id) acc = -1).
        { apply findIndex_none. apply not_true_is_false. intros Hex.
          apply existsb_exists in Hex. destruct Hex as (child & Hc & Hm).
          unfold is_media_of in Hm.
          destruct (Source.event_id child) as [i|] eqn:Hi; [|discriminate].
          apply String.eqb_eq in Hm. subst i.
          apply (Hfresh child item Hc (or_introl eq_refl)).
          now rewrite Hi, Heq. }
        rewrite Hnone. cbn. rewrite length_app. cbn [List.length]. lia.
      * rewrite <- Hidx.
        destruct (Z.ltb_spec idx 0) as [Hlt|Hge]; [|reflexivity].
        pose proof (findIndex_bounds (is_media_of id) acc). lia.
  - apply IH; [exact Hmedia'|exact Hnodup'| |exact Hidx].
    intros child i Hc Hi. apply Hfresh; [exact Hc|now right].
Qed.

(** X15.  Projection and selection agree on the focus.  In a dataset of
    well-formed items, each stored under its event's identifier and no
    two for one event, the index the projection derives for a widget
    with one selected identifier is the index [findIndex] gives the
    selection handler for that identifier in the projected playlist. *)
Theorem projection_focus_is_selection_index (c : t) (timeline : Timeline.t)
  (cfg : TimelineConfig) (id : string) :
  timelineConfig c = Some cfg ->
  Timeline.selection timeline = [id] ->
  Forall TimelineEventManager.well_formed
    (TimelineEventManager.dataset (_events c)) ->
  Forall item_of_its_event (TimelineEventManager.dataset (_events c)) ->
  NoDup (DataSet.event_ids (TimelineEventManager.dataset (_events c))) ->
  snd (projection c timeline)
  = JS.findIndex (is_media_of id) (fst (projection c timeline)).
Proof.
  intros Hcfg Hsel Hwf Hown Hnodup. unfold projection. rewrite Hcfg, Hsel.
  pose proof (get_order_start_perm (TimelineEventManager.dataset (_events c)))
    as Hperm.
  apply project_single_selection.
  - intros item source Hin Hth.
    apply (Permutation_in _ Hperm) in Hin.
    rewrite Forall_forall in Hwf, Hown.
    destruct (Hwf item Hin) as (_ & _ & Hclip & Hsnapshot).
    rewrite <- (Hown item Hin).
    destruct (thumbnail_of_item_cases _ _ Hth) as [_ [[_ Hc]|[_ Hs]]].
    + apply (Hclip _ Hc).
    + apply (Hsnapshot _ Hs).
  - apply (Permutation_NoDup
             (Permutation_sym
                (Permutation_map (fun i => FrigateEvent.id (Item.event i))
                   Hperm))).
    exact Hnodup.
  - intros child item [].
  - reflexivity.
Qed.

End Playlist.
End PlaylistProperties.

(** * Further properties of the element's life cycle *)

Module LifecycleProperties.
Section Lifecycle.
Context `{Collaborators}.
Import TimelineEventManager FrigateCardTimelineCore MonadProperties.

(** X16.  An event lies outside its own padded window only when it is
    recorded as ending more than an hour before it starts: for an event
    without end, or ending no earlier than an hour before its start, the
    window [_getStartEndFromEvent] computes contains the event's raw
    timestamps, so a widget showing that window is not moved again. *)
Theorem event_outside_its_own_window (event : FrigateEvent.t) :
  let w := _getStartEndFromEvent event in
  event_outside event (TimelineWindow.mk (fst w) (snd w))
  = match FrigateEvent.end_time event with
    | Some e =>
        JS.truthy_number e
        && (fromUnixTime e + one_hour
            <? fromUnixTime (FrigateEvent.start_time event))
    | None => false
    end.
Proof.
  unfold _getStartEndFromEvent, event_outside, fromUnixTime, one_hour,
    JS.truthy_number.
  cbn [fst snd TimelineWindow.start TimelineWindow.end_].
  destruct (FrigateEvent.end_time event) as [e|].
  - destruct (Z.eqb_spec e 0) as [->|Hne]; cbn [negb andb];
      rewrite ?Z.gtb_ltb;
      repeat match goal with
             | |- context [?a <? ?b] => destruct (Z.ltb_spec a b)
             end; cbn; try reflexivity; lia.
  - rewrite ?Z.gtb_ltb.
    repeat match goal with
           | |- context [?a <? ?b] => destruct (Z.ltb_spec a b)
           end; cbn; try reflexivity; lia.
Qed.

(** Queries are no part of the widget's life cycle. *)
Lemma queries_are_not_lifecycle (pending : list Pending) :
  filter widget_lifecycle
    (map (fun p => browseMediaQuery (fst p) (snd p)) pending) = [].
Proof. induction pending as [|p pending IH]; cbn; auto. Qed.

(** The third step of [updated] touches only the manager and neither
    creates, wires nor destroys the widget. *)
Lemma updated_view_run (now : Z) (changed : Changed.t) (c : t) :
  exists o m effects,
    updated_view now changed c = (o, set_events m c, effects)
    /\ filter widget_lifecycle effects = [].
Proof.
  assert (Hidle : forall o : Outcome (option Suspended),
             exists o' m effects,
               (o, c, @nil Effect) = (o', set_events m c, effects)
               /\ filter widget_lifecycle effects = []).
  { intros o. exists o, (_events c), [].
    now rewrite PlacementProperties.set_events_same. }
  unfold updated_view. destruct (Changed.view changed); [|apply Hidle].
  unfold _updateTimelineFromView_sync. rewrite bind_get.
  destruct (hass c); [|apply Hidle].
  destruct (cameras c) as [cams|]; [|apply Hidle].
  destruct (view c) as [v|]; [|apply Hidle].
  destruct (_timeline c) as [tl|]; [|apply Hidle].
  destruct (timelineConfig c) as [cfg|]; [|apply Hidle].
  destruct (match View.media_event (Some v) with
            | Some ev => _getStartEndFromEvent ev
            | None => _getStartEnd c now
            end) as [windowStart windowEnd].
  unfold on_events, zoom, bind.
  destruct (hasCoverage (_events c) now windowStart (Some windowEnd)) eqn:Hcov.
  - rewrite (WindowProperties.fetchEventsIfNecessary_sync_covered _ _ _ _ _ _ Hcov).
    cbn. eexists _, _, _. split; reflexivity.
  - rewrite (WindowProperties.fetchEventsIfNecessary_sync_uncovered _ _ _ _ _ _ Hcov).
    cbn. eexists _, _, _. split; [reflexivity|].
    rewrite app_nil_r. apply queries_are_not_lifecycle.
Qed.

(** X17.  The life cycle of the widget through [updated].  The widget is
    destroyed exactly when the cameras changed while one existed.  It is
    created exactly when the configuration changed, the container is
    rendered, options exist, and no widget is left (none existed, or the
    cameras changed); it is then created once, with the window and the
    clustering of [_getOptions] and an empty selection, and its two
    handlers are wired once each, after creation.  In every other case
    an existing widget is kept as it is, whatever the view step does. *)
Theorem widget_lifecycle_of_updated (now : Z) (changed : Changed.t) (c : t) :
  let existed :=
    match _timeline c with
    | Some _ => true
    | None => false
    end in
  let created :=
    if Changed.timelineConfig changed && _refTimeline c
       && (Changed.cameras changed || negb existed)
    then _getOptions c now
    else None in
  filter widget_lifecycle (effects_of (updated now changed c))
  = (if Changed.cameras changed && existed then [timeline_destroy] else [])
    ++ match created with
       | Some (clustering, (start, end_)) =>
           [timeline_new start end_ clustering; timeline_on "select";
            timeline_on "rangechanged"]
       | None => []
       end
  /\ _timeline (state_of (updated now changed c))
     = match created with
       | Some (_, (start, end_)) =>
           Some (Timeline.mk (TimelineWindow.mk start end_) [])
       | None => if Changed.cameras changed then None else _timeline c
       end.
Proof.
  intros existed created. subst existed created.
  unfold updated, updated_cameras, updated_timelineConfig, _getOptions.
  destruct c as [h v cams cfg ev ref th tl].
  destruct changed as [cc ct cv].
  cbn [Changed.cameras Changed.timelineConfig Changed.view
       _timeline _refTimeline timelineConfig].
  destruct cc, tl as [tl|], ct, ref, cfg as [cfg|];
    unfold bind, get, modify, emit, ret, on_events, zoom, _getStartEnd;
    cbn -[updated_view filter _isClustering _getStartEndFromEvent Z.sub];
    try (destruct (View.target_event v) as [target|];
         [destruct (_getStartEndFromEvent target) as [start end_]|]);
    match goal with
    | |- context [updated_view ?n ?ch ?s] =>
        destruct (updated_view_run n ch s) as (o & m & tr & Hrun & Hsilent);
        rewrite Hrun
    end;
    cbn -[filter _isClustering Z.sub];
    rewrite ?filter_app, ?Hsilent, ?app_nil_r;
    cbn -[_isClustering Z.sub]; rewrite ?Hsilent; split; reflexivity.
Qed.

(** X18.  An update from the view that resumes after the widget was
    destroyed does not complete: it throws.  The answers are still
    merged into the manager and failures still signalled, exactly as the
    coverage-ensuring call does them; nothing else happens, so no
    playlist is generated and nothing is dispatched. *)
Theorem update_from_view_without_widget_throws (c : t) (k : Suspended)
  (arrivals : list (Pending * Settled Source.t)) :
  _timeline c = None ->
  let fetched :=
    fetchEventsIfNecessary_resume contentCallback (tooltipCallback c)
      (suspended_promise k) arrivals (_events c) in
  let r := _updateTimelineFromView_resume k arrivals c in
  outcome_of r
  = match outcome_of fetched with
    | Return _ => Throw unit "TypeError: this._timeline is undefined"
    | Throw _ e => Throw unit e
    end
  /\ state_of r = set_events (state_of fetched) c
  /\ effects_of r = effects_of fetched.
Proof.
  intros Htl fetched r.
  assert (Hrun :
    r = (match outcome_of fetched with
         | Return _ => Throw unit "TypeError: this._timeline is undefined"
         | Throw _ e => Throw unit e
         end, set_events (state_of fetched) c, effects_of fetched)).
  { subst fetched r.
    unfold _updateTimelineFromView_resume. rewrite bind_get.
    unfold on_events, zoom. unfold bind at 1.
    destruct (fetchEventsIfNecessary_resume contentCallback (tooltipCallback c)
                (suspended_promise k) arrivals (_events c))
      as [[[b|e] m] tr]; [|reflexivity].
    assert (Hgone : _timeline (set_events m c) = None) by exact Htl.
    assert (Hquiet :
      (if b then _generateThumbnails else ret tt) (set_events m c)
      = (Return tt, set_events m c, [])).
    { destruct b; [|reflexivity].
      unfold _generateThumbnails. now rewrite bind_get, Hgone. }
    unfold bind at 1. rewrite Hquiet.
    unfold bind at 1, setSelection, with_timeline.
    rewrite bind_get, Hgone. cbn. now rewrite ?app_nil_r. }
  rewrite Hrun. auto.
Qed.

(** X19.  A change of range by the user inside fresh coverage issues no
    query: the handler leaves the element as it is (manager included),
    logs the change and, if a view is held, dispatches the widget's
    window; and when the promise it left behind settles, no playlist is
    regenerated and nothing more is dispatched. *)
Theorem covered_range_change_issues_no_query (now : Z)
  (properties : RangeChanged.t) (c : t) (cams : CameraMap)
  (timeline : Timeline.t) (cfg : TimelineConfig) :
  RangeChanged.byUser properties = true ->
  hass c = true -> cameras c = Some cams ->
  _timeline c = Some timeline -> timelineConfig c = Some cfg ->
  hasCoverage (_events c) now (RangeChanged.start properties)
    (Some (RangeChanged.end_ properties)) = true ->
  let r := _timelineRangeHandler now properties c in
  outcome_of r = Return (Some None)
  /\ state_of r = c
  /\ filter is_query (effects_of r) = []
  /\ forall arrivals,
       _timelineRangeHandler_then None arrivals c = (Return tt, c, []).
Proof.
  intros Huser Hhass Hcams Htl Hcfg Hcov r.
  assert (Hrun :
    r = (Return (Some None), c,
         console_info
           (log_range_changed (RangeChanged.start properties)
              (RangeChanged.end_ properties)
              (DataSet.length (dataset (_events c))))
         :: match view c with
            | Some v =>
                [dispatchChangeEvent v
                   {| evolve_target := None;
                      evolve_childIndex := None;
                      evolve_context :=
                        Some {| window := Some (Timeline.window timeline) |} |}]
            | None => []
            end)).
  { subst r. unfold _timelineRangeHandler. rewrite Huser. cbn [negb].
    unfold bind at 1, get. unfold bind at 1, emit.
    rewrite Hhass, Hcams, Htl, Hcfg.
    unfold bind at 1, on_events, zoom.
    rewrite (WindowProperties.fetchEventsIfNecessary_sync_covered _ _ _ _ _ _ Hcov).
    rewrite PlacementProperties.set_events_same.
    unfold evolve_and_dispatch, bind, get. cbn.
    destruct (view c); cbn; reflexivity. }
  rewrite Hrun. repeat split.
  - cbn. destruct (view c); reflexivity.
  - intros arrivals. unfold _timelineRangeHandler_then.
    unfold on_events, zoom, fetchEventsIfNecessary_resume, ret.
    cbn. now rewrite PlacementProperties.set_events_same.
Qed.

End Lifecycle.
End LifecycleProperties.

(** * The further properties on the scenarios *)

(** A second request at 10:00:12, seven seconds after the fetch of 10:00
    to 11:00, for 10:10 to 10:50: covered, nothing is issued. *)
Lemma fetch_covers_inside_while_fresh_witness :
  TimelineEventManager.fetchEventsIfNecessary_sync (Scenario.clock 10 0 12)
    Scenario.cams clips (Scenario.clock 10 10 0) (Scenario.clock 10 50 0)
    Scenario.fetched
  = (Return None, Scenario.fetched, []).
Proof.
  refine (@WindowProperties.fetch_covers_inside_while_fresh _
            (Scenario.clock 10 0 5) (Scenario.clock 10 0 12) Scenario.cams
            all clips (Scenario.clock 10 0 0) (Scenario.clock 11 0 0)
            (Scenario.clock 10 10 0) (Scenario.clock 10 50 0)
            TimelineEventManager.new _ _ _);
    vm_compute; first [reflexivity | intro Hc; discriminate Hc].
Defined.

(** At noon the window 10:00 to 11:00 is fetched; one second later it is
    not covered. *)
Lemma old_window_is_fetched_again_witness :
  TimelineEventManager.hasCoverage
    (state_of
       (TimelineEventManager._fetchEvents_sync (Scenario.clock 12 0 0)
          Scenario.cams all (Some (Scenario.clock 10 0 0))
          (Some (Scenario.clock 11 0 0)) TimelineEventManager.new))
    (Scenario.clock 12 0 1) (Scenario.clock 10 0 0)
    (Some (Scenario.clock 11 0 0))
  = false.
Proof.
  refine (proj1 (@WindowProperties.old_window_is_fetched_again _
                   (Scenario.clock 12 0 0) (Scenario.clock 12 0 1)
                   Scenario.cams all (Scenario.clock 10 0 0)
                   (Scenario.clock 11 0 0) TimelineEventManager.new _ _)).
  - intros d Hd. discriminate Hd.
  - vm_compute. reflexivity.
Defined.

(** The range 10:10 to 10:50 is covered at 10:00:10, hence at 10:00:06. *)
Lemma coverage_is_lost_not_regained_witness :
  TimelineEventManager.hasCoverage Scenario.fetched (Scenario.clock 10 0 6)
    (Scenario.clock 10 10 0) (Some (Scenario.clock 10 50 0))
  = true.
Proof.
  refine (@WindowProperties.coverage_is_lost_not_regained Scenario.fetched
            (Scenario.clock 10 0 6) (Scenario.clock 10 0 10)
            (Scenario.clock 10 10 0) (Some (Scenario.clock 10 50 0)) _ _).
  - vm_compute. intro Hc. discriminate Hc.
  - reflexivity.
Defined.

(** The first request of a new manager, with two cameras and every kind
    of media: four queries. *)
Lemma fetch_queries_span_widened_window_witness :
  exists pending m',
    TimelineEventManager.fetchEventsIfNecessary_sync (Scenario.clock 10 0 5)
      Scenario.cams all (Scenario.clock 10 0 0) (Scenario.clock 11 0 0)
      TimelineEventManager.new
    = (Return (Some pending), m',
       map (fun p => browseMediaQuery (fst p) (snd p)) pending)
    /\ List.length pending = 4%nat.
Proof.
  destruct (@WindowProperties.fetch_queries_span_widened_window _
              (Scenario.clock 10 0 5) Scenario.cams all
              (Scenario.clock 10 0 0) (Scenario.clock 11 0 0)
              TimelineEventManager.new eq_refl)
    as (pending & m' & Hrun & _ & _ & Hlength).
  exists pending, m'. split; [exact Hrun|exact Hlength].
Defined.

(** An answer holding only an empty folder changes nothing. *)
Lemma merge_ignores_entries_without_media_witness :
  TimelineEventManager._addMediaSource None None "front"
    Scenario.empty_answer Scenario.snapshot_only
  = Scenario.snapshot_only.
Proof.
  apply StoredItemProperties.merge_ignores_entries_without_media.
  intros children child Hchildren Hin.
  injection Hchildren as <-. destruct Hin as [<-|[]]. reflexivity.
Defined.

(** The clip of [event1] merged for the camera at the back: the item
    stays in the group of the camera at the front. *)
Lemma merge_keeps_first_stored_keys_witness :
  exists x',
    DataSet.get
      (TimelineEventManager.dataset
         (TimelineEventManager._addMediaSource None None "back"
            (Scenario.folder [Scenario.clip1]) Scenario.snapshot_only))
      "event-1" = Some x'
    /\ Item.group x' = "front"%string.
Proof.
  destruct (@StoredItemProperties.merge_keeps_first_stored_keys None None
              "back"%string (Scenario.folder [Scenario.clip1])
              Scenario.snapshot_only "event-1"%string
              (Item.mk "event-1" "front" EmptyString EmptyString 36900000
                 (Some 37200000) (Some range) Scenario.event1 None
                 (Some Scenario.snapshot1))
              eq_refl)
    as (x' & Hget & Hfirst).
  exists x'. split; [exact Hget|].
  exact (f_equal (fun k => snd (fst (fst (fst (fst k))))) Hfirst).
Defined.

(** The dataset of [busy] is made of well-formed items. *)
Lemma stored_items_are_well_formed_witness :
  Forall TimelineEventManager.well_formed
    (TimelineEventManager.dataset Scenario.busy).
Proof.
  refine (proj2 (StoredItemProperties.stored_items_are_well_formed None None)
            "front"%string _ Scenario.fetched _).
  vm_compute. constructor.
Defined.

(** After the clip of [event1] is merged, its item can be looked up and
    has a clip. *)
Lemma merged_entries_are_stored_witness :
  exists x,
    DataSet.get
      (TimelineEventManager.dataset
         (TimelineEventManager._addMediaSource None None "front"
            (Scenario.folder [Scenario.clip1]) Scenario.fetched))
      "event-1" = Some x
    /\ JS.truthy_opt (Item.clip x) = true.
Proof.
  exact (proj1 (@StoredItemProperties.merged_entries_are_stored None None
                  "front"%string (Scenario.folder [Scenario.clip1])
                  [Scenario.clip1] Scenario.clip1 Scenario.event1
                  Scenario.fetched eq_refl (or_introl eq_refl) eq_refl)
           eq_refl).
Defined.

(** The item of [event1] is selected while the playlist holds its clip:
    the thumbnails are opened. *)
Lemma selection_opens_thumbnails_iff_found_witness :
  exists childIndex,
    FrigateCardTimelineCore._timelineSelectHandler ["event-1"%string]
      Scenario.core
    = (Return tt, Scenario.core,
       [dispatchChangeEvent Scenario.view_live
          {| evolve_target :=
               Some (FrigateCardTimelineCore.playlist [Scenario.clip1]);
             evolve_childIndex := Some childIndex;
             evolve_context := None |};
        dispatchFrigateCardEvent "thumbnails:open"]).
Proof.
  destruct (@PlaylistProperties.selection_opens_thumbnails_iff_found _
              Scenario.core
              (FrigateCardTimelineCore.playlist [Scenario.clip1])
              [Scenario.clip1] ["event-1"%string] eq_refl eq_refl)
    as (childIndex & Hrun & _).
  exists childIndex. exact Hrun.
Defined.

(** The playlist of [busy]: merged as [event3], [event1], [event2], it is
    projected in the order of their starts. *)
Lemma playlist_follows_start_order_witness :
  fst (FrigateCardTimelineCore.projection Scenario.core_busy
         Scenario.widget_on_event2)
  = [Scenario.media_of "video" Scenario.event1;
     Scenario.media_of "image" Scenario.event2;
     Scenario.media_of "video" Scenario.event3].
Proof.
  exact (proj1 (@PlaylistProperties.playlist_follows_start_order _
                  Scenario.core_busy Scenario.widget_on_event2
                  Scenario.config_all eq_refl)).
Defined.

(** Under the filter on all, the one entry projected from
    [snapshot_only] is the snapshot of its item. *)
Lemma playlist_respects_filter_witness :
  isTrueMedia Scenario.snapshot1 = true
  /\ exists item,
       In item (TimelineEventManager.dataset Scenario.snapshot_only)
       /\ (Item.clip item = Some Scenario.snapshot1
           \/ Item.snapshot item = Some Scenario.snapshot1).
Proof.
  exact (proj2 (PlaylistProperties.playlist_respects_filter Scenario.core_all
                  Scenario.widget)
           Scenario.config_all Scenario.snapshot1 eq_refl
           (or_introl eq_refl)).
Defined.

(** With [event2] selected the focus is the second entry, the snapshot
    of [event2]. *)
Lemma focus_is_a_selected_entry_witness :
  exists item source,
    In item (TimelineEventManager.dataset Scenario.busy)
    /\ JS.includes ["event-2"%string] (FrigateEvent.id (Item.event item))
       = true
    /\ FrigateCardTimelineCore.thumbnail_of_item Scenario.config_all item
       = Some source
    /\ nth_error
         (fst (FrigateCardTimelineCore.projection Scenario.core_busy
                 Scenario.widget_on_event2))
         1
       = Some source.
Proof.
  refine (proj1 (proj2 (@PlaylistProperties.focus_is_a_selected_entry _
                          Scenario.core_busy Scenario.widget_on_event2
                          Scenario.config_all eq_refl)) _).
  vm_compute. intro Hc. discriminate Hc.
Defined.

(** With [event2] selected, projection and selection handler agree on
    the index. *)
Lemma projection_focus_is_selection_index_witness :
  snd (FrigateCardTimelineCore.projection Scenario.core_busy
         Scenario.widget_on_event2)
  = JS.findIndex (FrigateCardTimelineCore.is_media_of "event-2")
      (fst (FrigateCardTimelineCore.projection Scenario.core_busy
              Scenario.widget_on_event2)).
Proof.
  refine (@PlaylistProperties.projection_focus_is_selection_index _
            Scenario.core_busy Scenario.widget_on_event2 Scenario.config_all
            "event-2"%string eq_refl eq_refl _ _ _).
  - repeat (apply Forall_cons;
            [unfold TimelineEventManager.well_formed;
             split; [|split; [|split]]; cbn;
             first [ discriminate
                   | intros Hs; first [discriminate Hs | discriminate]
                   | intros s Hs;
                     first [discriminate Hs
                           | injection Hs as <-; split; reflexivity] ]|]).
    apply Forall_nil.
  - repeat (apply Forall_cons; [reflexivity|]). apply Forall_nil.
  - repeat (apply NoDup_cons; [cbn; intuition discriminate|]).
    apply NoDup_nil.
Defined.

(** The update from the live view resumes after the widget is gone: it
    throws. *)
Lemma update_from_view_without_widget_throws_witness :
  outcome_of
    (FrigateCardTimelineCore._updateTimelineFromView_resume
       Scenario.suspended_live Scenario.arrivals Scenario.core_without_widget)
  = Throw unit "TypeError: this._timeline is undefined".
Proof.
  exact (proj1 (LifecycleProperties.update_from_view_without_widget_throws
                  Scenario.core_without_widget Scenario.suspended_live
                  Scenario.arrivals eq_refl)).
Defined.

(** A pan by the user to 10:10 to 10:50 at 10:00:07: no fetch. *)
Lemma covered_range_change_issues_no_query_witness :
  outcome_of
    (FrigateCardTimelineCore._timelineRangeHandler (Scenario.clock 10 0 7)
       Scenario.covered_pan Scenario.core)
  = Return (Some None).
Proof.
  exact (proj1 (@LifecycleProperties.covered_range_change_issues_no_query _
                  (Scenario.clock 10 0 7) Scenario.covered_pan Scenario.core
                  Scenario.cams Scenario.widget Scenario.config_clips
                  eq_refl eq_refl eq_refl eq_refl eq_refl eq_refl)).
Defined.
